(** * MUSEpack: the Monte-Carlo radial-velocity estimator [ppxf_MC]

    A shallow embedding of [MUSEpack/ppxf_MC.py]: the entry point
    [ppxf_MC], the bootstrap trial [_ppxf_bootstrap] and the model function
    [_gaussian_fit].

    Modelling choices.
    - Python floats are real numbers ([R]); NaN and infinities are not
      represented.
    - numpy float arrays live in a store ([heap]) and are passed by
      reference ([loc]), so that [.copy()] and item assignment mean what
      they mean in Python.
    - The global random generator of numpy is a pair of tapes in the
      [world]; drawing consumes the tape.
    - The routines of other packages (ppxf, astropy's sigma_clip, numpy's
      histogram and reductions, lmfit's least-squares fit) are inputs of
      the model, gathered in the record [externals]; every call of the
      kinematic fitter and of pyplot is logged in the [trace].
    - The pool of [multiprocessing] is modelled after its source
      ([Pool.__init__], [_map_async], [_get_tasks], [starmapstar],
      [MapResult._set]): the tasks go to the workers in chunks, a chunk
      ends at the first exception of one of its tasks, every chunk is run,
      and the map raises the exception of the failed chunk that reported
      first.  A worker is a process of its own: a chunk runs on a copy of
      the caller's arrays and draws from the generator of its worker, and
      the store and the generator of the caller are after the map what
      they were before.  What the caller cannot know is an input of the
      model: the generator of the worker at the start of each chunk and,
      with more than one worker, which failed chunk reports first.  The
      log lists the chunks in the order of the tasks.
    - matplotlib.pyplot is an input of the model as well ([pyplot]): what
      [plt.hist] returns and whether a call raises.  [ppxf_MC_with] and
      [summarize_with] are the program for any such pyplot; [ppxf_MC] and
      [summarize] are the program with pyplot as its documentation has
      it: [plt.hist] returns the values and edges of [np.histogram], and
      no call raises.
    - Exceptions are values: a computation returns [Ok v] or [Raise e]. *)

From Stdlib Require Import Reals Lra ZArith String FunctionalExtensionality.
From stdpp Require Import base tactics option list.

Set Default Proof Using "Type".

(** ** Exceptions and results *)

Inductive exn : Type :=
| AttributeError
| IndexError
| ValueError
| TypeError
| Custom (cls : string).

Inductive result (A : Type) : Type :=
| Ok (a : A)
| Raise (e : exn).
Arguments Ok {A} a.
Arguments Raise {A} e.

Definition rbind {A B} (r : result A) (f : A → result B) : result B :=
  match r with
  | Ok a => f a
  | Raise e => Raise e
  end.

Fixpoint rmapM {A B} (f : A → result B) (l : list A) : result (list B) :=
  match l with
  | [] => Ok []
  | a :: l' => rbind (f a) (λ b, rbind (rmapM f l') (λ bs, Ok (b :: bs)))
  end.

(** ** Calls to the outside: the kinematic fitter and pyplot *)

(** The arguments of one call [ppxf.ppxf(templates, galaxy, noise, velscale,
    start, goodpixels=, plot=, degree=, moments=, vsyst=, quiet=, bias=,
    velscale_ratio=, fixed=)]; arrays are recorded by content. *)
Record ppxf_call : Type := PpxfArgs {
  pp_templates : list R;
  pp_galaxy : list R;
  pp_noise : list R;
  pp_velscale : R;
  pp_start : list R;
  pp_goodpixels : list Z;
  pp_plot : bool;
  pp_degree : Z;
  pp_moments : Z;
  pp_vsyst : R;
  pp_quiet : Z;
  pp_bias : Z;
  pp_velscale_ratio : Z;
  pp_fixed : list Z
}.

(** Legend texts of the diagnostic plot, before formatting. *)
Inductive plot_label : Type :=
| label_realizations (nrand : Z)     (* "n\ realizations: " + str(nrand) *)
| label_mean (v : R)                 (* mean$=$ {:4.2f} km/s *)
| label_sigma (v : R).               (* $1\sigma = $ {:5.3f} km/s *)

Inductive plt_call : Type :=
| plt_figure (num : string)
| plt_hist (x : list R) (bins : nat) (density : bool) (label : plot_label)
| plt_plot (x y : list R) (lw : Z)
| plt_axvline (x : R) (c : string) (dashed : bool) (lw : Z) (label : option plot_label)
| plt_xlim (lo hi : R)
| plt_xlabel (s : string)
| plt_ylabel (s : string)
| plt_legend
| plt_tight_layout
| plt_savefig (fname : string) (dpi : Z)
| plt_close.

Inductive event : Type :=
| Task (k : nat)               (* the pool starts task number k *)
| PpxfCall (c : ppxf_call)     (* a call of the kinematic fitter *)
| Plt (c : plt_call).          (* a call of matplotlib.pyplot *)

(** ** The world: array store, random tapes, log *)

Abbreviation loc := nat.

Record world : Type := World {
  heap : list (list R);
  normals : nat → R;       (* the coming draws of np.random.normal *)
  uniforms : nat → R;      (* the coming draws of np.random.uniform(-1, 1) *)
  trace : list event
}.

Definition M (A : Type) : Type := world → result A * world.

Definition ret {A} (a : A) : M A := λ w, (Ok a, w).
Definition raise {A} (e : exn) : M A := λ w, (Raise e, w).
Definition bind {A B} (m : M A) (f : A → M B) : M B :=
  λ w, match m w with
       | (Ok a, w') => f a w'
       | (Raise e, w') => (Raise e, w')
       end.
Definition lift {A} (r : result A) : M A := λ w, (r, w).

Declare Scope py_scope.
Delimit Scope py_scope with py.
Notation "'let*' x := m 'in' k" := (bind m (λ x, k))
  (at level 10, x name, m at level 100, k at level 200,
   format "'let*'  x  :=  m  'in'  '//' k") : py_scope.
Notation "m ;;; k" := (bind m (λ _, k))
  (at level 100, right associativity) : py_scope.
Local Open Scope py_scope.

Definition read (w : world) (l : loc) : list R := default [] (heap w !! l).

Definition load (l : loc) : M (list R) := λ w, (Ok (read w l), w).

Definition alloc (a : list R) : M loc :=
  λ w, let '(World h nz un tr) := w in (Ok (length h), World (h ++ [a]) nz un tr).

Definition store (l : loc) (a : list R) : M unit :=
  λ w, let '(World h nz un tr) := w in (Ok tt, World (<[l := a]> h) nz un tr).

Definition emit (ev : event) : M unit :=
  λ w, let '(World h nz un tr) := w in (Ok tt, World h nz un (tr ++ [ev])).

(** [np.random.normal(size=n)]: the next [n] cells of the tape. *)
Definition np_random_normal (n : nat) : M (list R) :=
  λ w, let '(World h nz un tr) := w in
       (Ok (map nz (seq 0 n)), World h (λ k, nz (n + k)) un tr).

(** [np.random.uniform(-1.0, 1.0)]: the next cell of the tape. *)
Definition np_random_uniform : M R :=
  λ w, let '(World h nz un tr) := w in
       (Ok (un 0), World h nz (λ k, un (S k)) tr).

(** ** numpy arrays and Python lists *)

(** An index [i] into an axis of length [n]: negative indices count from
    the end, anything outside [-n, n) is an IndexError. *)
Definition np_index (n : nat) (i : Z) : result nat :=
  if (0 <=? i)%Z then
    if (i <? Z.of_nat n)%Z then Ok (Z.to_nat i) else Raise IndexError
  else
    if (- Z.of_nat n <=? i)%Z then Ok (Z.to_nat (i + Z.of_nat n)) else Raise IndexError.

(** [a[k]] for a position [k] written in the source. *)
Definition getitem {A} (a : list A) (k : nat) : result A :=
  match a !! k with
  | Some x => Ok x
  | None => Raise IndexError
  end.

(** [a[idx]] for an integer index array: a new array. *)
Definition getitem_fancy (a : list R) (idx : list Z) : result (list R) :=
  rmapM (λ i, rbind (np_index (length a) i) (getitem a)) idx.

(** [a[idx] = vals]: the indices are checked first, then the values are
    written in order, so that the last write to a position stays.  At the
    one place of use [vals] has the length of [idx]. *)
Definition setitem_fancy (a : list R) (idx : list Z) (vals : list R) : result (list R) :=
  rbind (rmapM (np_index (length a)) idx)
        (λ js, Ok (foldl (λ acc jv, <[jv.1 := jv.2]> acc) a (zip js vals))).

(** [a[mask]] for a boolean array of the shape of [a]. *)
Fixpoint compress (a : list R) (mask : list bool) : list R :=
  match a, mask with
  | x :: a', b :: mask' => if b then x :: compress a' mask' else compress a' mask'
  | _, _ => []
  end.

Definition getitem_bool (a : list R) (mask : list bool) : result (list R) :=
  if Nat.eqb (length mask) (length a) then Ok (compress a mask) else Raise IndexError.

Definition np_arange (n : nat) : list Z := map Z.of_nat (seq 0 n).

Definition np_any (a : list Z) : bool := existsb (λ i, negb (i =? 0)%Z) a.

(** [b == None] for a numpy boolean [b]: never true. *)
Definition eq_None (b : bool) : bool := false.

(** [np.ones_like(a)]: a new array. *)
Definition np_ones_like (l : loc) : M loc :=
  let* a := load l in alloc (replicate (length a) 1%R).

(** [a.copy()]: a new array. *)
Definition ndarray_copy (l : loc) : M loc :=
  let* a := load l in alloc a.

(** The builtin [sum] starts from the integer 0. *)
Definition py_sum (x : list R) : R := foldl Rplus 0%R x.

(** [np.array(rows)[:, 0]]: an empty list of rows gives a one-dimensional
    array, which has no second axis. *)
Definition column0 (rows : list (list R)) : result (list R) :=
  match rows with
  | [] => Raise IndexError
  | _ => rmapM (λ r, getitem r 0) rows
  end.

(** ** The routines of other packages *)

(** [astropy.stats.sigma_clip]: the keywords the source sets, and the
    defaults of those it leaves alone. *)
Inductive cenfunc_kw : Type := cen_median | cen_mean.
Inductive stdfunc_kw : Type :=
| std_std
| MAD.      (* astropy.stats.median_absolute_deviation, imported as MAD *)

Record sigma_clip_kw : Type := SigmaClipKw {
  sc_sigma : R;
  sc_maxiters : nat;
  sc_cenfunc : cenfunc_kw;
  sc_stdfunc : stdfunc_kw
}.

(** The call [sigma_clip(data, sigma=s, stdfunc=f)]; [maxiters=5] and
    [cenfunc='median'] are astropy's defaults. *)
Definition sigma_clip_call (s : R) (f : stdfunc_kw) : sigma_clip_kw :=
  SigmaClipKw s 5 cen_median f.

Record masked_array : Type := MaskedArray {
  ma_data : list R;
  ma_mask : list bool
}.

(** [ModelResult.best_values] of a model with the parameters a, b, c. *)
Record best_values : Type := BestValues {
  bv_a : R;
  bv_b : R;
  bv_c : R
}.

Record externals : Type := Externals {
  (** [ppxf.ppxf(...).sol] *)
  ppxf : ppxf_call → result (list R);
  (** [astropy.stats.sigma_clip(data, **kw)] *)
  sigma_clip : list R → sigma_clip_kw → result masked_array;
  (** [np.histogram(a, bins=, density=)]: (hist, bin_edges) *)
  np_histogram : list R → nat → bool → result (list R * list R);
  np_max : list R → R;
  np_mean : list R → R;
  np_std : list R → R;
  (** [Model(f).fit(data, x=, a=, b=, c=).best_values] *)
  lmfit_fit : (R → R → R → R → R) → list R → list R → R → R → R → result best_values;
  (** the pool: the coming draws of [np.random.normal] and of
      [np.random.uniform(-1, 1)] in the worker that takes chunk number [i]
      of a map, when the chunk begins *)
  worker_normals : nat → nat → R;
  worker_uniforms : nat → nat → R;
  (** the pool with several workers: of the chunks of a map that failed
      (their numbers, in increasing order), the place in that list of the
      one that reported first *)
  first_failed : list nat → nat
}.

(** [matplotlib.pyplot] as the program uses it. *)
Record pyplot : Type := Pyplot {
  (** [plt.hist(x, bins=, density=, label=)]: the values and the bin edges,
      the first two entries of what it returns, or the exception of the
      binning *)
  hist_values : list R → nat → bool → result (list R * list R);
  (** the drawing of a call: it returns or raises *)
  returns : plt_call → result unit
}.

(** ** The program *)

(** [_gaussian_fit(x, a, b, c)]:
    [a * np.exp((-1) * (x - b) ** 2.0 / (2 * c ** 2))]. *)
Definition _gaussian_fit (x a b c : R) : R :=
  (a * exp ((-1) * (x - b) ^ 2 / (2 * c ^ 2)))%R.

(** One tuple of [star_args]. *)
Record star_arg : Type := StarArg {
  sa_log_template_f : loc;
  sa_log_spec_f : loc;
  sa_log_spec_err : loc;
  sa_velscale : R;
  sa_degree : Z;
  sa_goodpixels : list Z;
  sa_guesses : list R;
  sa_moments : Z;
  sa_vsyst : R;
  sa_noise : loc;
  sa_RV_guess_var : R
}.

(** Line 143, the abscissae of the fitted curve:
    [((np.arange(2000 * len(bins)) - 1000 * len(bins)) / (100 * len(bins))) + popt[1]]. *)
Definition curve_x (n : nat) (p1 : R) : list R :=
  map (λ k, ((INR k - 1000 * INR n) / (100 * INR n) + p1)%R) (seq 0 (2000 * n)).
Arguments curve_x : simpl never.

Section Program.

Variable E : externals.

(** [_ppxf_bootstrap], lines 228-258. *)
Definition _ppxf_bootstrap
    (log_template_f log_spec_f log_spec_err : loc) (velscale : R) (degree : Z)
    (goodpixels : list Z) (guesses : list R) (moments : Z) (vsyst : R)
    (noise : loc) (RV_guess_var : R) : M (list R) :=
  (* log_spec_f = log_spec_f.copy() *)
  let* log_spec_f := ndarray_copy log_spec_f in
  (* log_spec_f[goodpixels] = log_spec_f[goodpixels]
       + np.random.normal(size=len(goodpixels)) * log_spec_err[goodpixels] *)
  let* cur := load log_spec_f in
  let* flux := lift (getitem_fancy cur goodpixels) in
  let* z := np_random_normal (length goodpixels) in
  let* err := load log_spec_err in
  let* sd := lift (getitem_fancy err goodpixels) in
  let* cur := load log_spec_f in
  let* new := lift (setitem_fancy cur goodpixels
                      (zip_with Rplus flux (zip_with Rmult z sd))) in
  store log_spec_f new ;;;
  (* rv_var = np.random.uniform(-1.0, 1.0) * RV_guess_var *)
  let* u := np_random_uniform in
  let rv_var := (u * RV_guess_var)%R in
  (* var_guesses = [sum(x) for x in zip(guesses, [rv_var, 0.0])] *)
  let var_guesses := map (λ x, py_sum [x.1; x.2]) (zip guesses [rv_var; 0%R]) in
  (* pp1 = ppxf.ppxf(...) *)
  let* templates := load log_template_f in
  let* galaxy := load log_spec_f in
  let* noise := load noise in
  let call := PpxfArgs templates galaxy noise velscale var_guesses goodpixels
                       false degree moments vsyst 1 0 1 [0%Z; 1%Z] in
  emit (PpxfCall call) ;;;
  let* sol := lift (ppxf E call) in
  if (moments <=? 2)%Z then
    let* s0 := lift (getitem sol 0) in
    let* s1 := lift (getitem sol 1) in
    ret [s0; s1]
  else
    let* s0 := lift (getitem sol 0) in
    let* s1 := lift (getitem sol 1) in
    let* s2 := lift (getitem sol 2) in
    let* s3 := lift (getitem sol 3) in
    ret [s0; s1; s2; s3].

(** ** The process pool *)

(** [starmapstar], what a worker does with a chunk of tasks:
    [list(itertools.starmap(f, chunk))].  The tasks run one after the
    other, and the first exception ends the chunk. *)
Fixpoint starmapstar {A B} (f : A → M B) (k : nat) (chunk : list A) : M (list B) :=
  match chunk with
  | [] => ret []
  | a :: chunk' =>
      emit (Task k) ;;;
      let* b := f a in
      let* bs := starmapstar f (S k) chunk' in
      ret (b :: bs)
  end.

(** The chunk size of [_map_async]:
    [chunksize, extra = divmod(len(iterable), len(self._pool) * 4)], and
    one more when [extra] is not 0. *)
Definition chunksize (n : nat) (processes : Z) : nat :=
  let d := 4 * Z.to_nat processes in
  n / d + (if n mod d =? 0 then 0 else 1).

(** [Pool._get_tasks]: slices of [size] arguments, until a slice is
    empty; [fuel] bounds their number. *)
Fixpoint slices {A} (fuel size : nat) (l : list A) : list (list A) :=
  match fuel with
  | 0 => []
  | S fuel' =>
      match take size l with
      | [] => []
      | c => c :: slices fuel' size (drop size l)
      end
  end.

Definition get_tasks {A} (size : nat) (l : list A) : list (list A) :=
  slices (length l) size l.

(** The worker process that takes chunk number [i]: it has the arrays of
    the caller and a generator of its own; [tr] is the log so far. *)
Definition worker (w : world) (i : nat) (tr : list event) : world :=
  World (heap w) (worker_normals E i) (worker_uniforms E i) tr.

(** Every chunk is run, whatever becomes of the others: [i] is the number
    of the next chunk, [k] that of its first task.  The results of the
    chunks and the log are what comes back. *)
Fixpoint run_chunks {A B} (f : A → M B) (w : world) (i k : nat)
    (chunks : list (list A)) (tr : list event)
    : list (result (list B)) * list event :=
  match chunks with
  | [] => ([], tr)
  | c :: chunks' =>
      let '(r, w') := starmapstar f k c (worker w i tr) in
      let '(rs, tr') := run_chunks f w (S i) (k + length c) chunks' (trace w') in
      (r :: rs, tr')
  end.

(** The chunks that failed: number and exception. *)
Fixpoint failures {B} (i : nat) (rs : list (result B)) : list (nat * exn) :=
  match rs with
  | [] => []
  | Ok _ :: rs' => failures (S i) rs'
  | Raise e :: rs' => (i, e) :: failures (S i) rs'
  end.

(** [MapResult]: when every chunk returned, the results in the order of
    the tasks; otherwise the exception of the failed chunk that reported
    first.  One worker takes the chunks in their order, so that its first
    failure is the first to report; so it is taken to be also when
    [first_failed] names no failed chunk. *)
Definition map_result {B} (processes : Z) (rs : list (result (list B)))
    : result (list B) :=
  match rmapM (λ r, r) rs with
  | Ok ls => Ok (concat ls)
  | Raise e0 =>
      let fs := failures 0 rs in
      let j := if (processes =? 1)%Z then 0 else first_failed E (map fst fs) in
      Raise (default e0 (snd <$> fs !! j))
  end.

(** [with Pool(processes) as pool: pool.starmap(f, args)]: a pool needs at
    least one process.  The store and the generator of the caller are not
    those of the workers. *)
Definition Pool_starmap {A B} (processes : Z) (f : A → M B) (args : list A)
    : M (list B) :=
  if (processes <? 1)%Z then raise ValueError
  else λ w,
    let size := chunksize (length args) processes in
    let '(rs, tr) := run_chunks f w 0 0 (get_tasks size args) (trace w) in
    (map_result processes rs, World (heap w) (normals w) (uniforms w) tr).

(** [_ppxf_bootstrap] applied to the components of one tuple of
    [star_args], as [starmap] does. *)
Definition starred (a : star_arg) : M (list R) :=
  _ppxf_bootstrap (sa_log_template_f a) (sa_log_spec_f a) (sa_log_spec_err a)
    (sa_velscale a) (sa_degree a) (sa_goodpixels a) (sa_guesses a)
    (sa_moments a) (sa_vsyst a) (sa_noise a) (sa_RV_guess_var a).

(** [not spec_id]: true for [None] and for the empty string. *)
Definition py_not (spec_id : option string) : bool :=
  match spec_id with
  | None => true
  | Some s => String.eqb s EmptyString
  end.

(** ** The summary and the plot *)

(** A call of pyplot: it is logged, then it returns or raises. *)
Definition pyplot_call (P : pyplot) (c : plt_call) : M unit :=
  emit (Plt c) ;;; lift (returns P c).

(** [plt.hist(x, bins=, density=, label=)]: the data are binned, then the
    bars are drawn; the values and the edges are what it returns first. *)
Definition pyplot_hist (P : pyplot) (x : list R) (bins : nat) (density : bool)
    (label : plot_label) : M (list R * list R) :=
  emit (Plt (plt_hist x bins density label)) ;;;
  let* r := lift (hist_values P x bins density) in
  lift (returns P (plt_hist x bins density label)) ;;;
  ret r.

(** Lines 119-170 of [ppxf_MC]: from the list of trial results to the
    returned pair. *)
Definition summarize_with (P : pyplot) (uncert_ppxf : list (list R)) (nrand : Z)
    (sigma : R) (spec_id : option string) : M (R * R) :=
  (* clipped = sigma_clip(np.array(uncert_ppxf)[:, 0], sigma=sigma, stdfunc=MAD) *)
  let* rv := lift (column0 uncert_ppxf) in
  let* clipped := lift (sigma_clip E rv (sigma_clip_call sigma MAD)) in
  (* clipped = clipped.data[~clipped.mask] *)
  let* clipped := lift (getitem_bool (ma_data clipped) (map negb (ma_mask clipped))) in
  if py_not spec_id then
    let* r := lift (np_histogram E clipped 20 true) in
    let* bins := lift (rmapM (λ i,
                   rbind (getitem r.2 i) (λ lo,
                   rbind (getitem r.2 (i + 1)) (λ hi,
                   rbind (getitem r.2 i) (λ lo',
                   Ok (lo + 0.5 * (hi - lo'))%R))))
                 (seq 0 (length r.1))) in
    let* result := lift (lmfit_fit E _gaussian_fit r.1 bins
                           (np_max E r.1) (np_mean E clipped) (np_std E clipped)) in
    let popt := [bv_a result; bv_b result; bv_c result] in
    let* p1 := lift (getitem popt 1) in
    let* p2 := lift (getitem popt 2) in
    ret (p1, p2)
  else
    let spec_id := default EmptyString spec_id in
    pyplot_call P (plt_figure spec_id) ;;;
    let* r := pyplot_hist P clipped 20 true (label_realizations nrand) in
    let* bins := lift (rmapM (λ i,
                   rbind (getitem r.2 i) (λ lo,
                   rbind (getitem r.2 (i + 1)) (λ hi,
                   rbind (getitem r.2 i) (λ lo',
                   Ok (lo + 0.5 * (hi - lo'))%R))))
                 (seq 0 (length r.1))) in
    let* result := lift (lmfit_fit E _gaussian_fit r.1 bins
                           (np_max E r.1) (np_mean E clipped) (np_std E clipped)) in
    let popt := [bv_a result; bv_b result; bv_c result] in
    let* p0 := lift (getitem popt 0) in
    let* p1 := lift (getitem popt 1) in
    let* p2 := lift (getitem popt 2) in
    (* x = ((np.arange(2000 * len(bins)) - 1000 * len(bins)) / (100 * len(bins))) + popt[1] *)
    let x := curve_x (length bins) p1 in
    pyplot_call P (plt_plot x (map (λ xi, _gaussian_fit xi p0 p1 p2) x) 3) ;;;
    pyplot_call P (plt_axvline p1 "r"%string false 3 (Some (label_mean p1))) ;;;
    pyplot_call P (plt_axvline (p1 + p2) "r"%string true 3 (Some (label_sigma p2))) ;;;
    pyplot_call P (plt_axvline (p1 - p2) "r"%string true 3 None) ;;;
    pyplot_call P (plt_xlim (p1 - 3 * p2) (p1 + 3 * p2)) ;;;
    pyplot_call P (plt_xlabel "velocity [$\frac{\rm km}{\rm s}$]"%string) ;;;
    pyplot_call P (plt_ylabel "relative number"%string) ;;;
    pyplot_call P plt_legend ;;;
    pyplot_call P plt_tight_layout ;;;
    pyplot_call P (plt_savefig (String.append spec_id "_v_dist.png") 100) ;;;
    pyplot_call P plt_close ;;;
    ret (p1, p2).

(** [ppxf_MC], lines 95-170. *)
Definition ppxf_MC_with (P : pyplot)
    (log_template_f log_spec_f log_spec_err : loc) (velscale : R)
    (guesses : list R) (nrand : Z) (degree : Z) (goodpixels : option (list Z))
    (moments : Z) (vsyst : R) (sigma : R) (spec_id : option string)
    (RV_guess_var : R) (n_CPU : Z) : M (R * R) :=
  (* noise = np.ones_like(log_spec_f) *)
  let* noise := np_ones_like log_spec_f in
  (* if goodpixels.any() == None: goodpixels = np.arange(len(log_spec_f)) *)
  let* goodpixels :=
    match goodpixels with
    | None => raise AttributeError       (* None has no method any *)
    | Some g =>
        if eq_None (np_any g) then
          let* spec := load log_spec_f in ret (np_arange (length spec))
        else ret g
    end in
  let star_args :=
    replicate (Z.to_nat nrand)
      (StarArg log_template_f log_spec_f log_spec_err velscale degree
               goodpixels guesses moments vsyst noise RV_guess_var) in
  (* with Pool(n_CPU) as pool: uncert_ppxf = pool.starmap(_ppxf_bootstrap, star_args) *)
  let* uncert_ppxf := Pool_starmap n_CPU starred star_args in
  summarize_with P uncert_ppxf nrand sigma spec_id.

(** pyplot as its documentation has it, for data without NaN: [plt.hist]
    bins with [np.histogram] and returns its values and edges, and no
    call raises. *)
Definition documented : pyplot := Pyplot (np_histogram E) (λ _, Ok tt).

(** The program with pyplot as documented. *)
Definition summarize : list (list R) → Z → R → option string → M (R * R) :=
  summarize_with documented.

Definition ppxf_MC
    : loc → loc → loc → R → list R → Z → Z → option (list Z) → Z → R → R →
      option string → R → Z → M (R * R) :=
  ppxf_MC_with documented.

End Program.

(** ** Derived notions used in the statements *)

(** The indices numpy accepts for an axis of length [n]. *)
Definition in_range (n : nat) (i : Z) : Prop :=
  (- Z.of_nat n <= i < Z.of_nat n)%Z.

(** The position an index in range denotes. *)
Definition norm (n : nat) (i : Z) : nat :=
  if (0 <=? i)%Z then Z.to_nat i else Z.to_nat (i + Z.of_nat n).

(** Lines 228-231 on array contents: the perturbed copy. *)
Definition perturbed (spec err : list R) (gp : list Z) (z : list R) : result (list R) :=
  rbind (getitem_fancy spec gp) (λ flux,
  rbind (getitem_fancy err gp) (λ sd,
  setitem_fancy spec gp (zip_with Rplus flux (zip_with Rmult z sd)))).

(** Line 234. *)
Definition var_guesses_of (guesses : list R) (rv_var : R) : list R :=
  map (λ x, py_sum [x.1; x.2]) (zip guesses [rv_var; 0%R]).

(** Lines 253-258. *)
Definition moments_of (moments : Z) (sol : list R) : result (list R) :=
  if (moments <=? 2)%Z then
    rbind (getitem sol 0) (λ s0, rbind (getitem sol 1) (λ s1, Ok [s0; s1]))
  else
    rbind (getitem sol 0) (λ s0, rbind (getitem sol 1) (λ s1,
    rbind (getitem sol 2) (λ s2, rbind (getitem sol 3) (λ s3, Ok [s0; s1; s2; s3])))).

(** The call of the fitter, lines 236-251. *)
Definition call_with (templates noise : list R) (a : star_arg)
    (galaxy : list R) (u : R) : ppxf_call :=
  PpxfArgs templates galaxy noise (sa_velscale a)
    (var_guesses_of (sa_guesses a) (u * sa_RV_guess_var a))
    (sa_goodpixels a) false (sa_degree a) (sa_moments a) (sa_vsyst a)
    1 0 1 [0%Z; 1%Z].

(** The call of the fitter a trial makes from the world [w]. *)
Definition trial_call (w : world) (a : star_arg) (galaxy : list R) : ppxf_call :=
  call_with (read w (sa_log_template_f a)) (read w (sa_noise a)) a galaxy
            (uniforms w 0).

(** The four arrays of a tuple are arrays of the store. *)
Definition arg_valid (w : world) (a : star_arg) : Prop :=
  sa_log_template_f a < length (heap w) ∧ sa_log_spec_f a < length (heap w) ∧
  sa_log_spec_err a < length (heap w) ∧ sa_noise a < length (heap w).

(** Every index of the mask is an index of the spectrum and of the error
    array. *)
Definition gather_ok (spec err : list R) (gp : list Z) : Prop :=
  Forall (in_range (length spec)) gp ∧ Forall (in_range (length err)) gp.

(** What a trial returns when it called the fitter with [c], lines
    236-258. *)
Definition trial_answer (E : externals) (moments : Z) (c : ppxf_call)
    : result (list R) :=
  rbind (ppxf E c) (moments_of moments).

(** The log of the tasks [k], [k + 1], ... of a chunk that reach the
    fitter with the calls [cs]. *)
Fixpoint batch_log (k : nat) (cs : list ppxf_call) : list event :=
  match cs with
  | [] => []
  | c :: cs' => Task k :: PpxfCall c :: batch_log (S k) cs'
  end.

(** [c] is the call of a trial on the arrays of the world [w0]. *)
Definition is_trial_call (w0 : world) (a : star_arg) (c : ppxf_call) : Prop :=
  ∃ z u,
    length z = length (sa_goodpixels a) ∧
    perturbed (read w0 (sa_log_spec_f a)) (read w0 (sa_log_spec_err a))
              (sa_goodpixels a) z = Ok (pp_galaxy c) ∧
    c = call_with (read w0 (sa_log_template_f a)) (read w0 (sa_noise a)) a
                  (pp_galaxy c) u.

(** What the log holds beyond that of an earlier world. *)
Definition log_since (w w' : world) : list event :=
  drop (length (trace w)) (trace w').

(** Lines 124 and 135: the list comprehension of the bin centres. *)
Definition bin_centers (hist edges : list R) : result (list R) :=
  rmapM (λ i,
    rbind (getitem edges i) (λ lo,
    rbind (getitem edges (i + 1)) (λ hi,
    rbind (getitem edges i) (λ lo',
    Ok (lo + 0.5 * (hi - lo'))%R))))
  (seq 0 (length hist)).

(** The value [summarize] computes, without the world. *)
Definition summary (E : externals) (rows : list (list R)) (sigma : R) : result (R * R) :=
  rbind (column0 rows) (λ rv,
  rbind (sigma_clip E rv (sigma_clip_call sigma MAD)) (λ m,
  rbind (getitem_bool (ma_data m) (map negb (ma_mask m))) (λ clipped,
  rbind (np_histogram E clipped 20 true) (λ r,
  rbind (bin_centers r.1 r.2) (λ bins,
  rbind (lmfit_fit E _gaussian_fit r.1 bins
           (np_max E r.1) (np_mean E clipped) (np_std E clipped)) (λ res,
  Ok (bv_b res, bv_c res))))))).

(** Lines 143-168: the drawing after the fit. *)
Definition curve_and_markers (spec_id : string) (n : nat) (p0 p1 p2 : R) : list plt_call :=
  let x := curve_x n p1 in
  [ plt_plot x (map (λ xi, _gaussian_fit xi p0 p1 p2) x) 3;
    plt_axvline p1 "r"%string false 3 (Some (label_mean p1));
    plt_axvline (p1 + p2) "r"%string true 3 (Some (label_sigma p2));
    plt_axvline (p1 - p2) "r"%string true 3 None;
    plt_xlim (p1 - 3 * p2) (p1 + 3 * p2);
    plt_xlabel "velocity [$\frac{\rm km}{\rm s}$]"%string;
    plt_ylabel "relative number"%string;
    plt_legend;
    plt_tight_layout;
    plt_savefig (String.append spec_id "_v_dist.png") 100;
    plt_close ].

(** A sequence of pyplot calls: the calls made, all up to the first that
    raises, and what becomes of the sequence. *)
Fixpoint draws (P : pyplot) (cs : list plt_call) : result unit * list plt_call :=
  match cs with
  | [] => (Ok tt, [])
  | c :: cs' =>
      match returns P c with
      | Ok _ => let '(r, l) := draws P cs' in (r, c :: l)
      | Raise e => (Raise e, [c])
      end
  end.

(** Lines 119-120: the trial velocities that are not clipped. *)
Definition clipped_of (E : externals) (rows : list (list R)) (sigma : R)
    : result (list R) :=
  rbind (column0 rows) (λ rv,
  rbind (sigma_clip E rv (sigma_clip_call sigma MAD)) (λ m,
  getitem_bool (ma_data m) (map negb (ma_mask m)))).

(** Lines 131-170 without the world: what [summarize_with] returns and the
    pyplot calls it makes when a spectrum identifier is given. *)
Definition plotted (E : externals) (P : pyplot) (rows : list (list R)) (nrand : Z)
    (sigma : R) (spec_id : string) : result (R * R) * list plt_call :=
  match clipped_of E rows sigma with
  | Raise e => (Raise e, [])
  | Ok clipped =>
      let fig := plt_figure spec_id in
      let h := plt_hist clipped 20 true (label_realizations nrand) in
      match returns P fig with
      | Raise e => (Raise e, [fig])
      | Ok _ =>
          match rbind (hist_values P clipped 20 true) (λ r,
                rbind (returns P h) (λ _,
                rbind (bin_centers r.1 r.2) (λ bins,
                rbind (lmfit_fit E _gaussian_fit r.1 bins
                         (np_max E r.1) (np_mean E clipped) (np_std E clipped))
                      (λ res, Ok (bins, res))))) with
          | Raise e => (Raise e, [fig; h])
          | Ok (bins, res) =>
              let '(d, l) :=
                draws P (curve_and_markers spec_id (length bins)
                           (bv_a res) (bv_b res) (bv_c res)) in
              (rbind d (λ _, Ok (bv_b res, bv_c res)), fig :: h :: l)
          end
      end
  end.

(** The pyplot calls of [summarize] when a spectrum identifier is given. *)
Definition plots_of (E : externals) (rows : list (list R)) (nrand : Z) (sigma : R)
    (spec_id : string) : list plt_call :=
  (plotted E (documented E) rows nrand sigma spec_id).2.

(** The files [plt.savefig] writes. *)
Definition files_written (ps : list plt_call) : list string :=
  flat_map (λ p, match p with plt_savefig f _ => [f] | _ => [] end) ps.

(** ** Worlds and routines for the examples *)

Module Scenario.

(** Store: 0 the template, 1 the spectrum, 2 the error array.  The normal
    tape reads 1, 2, 3, ...; every uniform draw is 0.5; so it is in every
    worker of [routines]. *)
Definition w0 : world :=
  World [[1; 2; 3]; [10; 20; 30]; [1; 2; 3]]%R
        (λ k, IZR (Z.of_nat k) + 1)%R (λ _, 0.5%R) [].

(** The same store after [ppxf_MC] has made the noise array (address 3). *)
Definition w1 : world :=
  World [[1; 2; 3]; [10; 20; 30]; [1; 2; 3]; [1; 1; 1]]%R
        (λ k, IZR (Z.of_nat k) + 1)%R (λ _, 0.5%R) [].

(** A store in which the error array is shorter than the spectrum. *)
Definition w_short : world :=
  World [[1; 2; 3]; [10; 20; 30]; [1; 2]]%R
        (λ k, IZR (Z.of_nat k) + 1)%R (λ _, 0.5%R) [].

(** A fitter that answers with the first flux value as velocity; nothing
    is clipped; unit histogram; the fit returns its initial values. *)
Definition routines : externals :=
  Externals
    (λ c, Ok [default 0%R (pp_galaxy c !! 0); 1%R; 0%R; 0%R])
    (λ data kw, Ok (MaskedArray data (map (λ _, false) data)))
    (λ a bins density, Ok (replicate bins 1%R, map INR (seq 0 (S bins))))
    (λ l, 1%R) (λ l, default 0%R (head l)) (λ l, 0%R)
    (λ f data x a b c, Ok (BestValues a b c))
    (λ _ k, IZR (Z.of_nat k) + 1)%R (λ _ _, 0.5%R) (λ _, 0).


(** The same with a clipping that masks every value. *)
Definition clip_all : externals :=
  Externals (ppxf routines)
    (λ data kw, Ok (MaskedArray data (map (λ _, true) data)))
    (np_histogram routines)
    (np_max routines) (np_mean routines) (np_std routines) (lmfit_fit routines)
    (worker_normals routines) (worker_uniforms routines) (first_failed routines).

(** The same with a clipping that masks every value and a fit that
    refuses data without content. *)
Definition clip_all_strict : externals :=
  Externals (ppxf routines)
    (λ data kw, Ok (MaskedArray data (map (λ _, true) data)))
    (np_histogram routines)
    (np_max routines) (np_mean routines) (np_std routines)
    (λ f data x a b c, Raise ValueError)
    (worker_normals routines) (worker_uniforms routines) (first_failed routines).


(** A trial on the mask [0, -1] with a guess of two components. *)
Definition trial2 : star_arg :=
  StarArg 0 1 2 1%R 4 [0; -1]%Z [5; 50]%R 2 0%R 3 2%R.

(** The same trial with a guess of four components and four moments. *)
Definition trial4 : star_arg :=
  StarArg 0 1 2 1%R 4 [0; -1]%Z [5; 50; 7; 9]%R 4 0%R 3 2%R.

(** A call of [ppxf_MC] for two trials, two moments and one process. *)
Definition call (E : externals) (gpo : option (list Z)) (sid : option string)
    (w : world) : result (R * R) * world :=
  ppxf_MC E 0 1 2 1%R [5; 50]%R 2 4 gpo 2 0%R 5%R sid 2%R 1 w.


(** The call of the fitter in the first trial of [call] on the mask
    [0, -1]. *)
Definition call0 : ppxf_call :=
  PpxfArgs [1; 2; 3]%R [10 + (0 + 1) * 1; 20; 30 + (1 + 1) * 3]%R [1; 1; 1]%R
           1%R [0 + 5 + 0.5 * 2; 0 + 50 + 0]%R [0; -1]%Z false 4 2 0%R 1 0 1
           [0; 1]%Z.

End Scenario.

(** Evaluation of the model on given arrays; the arithmetic of reals stays
    as written. *)
Ltac run_py :=
  cbv -[Rplus Rmult Rminus Rdiv Ropp Rinv IZR INR exp Rlt Rle pow sqrt
        curve_x _gaussian_fit].

(** ** The Distribution Summarizer as the specification words it *)

(** The values of a masked array that are not masked. *)
Definition retained (m : masked_array) : list R :=
  omap (λ p : R * bool, if p.2 then None else Some p.1)
       (zip (ma_data m) (ma_mask m)).

(** Bin centres: left edge plus half the bin width. *)
Definition bin_centres (edges : list R) : list R :=
  zip_with (λ left right, (left + (right - left) / 2)%R) edges (tail edges).

(** The Gaussian [a * exp(-(x-b)^2 / (2c^2))]. *)
Definition gaussian (x a b c : R) : R :=
  (a * exp (- (x - b) ^ 2 / (2 * c ^ 2)))%R.

(** Section 4.4, steps 1 to 5. *)
Definition Summarizer (E : externals) (ensemble : list (list R)) (sigma : R)
    : result (R * R) :=
  (* input: column 0 (RV) of the ensemble *)
  rbind (rmapM (λ row, getitem row 0) ensemble) (λ rv,
  (* 1: iterative sigma-clipping, MAD as spread, median as centre *)
  rbind (sigma_clip E rv (SigmaClipKw sigma 5 cen_median MAD)) (λ m,
  let kept := retained m in
  (* 2: 20-bin density histogram *)
  rbind (np_histogram E kept 20 true) (λ h,
  (* 3, 4: bin centres; least-squares fit of the Gaussian *)
  rbind (lmfit_fit E gaussian h.1 (bin_centres h.2)
           (np_max E h.1) (np_mean E kept) (np_std E kept)) (λ fit,
  (* 5 *)
  Ok (bv_b fit, bv_c fit))))).

(** * More of [ppxf_MC.py] *)

(** Lines 228-251 of [_ppxf_bootstrap] up to the call of the fitter: the
    part of a trial that does not depend on what the fitter answers. *)
Definition trial_prefix (a : star_arg) : M ppxf_call :=
  let* log_spec_f := ndarray_copy (sa_log_spec_f a) in
  let* cur := load log_spec_f in
  let* flux := lift (getitem_fancy cur (sa_goodpixels a)) in
  let* z := np_random_normal (length (sa_goodpixels a)) in
  let* err := load (sa_log_spec_err a) in
  let* sd := lift (getitem_fancy err (sa_goodpixels a)) in
  let* cur := load log_spec_f in
  let* new := lift (setitem_fancy cur (sa_goodpixels a)
                      (zip_with Rplus flux (zip_with Rmult z sd))) in
  store log_spec_f new ;;;
  let* u := np_random_uniform in
  let* templates := load (sa_log_template_f a) in
  let* galaxy := load log_spec_f in
  let* noise := load (sa_noise a) in
  let call := call_with templates noise a galaxy u in
  emit (PpxfCall call) ;;;
  ret call.

(** The routines [E] with another fitter. *)
Definition with_ppxf (E : externals) (fit : ppxf_call → result (list R)) : externals :=
  Externals fit (sigma_clip E) (np_histogram E) (np_max E) (np_mean E) (np_std E)
            (lmfit_fit E) (worker_normals E) (worker_uniforms E) (first_failed E).

(** Two answers of a fitter that a trial cannot tell apart but for the
    first entry: both raise the same exception, or both hold the entries
    the trial reads and the same first entry. *)
Definition same_velocity (moments : Z) (r r' : result (list R)) : Prop :=
  match r, r' with
  | Ok sol, Ok sol' =>
      (if (moments <=? 2)%Z then 2 else 4) ≤ length sol ∧
      (if (moments <=? 2)%Z then 2 else 4) ≤ length sol' ∧
      sol !! 0 = sol' !! 0
  | Raise e, Raise e' => e = e'
  | _, _ => False
  end.

(** The pyplot calls among the events of a log. *)
Definition plt_calls (evs : list event) : list plt_call :=
  flat_map (λ ev, match ev with Plt p => [p] | _ => [] end) evs.

(** Two task results with the same first entry, or the same exception. *)
Definition same_head (r r' : result (list R)) : Prop :=
  match r, r' with
  | Ok row, Ok row' => getitem row 0 = getitem row' 0
  | Raise e, Raise e' => e = e'
  | _, _ => False
  end.

(** Two chunk results with the same first entries, or the same
    exception. *)
Definition same_rows (r r' : result (list (list R))) : Prop :=
  match r, r' with
  | Ok rows, Ok rows' => Forall2 (λ row row', getitem row 0 = getitem row' 0) rows rows'
  | Raise e, Raise e' => e = e'
  | _, _ => False
  end.

(** The number of solution entries a trial reads, lines 253-256. *)
Definition entries_read (moments : Z) : nat :=
  if (moments <=? 2)%Z then 2 else 4.

(** A second fitter for the examples: the same velocity as
    [Scenario.routines], other moments. *)
Definition other_fitter (c : ppxf_call) : result (list R) :=
  Ok [default 0%R (pp_galaxy c !! 0); 7%R; 7%R; 7%R].


(** * [MUSEpack/cubes.py]: the world of files

    The functions of [cubes.py] read and write files.  Modelling choices
    for them, beside those at the head of the file:
    - the file system is a list of files by path, the latest written first
      (so that the first entry of a path is what the file holds), and a list
      of directories; paths are compared as strings, a directory name ends
      in a slash as everywhere in the source, and the directory in which a
      file is written or a directory made is taken to be there;
    - what is printed is kept line by line;
    - character strings are ASCII;
    - a FITS file is the list of its HDUs, a header the list of its cards
      (keyword and value), an image the list of its pixels. *)

From Stdlib Require Ascii DecimalString DecimalZ.

Infix "+:+" := String.append (at level 60, right associativity) : py_scope.

(** ** Tables and FITS files *)

(** An [astropy.table.Table] with the four columns of a PampelMuse
    catalogue: the names, and the columns id (i4), ra, dec and magnitude
    (f8). *)
Record table : Type := MkTable {
  tb_names : list string;
  tb_id : list Z;
  tb_ra : list R;
  tb_dec : list R;
  tb_mag : list R
}.

(** The value of a header card: a number or a character string. *)
Inductive hval : Type :=
| HNum (v : R)
| HStr (s : string).

(** A field of a row of a binary table: characters or an array. *)
Inductive tfield : Type :=
| FStr (s : string)
| FArr (a : list R).

Inductive hdata : Type :=
| NoData                                  (* [.data] is None *)
| Image (px : list R)                     (* a float image, pixel by pixel *)
| BinTable (rows : list (list tfield)).   (* a table, row by row *)

Record hdu : Type := HDU {
  hdu_header : list (string * hval);
  hdu_data : hdata
}.

Inductive file : Type :=
| Text (s : string)          (* a text file *)
| AsciiTable (t : table)     (* a table written as ascii.basic, delimiter ',' *)
| Fits (hdus : list hdu).    (* a FITS file *)

(** An argument of [print]: a string, or a float under ['{:.2f}'.format]. *)
Inductive pitem : Type :=
| PStr (s : string)
| PFix2 (v : R).

Record env : Type := Env {
  files : list (string * file);
  dirs : list string;
  stdout : list (list pitem)
}.

Definition IO (A : Type) : Type := env → result A * env.

Definition io_ret {A} (a : A) : IO A := λ d, (Ok a, d).
Definition io_raise {A} (e : exn) : IO A := λ d, (Raise e, d).
Definition io_bind {A B} (m : IO A) (f : A → IO B) : IO B :=
  λ d, match m d with
       | (Ok a, d') => f a d'
       | (Raise e, d') => (Raise e, d')
       end.
Definition io_lift {A} (r : result A) : IO A := λ d, (r, d).

Notation "'let+' x := m 'in' k" := (io_bind m (λ x, k))
  (at level 10, x name, m at level 100, k at level 200,
   format "'let+'  x  :=  m  'in'  '//' k") : py_scope.
Notation "m ;+ k" := (io_bind m (λ _, k))
  (at level 100, right associativity) : py_scope.

Definition FileNotFoundError : exn := Custom "FileNotFoundError".
Definition FileExistsError : exn := Custom "FileExistsError".
Definition KeyError : exn := Custom "KeyError".
Definition AssertionError : exn := Custom "AssertionError".
Definition UnboundLocalError : exn := Custom "UnboundLocalError".
Definition SystemExit : exn := Custom "SystemExit".
Definition OSError : exn := Custom "OSError".

(** What a path holds: the latest file written to it. *)
Fixpoint lookup_file (p : string) (fs : list (string * file)) : option file :=
  match fs with
  | [] => None
  | (q, c) :: fs' => if String.eqb q p then Some c else lookup_file p fs'
  end.

(** Opening a file for reading. *)
Definition read_file (p : string) : IO file :=
  λ d, match lookup_file p (files d) with
       | Some c => (Ok c, d)
       | None => (Raise FileNotFoundError, d)
       end.

(** Writing a file, a new one or over an old one. *)
Definition write_file (p : string) (c : file) : IO unit :=
  λ d, let '(Env fs ds out) := d in (Ok tt, Env ((p, c) :: fs) ds out).

(** [print(...)] *)
Definition print (line : list pitem) : IO unit :=
  λ d, let '(Env fs ds out) := d in (Ok tt, Env fs ds (out ++ [line])).

(** [os.path.exists(p)] for a directory name [p]. *)
Definition os_path_exists (p : string) : IO bool :=
  λ d, (Ok (existsb (String.eqb p) (dirs d)), d).

(** [os.mkdir(p)] *)
Definition os_mkdir (p : string) : IO unit :=
  λ d, let '(Env fs ds out) := d in
       if existsb (String.eqb p) ds then (Raise FileExistsError, d)
       else (Ok tt, Env fs (p :: ds) out).

(** [shutil.rmtree(p)]: the directory goes with all that is below it. *)
Definition outside (p q : string) : bool := negb (String.prefix p q).

Definition shutil_rmtree (p : string) : IO unit :=
  λ d, let '(Env fs ds out) := d in
       if existsb (String.eqb p) ds
       then (Ok tt, Env (filter (λ f, outside p f.1 = true) fs)
                        (filter (λ q, outside p q = true) ds) out)
       else (Raise FileNotFoundError, d).

(** [shutil.copy(src, dst)] and [shutil.copyfile(src, dst)], [dst] the
    name of the new file; a file is not copied onto itself. *)
Definition SameFileError : exn := Custom "SameFileError".

Definition shutil_copy (src dst : string) : IO unit :=
  if String.eqb src dst then io_raise SameFileError
  else let+ c := read_file src in write_file dst c.

(** ** Strings *)

Definition lower_ascii (c : Ascii.ascii) : Ascii.ascii :=
  let n := Ascii.nat_of_ascii c in
  if (65 <=? n) && (n <=? 90) then Ascii.ascii_of_nat (n + 32) else c.

Definition upper_ascii (c : Ascii.ascii) : Ascii.ascii :=
  let n := Ascii.nat_of_ascii c in
  if (97 <=? n) && (n <=? 122) then Ascii.ascii_of_nat (n - 32) else c.

(** [s.lower()] and [s.upper()] *)
Fixpoint str_lower (s : string) : string :=
  match s with
  | EmptyString => EmptyString
  | String c s' => String (lower_ascii c) (str_lower s')
  end.

Fixpoint str_upper (s : string) : string :=
  match s with
  | EmptyString => EmptyString
  | String c s' => String (upper_ascii c) (str_upper s')
  end.

(** [str(i)] for an integer. *)
Definition str_int (i : Z) : string :=
  DecimalString.NilZero.string_of_int (Z.to_int i).

Definition strcat (l : list string) : string := foldr String.append EmptyString l.

(** ** More of numpy *)

(** Comparisons of floats. *)
Definition Rle_b (x y : R) : bool := if Rle_dec x y then true else false.
Definition Rlt_b (x y : R) : bool := if Rlt_dec x y then true else false.
Definition Req_b (x y : R) : bool := if Req_dec_T x y then true else false.

(** [np.where(mask)] for a one-dimensional boolean array: the positions
    that hold True, in increasing order. *)
Fixpoint where_from (k : nat) (mask : list bool) : list nat :=
  match mask with
  | [] => []
  | b :: mask' => if b then k :: where_from (S k) mask' else where_from (S k) mask'
  end.

Definition np_where (mask : list bool) : list nat := where_from 0 mask.

(** [a[pos]] for the index array [pos] of an [np.where]: a new array. *)
Definition getitem_where {A} (a : list A) (pos : list nat) : result (list A) :=
  rmapM (getitem a) pos.

(** [a[pos] = v] for a scalar [v] and positions within [a]. *)
Definition setitem_where (a : list R) (pos : list nat) (v : R) : list R :=
  foldl (λ acc j, <[j := v]> acc) a pos.

(** Conversion to a 32-bit integer as [np.array(a, dtype='i4')] does it:
    silently, modulo 2^32. *)
Definition as_i4 (i : Z) : Z :=
  ((i + 2147483648) mod 4294967296 - 2147483648)%Z.

(** ** [pampelmuse_cat] *)

(** [Table([id, ra, dec, mag], names=('id', 'ra', 'dec', name),
    dtype=('i4', 'f8', 'f8', 'f8'))]: astropy raises ValueError for columns
    of different lengths and for a name that is used twice; a column
    without a name is called after its position. *)
Definition Table (ids : list Z) (ra dec mag : list R) (name : string) : result table :=
  if Nat.eqb (length ra) (length ids) && Nat.eqb (length dec) (length ids)
     && Nat.eqb (length mag) (length ids)
  then
    if existsb (String.eqb name) ["id"; "ra"; "dec"]%string then Raise ValueError
    else Ok (MkTable ["id"; "ra"; "dec";
                      if String.eqb name EmptyString then "col3" else name]%string
                     (map as_i4 ids) ra dec mag)
  else Raise ValueError.

(** [pampelmuse_cat(ra, dec, mag, filter, idx=, path=, sat=, mag_sat=,
    ifs_sat=, mag_limit=)], lines 200-269; [ra], [dec], [mag] and [idx] are
    numpy arrays.  [idx == None] on an array is an array of False, whose
    truth value is a ValueError when it has two entries or more, and False
    when it has one or none (the numpy of the source's time). *)
Definition pampelmuse_cat (ra dec mag : list R) (filter_name : string)
    (idx : option (list Z)) (path : string) (sat : R)
    (mag_sat ifs_sat mag_limit : option R) : IO unit :=
  (* 237-240 *)
  let+ ids := match idx with
              | None => io_ret (map (λ i, (i + 1)%Z) (np_arange (length ra)))
              | Some a => if 2 <=? length a then io_raise ValueError else io_ret a
              end in
  (* 242-247 *)
  let+ cut := match mag_limit with
              | Some lim =>
                  let mag_lim_id := np_where (map (λ m, Rle_b m lim) mag) in
                  let+ ids := io_lift (getitem_where ids mag_lim_id) in
                  let+ ra := io_lift (getitem_where ra mag_lim_id) in
                  let+ dec := io_lift (getitem_where dec mag_lim_id) in
                  let+ mag := io_lift (getitem_where mag mag_lim_id) in
                  io_ret (ids, ra, dec, mag)
              | None => io_ret (ids, ra, dec, mag)
              end in
  let '(ids, ra, dec, mag) := cut in
  (* 249-250 *)
  let sat_source := np_where (map (λ m, Req_b m sat) mag) in
  (* 252-260 *)
  (match ifs_sat with
   | Some f =>
       let+ ifs_sat_id :=
         io_lift (getitem_where ids
                    (np_where (map (λ m, Rlt_b m f && negb (Req_b m sat)) mag))) in
       write_file (path +:+ "/ifs_sat_id.list")
         (Text ("[" +:+ strcat (map (λ i, str_int i +:+ ",") ifs_sat_id) +:+ "]"))
   | None => io_ret tt
   end) ;+
  (* 262-263 *)
  let name := str_lower filter_name in
  let+ tab := io_lift (Table ids ra dec mag name) in
  (* 265-266 *)
  let+ tab := match mag_sat with
              | Some v =>
                  if String.eqb name EmptyString then io_raise KeyError
                  else io_ret (MkTable (tb_names tab) (tb_id tab) (tb_ra tab) (tb_dec tab)
                                 (setitem_where (tb_mag tab) sat_source v))
              | None => io_ret tab
              end in
  (* 268-269: without a name the path is that of the directory *)
  if String.eqb filter_name EmptyString then io_raise OSError
  else write_file (path +:+ "/" +:+ str_upper filter_name) (AsciiTable tab).

(** The stars given to [pampelmuse_cat] without [idx], one tuple
    (id, ra, dec, mag) for each, numbered from 1. *)
Definition stars (ra dec mag : list R) : list (Z * R * R * R) :=
  zip (zip (zip (map (λ k, (Z.of_nat k + 1)%Z) (seq 0 (length ra))) ra) dec) mag.

Definition within (mag_limit : option R) (s : Z * R * R * R) : bool :=
  match mag_limit with
  | Some lim => Rle_b s.2 lim
  | None => true
  end.

Definition desaturated (sat : R) (mag_sat : option R) (s : Z * R * R * R)
    : Z * R * R * R :=
  match mag_sat with
  | Some v => if Req_b s.2 sat then (s.1, v) else s
  | None => s
  end.

Definition ifs_saturated (sat f : R) (s : Z * R * R * R) : bool :=
  Rlt_b s.2 f && negb (Req_b s.2 sat).

(** The text of the list file for the identifiers [l]. *)
Definition id_list (l : list Z) : file :=
  Text ("[" +:+ strcat (map (λ i, str_int i +:+ ",") l) +:+ "]").

(** [a[mask]] for a boolean array, on arrays of any type: the entries at
    the positions that hold True. *)
Fixpoint select {A} (a : list A) (mask : list bool) : list A :=
  match a, mask with
  | x :: a', b :: mask' => if b then x :: select a' mask' else select a' mask'
  | _, _ => []
  end.

(** The columns of a list of stars. *)
Definition star_id (s : Z * R * R * R) : Z := s.1.1.1.
Definition star_ra (s : Z * R * R * R) : R := s.1.1.2.
Definition star_dec (s : Z * R * R * R) : R := s.1.2.
Definition star_mag (s : Z * R * R * R) : R := s.2.

(** Three stars for the examples: the second carries the value [0] of a
    saturated source, the third is the faintest. *)
Module Field.

Definition ra : list R := [10; 20; 30]%R.
Definition dec : list R := [1; 2; 3]%R.
Definition mag : list R := [5; 0; 7]%R.
Definition nothing : env := Env [] [] [].

End Field.

(** ** FITS headers and HDU lists *)

(** Keywords are compared as astropy does: whatever the case of the
    letters.  A card is kept with its keyword as written, a HIERARCH card
    without that word. *)
Definition same_keyword (a b : string) : bool :=
  String.eqb (str_upper a) (str_upper b).

(** [header[k]] *)
Fixpoint hget (h : list (string * hval)) (k : string) : result hval :=
  match h with
  | [] => Raise KeyError
  | c :: h' => if same_keyword c.1 k then Ok c.2 else hget h' k
  end.

(** [header[k] = v] and [header.set(k, v)]: the first card of that keyword
    takes the value, or a new card is added at the end. *)
Fixpoint hset (h : list (string * hval)) (k : string) (v : hval)
    : list (string * hval) :=
  match h with
  | [] => [(k, v)]
  | c :: h' => if same_keyword c.1 k then (c.1, v) :: h' else c :: hset h' k v
  end.

(** [k in header] *)
Definition hmem (h : list (string * hval)) (k : string) : bool :=
  existsb (λ c, same_keyword c.1 k) h.

(** [v.lower()] for the value of a card. *)
Definition hval_lower (v : hval) : result string :=
  match v with
  | HStr s => Ok (str_lower s)
  | HNum _ => Raise AttributeError
  end.

(** [v != s] for the value of a card and a string. *)
Definition hval_differs (v : hval) (s : string) : bool :=
  match v with
  | HStr s' => negb (String.eqb s' s)
  | HNum _ => true
  end.

(** [fits.open(p)] *)
Definition fits_open (p : string) : IO (list hdu) :=
  let+ c := read_file p in
  match c with
  | Fits hdus => io_ret hdus
  | _ => io_raise OSError
  end.

(** [hdus[i].header[k] = v] *)
Definition set_card (hdus : list hdu) (i : nat) (k : string) (v : hval) : list hdu :=
  match hdus !! i with
  | Some h => <[i := HDU (hset (hdu_header h) k v) (hdu_data h)]> hdus
  | None => hdus
  end.

(** The name of an extension: its EXTNAME in capitals, PRIMARY for the
    first HDU. *)
Definition hdu_named (name : string) (i : nat) (h : hdu) : bool :=
  match hget (hdu_header h) "EXTNAME" with
  | Ok (HStr s) => String.eqb (str_upper s) name
  | _ => false
  end || (String.eqb name "PRIMARY" && Nat.eqb i 0).

(** [hdus.index_of(name)]: the first extension of that name, a KeyError
    when there is none. *)
Fixpoint index_from (i : nat) (hdus : list hdu) (name : string) : result nat :=
  match hdus with
  | [] => Raise KeyError
  | h :: hdus' => if hdu_named name i h then Ok i else index_from (S i) hdus' name
  end.

Definition index_of (hdus : list hdu) (name : string) : result nat :=
  index_from 0 hdus name.

(** [hdus[name].data *= f] *)
Definition scale_data (hdus : list hdu) (name : string) (f : R) : result (list hdu) :=
  rbind (index_of hdus name) (λ i,
  rbind (getitem hdus i) (λ h,
  match hdu_data h with
  | Image px => Ok (<[i := HDU (hdu_header h) (Image (map (λ v, (v * f)%R) px))]> hdus)
  | _ => Raise TypeError
  end)).

(** ** The routines of other packages, for [cubes.py] *)

Record libraries : Type := Libraries {
  (** [np.nanmedian(data[i][1])] for the data of a table extension *)
  prm_parameter : hdata → nat → result R;
  (** the exception of numpy on arithmetic with a character string *)
  not_a_number : exn;
  (** [SkyCoord(ra=, dec=, frame=f).transform_to(g)]: ra and dec in degrees *)
  sky_transform : string → string → hval → hval → result (R * R);
  (** [MUSEpack.utils.ABtoVega(instrument, filter)] *)
  ABtoVega : string → string → result R;
  (** [glob.glob(pattern)], among the files there are *)
  glob : string → list (string * file) → list string;
  (** [sigma_clip(a, sigma=3, cenfunc=np.ma.median)] *)
  sigma_clip3 : list R → result masked_array;
  (** [np.ma.median(a)] of a clipped array that keeps a value; the
      constant [masked] of an array without values is not represented *)
  ma_median : masked_array → R;
  (** [SpectralCube.read(file, hdu=1, format='fits')] *)
  SpectralCube_read : file → result hdu;
  (** [cube.spectral_slab(lo, hi).sum(axis=0).hdu], wavelengths in Angstrom *)
  slab_sum : hdu → R → R → result hdu;
  (** [montage.mosaic(input_dir, output_dir, background_match=True,
      exact_size=True, cleanup=True)] *)
  montage_mosaic : string → string → IO unit
}.

(** A [for] loop over a list. *)
Fixpoint io_for {A} (l : list A) (body : A → IO unit) : IO unit :=
  match l with
  | [] => io_ret tt
  | x :: l' => body x ;+ io_for l' body
  end.

(** [enumerate(l)] *)
Definition enumerate {A} (l : list A) : list (nat * A) := zip (seq 0 (length l)) l.

(** [if os.path.exists(p) == False: os.mkdir(p)] *)
Definition make_dir (p : string) : IO unit :=
  let+ there := os_path_exists p in
  if there then io_ret tt else os_mkdir p.

(** ** The program of [cubes.py] *)

(** [path + '/temp/' + str(idx) + '.fits']: the name under which
    [mosaics] stages its input number [idx]. *)
Definition staged (path : string) (idx : nat) : string :=
  path +:+ "/temp/" +:+ str_int (Z.of_nat idx) +:+ ".fits".

Definition default_wavelengths : list R := [6562.80; 6716.47; 5006.84; 6583.41]%R.
Definition default_elements : list string :=
  ["Ha"; "SII_6716"; "OIII_5007"; "NII_6583"]%string.

Section Cubes.

Variable L : libraries.

(** A header value that enters numpy's arithmetic. *)
Definition number (v : hval) : result R :=
  match v with
  | HNum x => Ok x
  | HStr _ => Raise (not_a_number L)
  end.

(** The header of [sechdr], a name that is bound for cubes of one and of
    three extensions only. *)
Definition sechdr_of (cube : list hdu) (sec : option nat) : result (nat * list (string * hval)) :=
  match sec with
  | Some i => rbind (getitem cube i) (λ h, Ok (i, hdu_header h))
  | None => Raise UnboundLocalError
  end.

(** Lines 164-172 of [wcs_cor] for one spectrum: the magnitudes of the
    catalogue and of MUSE gathered so far, with those of this spectrum
    when it has them. *)
Definition spectrum_mags (aboffset : R) (acc : list hval * list R) (temp_sp : string)
    : IO (list hval * list R) :=
  let+ spec_hdu := fits_open temp_sp in
  let+ spec0 := io_lift (getitem spec_hdu 0) in
  let spec_head := hdu_header spec0 in
  if existsb (String.eqb "SPECTRUM MAG F814W") (map fst spec_head) then
    let+ m := io_lift (hget spec_head "SPECTRUM MAG F814W") in
    let+ m := io_lift (match m with
                       | HNum x => Ok (x + 50 + aboffset)%R
                       | HStr _ => Raise TypeError
                       end) in
    let+ c := io_lift (hget spec_head "STAR MAG") in
    io_ret (acc.1 ++ [c], acc.2 ++ [m])
  else io_ret acc.

Fixpoint gather_mags (aboffset : R) (acc : list hval * list R) (speclist : list string)
    : IO (list hval * list R) :=
  match speclist with
  | [] => io_ret acc
  | temp_sp :: rest =>
      let+ acc := spectrum_mags aboffset acc temp_sp in
      gather_mags aboffset acc rest
  end.

(** [cat_mag - muse_mag], line 174: two Python lists when no spectrum had
    the magnitudes, arrays of one length otherwise. *)
Definition del_mag (cat_mag : list hval) (muse_mag : list R) : result (list R) :=
  match cat_mag with
  | [] => Raise TypeError
  | _ => rbind (rmapM (λ v, match v with
                            | HNum x => Ok x
                            | HStr _ => Raise TypeError
                            end) cat_mag)
               (λ cat, Ok (zip_with Rminus cat muse_mag))
  end.

(** The flux correction of [wcs_cor], lines 157-192: the cube with its
    data and variance scaled; the prm file is written anew or copied. *)
Definition flux_correction (cube prm : list hdu) (input_prm prm_path : string)
    (output_file : option string) (spec_folder spec_path : string)
    : IO (list hdu) :=
  (* 157-162 *)
  let+ aboffset := io_lift (ABtoVega L "ACS" "F814W") in
  let+ speclist :=
    (λ d, (Ok (glob L (spec_path +:+ "/" +:+ spec_folder +:+ "/specid*") (files d)), d)) in
  (* 164-172 *)
  let+ mags := gather_mags aboffset ([], []) speclist in
  (* 174-176 *)
  let+ del := io_lift (del_mag mags.1 mags.2) in
  let+ clippend_del_mag := io_lift (sigma_clip3 L del) in
  let fmultipl := Rpower 10 ((-1) * 0.4 * ma_median L clippend_del_mag) in
  (* 178-181 *)
  print [PStr "The magnitude difference catalog - MUSE [mag]: ";
         PFix2 (ma_median L clippend_del_mag)] ;+
  print [PStr "The flux multiplicator f_catalog / f_MUSE: "; PFix2 fmultipl] ;+
  (* 183-184 *)
  let+ cube := io_lift (scale_data cube "DATA" fmultipl) in
  let+ cube := io_lift (scale_data cube "STAT" (fmultipl ^ 2)) in
  (* 186-192 *)
  match output_file with
  | None =>
      let+ prm0 := io_lift (getitem prm 0) in
      write_file (prm_path +:+ "/" +:+ input_prm +:+ "_cor.prm.fits")
        (Fits (set_card prm 0 "PAMPELMUSE global prefix" (HStr (input_prm +:+ "_cor")))) ;+
      io_ret cube
  | Some out =>
      shutil_copy (prm_path +:+ "/" +:+ input_prm +:+ ".prm.fits")
                  (prm_path +:+ "/" +:+ out +:+ ".prm.fits") ;+
      io_ret cube
  end.

(** [wcs_cor(input_fits, input_prm, path=, prm_path=, output_file=,
    out_frame=, in_frame=, correct_flux=, spec_folder=, spec_path=,
    correctiontype=)], lines 22-197. *)
Definition wcs_cor (input_fits input_prm path prm_path : string)
    (output_file out_frame in_frame : option string) (correct_flux : bool)
    (spec_folder spec_path correctiontype : string) : IO unit :=
  (* 79-83 *)
  let+ cube := fits_open (path +:+ "/" +:+ input_fits +:+ ".fits") in
  let+ prm := fits_open (prm_path +:+ "/" +:+ input_prm +:+ ".prm.fits") in
  print [PStr ("processing observation: " +:+ path +:+ "/" +:+ input_fits +:+ ".fits")] ;+
  print [PStr ("using prm file: " +:+ prm_path +:+ "/" +:+ input_prm +:+ ".prm.fits")] ;+
  (* 85-86 *)
  (if negb (Nat.eqb (length cube) 3) || negb (Nat.eqb (length cube) 1)
   then io_ret tt else io_raise AssertionError) ;+
  (* 88-96 *)
  let+ muse :=
    if Nat.eqb (length cube) 3 then
      let+ pri := io_lift (getitem cube 0) in
      let prihdr := hdu_header pri in
      let+ instrume := io_lift (hget prihdr "INSTRUME") in
      (if hval_differs instrume "MUSE    " then io_ret tt else io_raise AssertionError) ;+
      let+ in_frame :=
        if py_not in_frame
        then let+ v := io_lift (hget prihdr "RADECSYS") in
             let+ s := io_lift (hval_lower v) in io_ret (Some s)
        else io_ret in_frame in
      print [PStr "MUSE cube detected"] ;+
      io_ret (Some 1, in_frame)
    else io_ret (None, in_frame) in
  let '(sec, in_frame) := muse in
  (* 98-106 *)
  let+ single :=
    if Nat.eqb (length cube) 1 then
      print [PStr "No MUSE cube all info in one extension"] ;+
      let+ pri := io_lift (getitem cube 0) in
      let prihdr := hdu_header pri in
      let+ in_frame :=
        if hmem prihdr "RADECSYS"
        then let+ v := io_lift (hget prihdr "RADECSYS") in
             let+ s := io_lift (hval_lower v) in io_ret (Some s)
        else io_ret in_frame in
      (if correct_flux
       then print [PStr "Flux correction currently only supported for MUSE cubes"]
       else io_ret tt) ;+
      io_ret (Some 0, in_frame)
    else io_ret (sec, in_frame) in
  let '(sec, in_frame) := single in
  (* 108 *)
  let+ in_frame := match in_frame with
                   | Some f => io_ret f
                   | None => io_raise AssertionError
                   end in
  (* 110-115 *)
  print [PStr " Input WCS frame: "; PStr in_frame] ;+
  print [PStr "Output WCS frame: "; PStr (default in_frame out_frame)] ;+
  print [PStr EmptyString] ;+
  (* 117-122 *)
  let+ prm4 := io_lift (getitem prm 4) in
  let+ A := io_lift (prm_parameter L (hdu_data prm4) 0) in
  let+ B := io_lift (prm_parameter L (hdu_data prm4) 1) in
  let+ C := io_lift (prm_parameter L (hdu_data prm4) 2) in
  let+ D := io_lift (prm_parameter L (hdu_data prm4) 3) in
  let+ x0 := io_lift (prm_parameter L (hdu_data prm4) 4) in
  let+ y0 := io_lift (prm_parameter L (hdu_data prm4) 5) in
  (* 128-137 *)
  let+ cube :=
    match out_frame with
    | Some out =>
        let+ s := io_lift (sechdr_of cube sec) in
        let+ ref_ra := io_lift (hget s.2 "CRVAL1") in
        let+ ref_dec := io_lift (hget s.2 "CRVAL2") in
        let+ t := io_lift (sky_transform L in_frame out ref_ra ref_dec) in
        io_ret (set_card (set_card (set_card cube s.1 "CRVAL1" (HNum t.1))
                            s.1 "CRVAL2" (HNum t.2))
                  s.1 "RADESYS" (HStr (str_upper out)))
    | None => io_ret cube
    end in
  (* 139-147 *)
  let+ s := io_lift (sechdr_of cube sec) in
  let+ px := io_lift (hget s.2 "CRPIX1") in
  let+ py := io_lift (hget s.2 "CRPIX2") in
  let+ px := io_lift (number px) in
  let+ py := io_lift (number py) in
  let ref_shift_x := (x0 * 1 + 0 * 1 + (A * px + C * py) + 1)%R in
  let ref_shift_y := (0 * 1 + y0 * 1 + (B * px + D * py) + 1)%R in
  let cube := set_card (set_card cube s.1 "CRPIX1" (HNum ref_shift_x))
                s.1 "CRPIX2" (HNum ref_shift_y) in
  (* 149-153 *)
  let cube :=
    if String.eqb correctiontype "full"
    then set_card (set_card (set_card (set_card cube
           s.1 "CD1_1" (HNum ((-1) * A * 0.2 / 3600)))
           s.1 "CD1_2" (HNum (C * 0.2 / 3600)))
           s.1 "CD2_1" (HNum ((-1) * B * 0.2 / 3600)))
           s.1 "CD2_2" (HNum (D * 0.2 / 3600))
    else cube in
  (* 156-192 *)
  let+ cube :=
    if correct_flux && Nat.eqb (length cube) 3
    then flux_correction cube prm input_prm prm_path output_file spec_folder spec_path
    else io_ret cube in
  (* 194-197 *)
  match output_file with
  | None => write_file (path +:+ "/" +:+ input_fits +:+ "_cor.fits") (Fits cube)
  | Some out => write_file (path +:+ "/" +:+ out +:+ ".fits") (Fits cube)
  end.

(** [linemaps(input_fits, path=, elements=, wavelengths=)], lines
    272-311; [elements] and [wavelengths] are lists or None. *)
Definition linemaps (input_fits path : string) (elements : option (list string))
    (wavelengths : option (list R)) : IO unit :=
  (* 294-296 *)
  let '(elements, wavelengths) :=
    match elements with
    | None => (Some default_elements, Some default_wavelengths)
    | Some _ => (elements, wavelengths)
    end in
  (* 298-300 *)
  (match elements, wavelengths with
   | Some _, None =>
       print [PStr "Error: element but no wavelength given"] ;+ io_raise SystemExit
   | _, _ => io_ret tt
   end) ;+
  (* 302-303 *)
  make_dir (path +:+ "temp/") ;+
  (* 305 *)
  let+ f := read_file (path +:+ "/" +:+ input_fits) in
  let+ cube := io_lift (SpectralCube_read L f) in
  (* 306-309 *)
  io_for (zip (default [] wavelengths) (default [] elements)) (λ we,
    let+ slab := io_lift (slab_sum L cube (we.1 - 3) (we.1 + 3)) in
    write_file (path +:+ "/" +:+ we.2 +:+ ".fits") (Fits [slab])) ;+
  (* 311 *)
  shutil_rmtree (path +:+ "temp/").

(** Lines 333-339 of [mosaics]: the scratch directories and the copies of
    the input files. *)
Definition mosaics_stage (input_list : list string) (path : string) : IO unit :=
  make_dir (path +:+ "/temp/") ;+
  make_dir (path +:+ "/mosaics/") ;+
  io_for (enumerate input_list) (λ f, shutil_copy f.2 (staged path f.1)).

(** [mosaics(input_list, name, path=)], lines 314-349. *)
Definition mosaics (input_list : list string) (name path : string) : IO unit :=
  (* 333-336 *)
  make_dir (path +:+ "/temp/") ;+
  make_dir (path +:+ "/mosaics/") ;+
  (* 338-339 *)
  io_for (enumerate input_list) (λ f, shutil_copy f.2 (staged path f.1)) ;+
  (* 341-342 *)
  montage_mosaic L (path +:+ "/temp/") (path +:+ "/mosaic_temp/") ;+
  (* 343-347 *)
  shutil_copy (path +:+ "/mosaic_temp/mosaic_area.fits")
              (path +:+ "/mosaics/exp_" +:+ name +:+ ".fits") ;+
  shutil_copy (path +:+ "/mosaic_temp/mosaic.fits")
              (path +:+ "/mosaics/" +:+ name +:+ ".fits") ;+
  (* 348-349 *)
  shutil_rmtree (path +:+ "/mosaic_temp/") ;+
  shutil_rmtree (path +:+ "/temp/").

End Cubes.

(** The lines [linemaps] works on: wavelength and element name, pair by
    pair. *)
Definition line_list (elements : option (list string)) (wavelengths : option (list R))
    : list (R * string) :=
  match elements with
  | None => zip default_wavelengths default_elements
  | Some es => zip (default [] wavelengths) es
  end.

(** The libraries and files of the examples: a cube file of one extension
    is read as that extension, a slab is the extension with the two
    bounds as its pixels, and montage leaves its two files. *)
Module Desk.

Definition ext (name : string) (px : list R) : hdu :=
  HDU [("EXTNAME", HStr name)]%string (Image px).

Definition libs : libraries :=
  Libraries (λ _ i, Ok (INR i)) TypeError (λ _ _ _ _, Ok (0, 0)%R)
    (λ _ _, Ok 0%R) (λ _ fs, map fst fs) (λ a, Ok (MaskedArray a (map (λ _, false) a)))
    (λ m, default 0%R (ma_data m !! 0))
    (λ f, match f with Fits (h :: _) => Ok h | _ => Raise OSError end)
    (λ h lo hi, Ok (HDU (hdu_header h) (Image [lo; hi])))
    (λ i o d, (Ok tt,
       Env ((o +:+ "mosaic.fits", Fits [ext "MOSAIC" []])
            :: (o +:+ "mosaic_area.fits", Fits [ext "AREA" []]) :: files d)
           (o :: dirs d) (stdout d))).

Definition cube_file : file := Fits [ext "DATA" [1; 2]%R].

(** A directory [/obs] with a cube, and a file left in [/obstemp/]. *)
Definition obs : env :=
  Env [("/obs/cube.fits", cube_file); ("/obstemp/notes", Text "keep")]%string
      ["/obs/"; "/obstemp/"]%string [].

(** A directory [/maps] with two line maps, and a file left in its
    scratch directory by an earlier call. *)
Definition maps : env :=
  Env [("/maps/a.fits", Fits [ext "A" [1]%R]); ("/maps/b.fits", Fits [ext "B" [2]%R]);
       ("/maps/temp/9.fits", Fits [ext "OLD" []])]%string
      ["/maps/"; "/maps/temp/"]%string [].

(** A directory [/sky]: a cube of one extension with its prm file, a
    file of two extensions, and a MUSE cube with one extracted spectrum. *)
Definition one : hdu :=
  HDU [("RADECSYS", HStr "FK5"); ("CRPIX1", HNum 10); ("CRPIX2", HNum 20)]%string
      (Image [1; 2]%R).

Definition prm : list hdu :=
  [ext "P0" []; ext "P1" []; ext "P2" []; ext "P3" []; ext "P4" []].

Definition muse : list hdu :=
  [HDU [("INSTRUME", HStr "MUSE")]%string NoData; ext "DATA" [1; 2]%R;
   ext "STAT" [3; 4]%R].

Definition sky : env :=
  Env [("/sky/one.fits", Fits [one]); ("/sky/one.prm.fits", Fits prm);
       ("/sky/two.fits", Fits [one; one])]%string [] [].

Definition spectra : env :=
  Env [("/sky/stars/specid1",
        Fits [HDU [("SPECTRUM MAG F814W", HNum 1); ("STAR MAG", HNum 2)]%string NoData])]
      %string [] [].

End Desk.

Ltac run_io :=
  cbv -[Rplus Rmult Rminus Rdiv Ropp Rinv IZR INR exp Rlt Rle pow sqrt Rpower ln].
(** * Properties *)

(** ** Results *)

Lemma rmapM_Ok {A B} (f : A → result B) (l : list A) (bs : list B) :
  rmapM f l = Ok bs ↔ Forall2 (λ a b, f a = Ok b) l bs.
Proof.
  revert bs. induction l as [|a l IH]; intros bs; simpl.
  - split; [intros [= <-]; constructor | by inversion 1].
  - split.
    + destruct (f a) as [b|e] eqn:Hfa; simpl; [|done].
      destruct (rmapM f l) as [bs'|e] eqn:Hl; simpl; [|done].
      intros [= <-]. constructor; [done|]. by apply IH.
    + inversion 1 as [|? b ? bs' Hfa Hrest]; subst.
      rewrite Hfa. simpl. apply IH in Hrest. by rewrite Hrest.
Qed.

Lemma rmapM_Raise {A B} (f : A → result B) (l : list A) (e : exn) :
  rmapM f l = Raise e → ∃ a, a ∈ l ∧ f a = Raise e.
Proof.
  induction l as [|a l IH]; simpl; [done|].
  destruct (f a) as [b|e'] eqn:Hfa; simpl.
  - destruct (rmapM f l) as [bs'|e'] eqn:Hl; simpl; [done|].
    intros [= ->]. destruct IH as (a' & Hin & Ha'); [done|].
    exists a'. split; [by right | done].
  - intros [= ->]. exists a. split; [by left | done].
Qed.

(** ** Indexing *)

Lemma np_index_Ok n i j : np_index n i = Ok j → j < n ∧ in_range n i.
Proof.
  unfold np_index, in_range.
  destruct (0 <=? i)%Z eqn:H0.
  - destruct (i <? Z.of_nat n)%Z eqn:H1; [|done]. intros [= <-]. lia.
  - destruct (- Z.of_nat n <=? i)%Z eqn:H1; [|done]. intros [= <-]. lia.
Qed.

Lemma np_index_Raise n i e : np_index n i = Raise e → e = IndexError ∧ ¬ in_range n i.
Proof.
  unfold np_index, in_range.
  destruct (0 <=? i)%Z eqn:H0.
  - destruct (i <? Z.of_nat n)%Z eqn:H1; [done|]. intros [= <-]. split; [done|lia].
  - destruct (- Z.of_nat n <=? i)%Z eqn:H1; [done|]. intros [= <-]. split; [done|lia].
Qed.

Lemma getitem_Ok {A} (a : list A) k x : getitem a k = Ok x ↔ a !! k = Some x.
Proof. unfold getitem. destruct (a !! k); split; congruence. Qed.

Lemma getitem_lt {A} (a : list A) k : k < length a → ∃ x, getitem a k = Ok x.
Proof.
  intros H. destruct (lookup_lt_is_Some_2 a k H) as [x Hx].
  exists x. by apply getitem_Ok.
Qed.

Lemma np_index_norm n i : in_range n i → np_index n i = Ok (norm n i).
Proof.
  unfold np_index, norm, in_range. intros H.
  destruct (0 <=? i)%Z eqn:H0.
  - destruct (i <? Z.of_nat n)%Z eqn:H1; [done|lia].
  - destruct (- Z.of_nat n <=? i)%Z eqn:H1; [done|lia].
Qed.

Lemma norm_lt n i : in_range n i → norm n i < n.
Proof. unfold norm, in_range. destruct (0 <=? i)%Z eqn:H0; lia. Qed.

Lemma rmapM_ext_in {A B} (f g : A → result B) (l : list A) :
  (∀ a, a ∈ l → f a = g a) → rmapM f l = rmapM g l.
Proof.
  induction l as [|a l IH]; intros H; simpl; [done|].
  rewrite (H a) by (by left). rewrite IH; [done|].
  intros a' Ha'. apply H. by right.
Qed.

Lemma rmapM_total {A B} (f : A → B) (l : list A) :
  rmapM (λ a, Ok (f a)) l = Ok (map f l).
Proof. induction l as [|a l IH]; simpl; [done|]. by rewrite IH. Qed.

Lemma np_indices_Ok n (idx : list Z) :
  Forall (in_range n) idx → rmapM (np_index n) idx = Ok (map (norm n) idx).
Proof.
  intros H. rewrite <- rmapM_total. apply rmapM_ext_in.
  intros i Hi. apply np_index_norm. by eapply Forall_forall in H.
Qed.

Lemma getitem_fancy_Ok (a : list R) (idx : list Z) :
  Forall (in_range (length a)) idx →
  getitem_fancy a idx = Ok (map (λ i, default 0%R (a !! norm (length a) i)) idx).
Proof.
  intros H. unfold getitem_fancy. rewrite <- rmapM_total. apply rmapM_ext_in.
  intros i Hi. rewrite np_index_norm by (by eapply Forall_forall in H). simpl.
  assert (norm (length a) i < length a) as Hlt
    by (apply norm_lt; by eapply Forall_forall in H).
  destruct (lookup_lt_is_Some_2 a _ Hlt) as [x Hx].
  unfold getitem. by rewrite Hx.
Qed.

Lemma getitem_fancy_Raise (a : list R) (idx : list Z) e :
  getitem_fancy a idx = Raise e → e = IndexError ∧ ¬ Forall (in_range (length a)) idx.
Proof.
  intros H. apply rmapM_Raise in H as (i & Hin & Hi).
  destruct (np_index (length a) i) as [j|e'] eqn:Hj; simpl in Hi.
  - apply np_index_Ok in Hj as [Hlt _].
    destruct (getitem_lt a j Hlt) as [x Hx]. congruence.
  - injection Hi as ->. apply np_index_Raise in Hj as [-> Hn].
    split; [done|]. intros HF. apply Hn. by eapply Forall_forall in HF.
Qed.

Lemma setitem_fancy_Ok (a : list R) (idx : list Z) (vals : list R) :
  Forall (in_range (length a)) idx →
  setitem_fancy a idx vals =
    Ok (foldl (λ acc jv, <[jv.1 := jv.2]> acc) a (zip (map (norm (length a)) idx) vals)).
Proof. intros H. unfold setitem_fancy. by rewrite np_indices_Ok. Qed.

Lemma foldl_insert_length (a : list R) (jvs : list (nat * R)) :
  length (foldl (λ acc jv, <[jv.1 := jv.2]> acc) a jvs) = length a.
Proof.
  revert a. induction jvs as [|jv jvs IH]; intros a; simpl; [done|].
  by rewrite IH, length_insert.
Qed.

Lemma foldl_insert_other (a : list R) (jvs : list (nat * R)) (j : nat) :
  (∀ jv, jv ∈ jvs → jv.1 ≠ j) →
  foldl (λ acc jv, <[jv.1 := jv.2]> acc) a jvs !! j = a !! j.
Proof.
  revert a. induction jvs as [|jv jvs IH]; intros a H; simpl; [done|].
  rewrite IH by (intros jv' Hjv'; apply H; by right).
  apply list_lookup_insert_ne. apply H. by left.
Qed.

Lemma foldl_insert_written (a : list R) (jvs : list (nat * R)) (j : nat) :
  j < length a →
  (∃ jv, jv ∈ jvs ∧ jv.1 = j) →
  ∃ k v, jvs !! k = Some (j, v) ∧
         foldl (λ acc jv, <[jv.1 := jv.2]> acc) a jvs !! j = Some v.
Proof.
  intros Hj. induction jvs as [|[j0 v0] jvs IH] using rev_ind.
  - intros (jv & Hin & _). by apply elem_of_nil in Hin.
  - intros (jv & Hin & Hjv). rewrite foldl_app. simpl.
    destruct (decide (j0 = j)) as [->|Hne].
    + exists (length jvs), v0. split.
      * by rewrite lookup_app_r, Nat.sub_diag by lia.
      * apply list_lookup_insert_eq. by rewrite foldl_insert_length.
    + apply elem_of_app in Hin as [Hin|Hin].
      * destruct IH as (k & v & Hk & Hv); [by exists jv|].
        exists k, v. split.
        -- rewrite lookup_app_l; [done|]. by eapply lookup_lt_Some.
        -- by rewrite list_lookup_insert_ne.
      * apply list_elem_of_singleton in Hin. subst jv. simpl in Hjv. done.
Qed.

(** ** One bootstrap trial *)

Lemma lookup_snoc_old {A} (h : list A) (x : A) (l : nat) :
  l < length h → (h ++ [x]) !! l = h !! l.
Proof. intros H. by rewrite lookup_app_l. Qed.

Lemma lookup_snoc_new {A} (h : list A) (x : A) : (h ++ [x]) !! length h = Some x.
Proof. by rewrite lookup_app_r, Nat.sub_diag by lia. Qed.

Lemma insert_snoc {A} (h : list A) (x y : A) : <[length h := y]> (h ++ [x]) = h ++ [y].
Proof. by rewrite insert_app_r_alt, Nat.sub_diag by lia. Qed.

Section Trial.

Variable E : externals.

Lemma bootstrap_run_Ok (a : star_arg) (w : world) (new : list R) :
  arg_valid w a →
  perturbed (read w (sa_log_spec_f a)) (read w (sa_log_spec_err a))
            (sa_goodpixels a)
            (map (normals w) (seq 0 (length (sa_goodpixels a)))) = Ok new →
  starred E a w =
    (rbind (ppxf E (trial_call w a new)) (moments_of (sa_moments a)),
     World (heap w ++ [new])
           (λ k, normals w (length (sa_goodpixels a) + k))
           (λ k, uniforms w (S k))
           (trace w ++ [PpxfCall (trial_call w a new)])).
Proof.
  intros (Ht & Hs & He & Hn) Hp.
  unfold starred, _ppxf_bootstrap, trial_call, call_with, perturbed in *.
  destruct a as [tpl spec err vs deg gp g m vsyst nz V].
  destruct w as [h tn tu tr]. simpl in *.
  destruct (getitem_fancy (read (World h tn tu tr) spec) gp) as [flux|e] eqn:Hflux;
    simpl in Hp; [|done].
  destruct (getitem_fancy (read (World h tn tu tr) err) gp) as [sd|e] eqn:Hsd;
    simpl in Hp; [|done].
  unfold bind, ndarray_copy, load, alloc, lift, np_random_normal, store, emit,
    np_random_uniform, read, var_guesses_of in *; simpl in *.
  rewrite !lookup_snoc_new; simpl. rewrite Hflux; simpl.
  rewrite !lookup_snoc_old by done. rewrite Hsd; simpl. rewrite Hp; simpl.
  rewrite insert_snoc. rewrite !lookup_snoc_new; simpl.
  rewrite !lookup_snoc_old by done.
  destruct (ppxf E _) as [sol|e]; simpl; [|done].
  unfold moments_of, ret. destruct (m <=? 2)%Z;
    repeat (match goal with |- context [getitem sol ?k] =>
              destruct (getitem sol k); simpl; try done end).
Qed.

End Trial.

(** ** The perturbed copy *)

Lemma gather_ok_cases (spec err : list R) (gp : list Z) :
  gather_ok spec err gp ∨ ¬ gather_ok spec err gp.
Proof.
  assert (∀ n i, Decision (in_range n i)) as Hdec
    by (intros n i; unfold in_range; apply _).
  unfold gather_ok.
  destruct (decide (Forall (in_range (length spec)) gp)) as [H1|H1];
    destruct (decide (Forall (in_range (length err)) gp)) as [H2|H2]; tauto.
Qed.

Lemma lookup_map {A B} (f : A → B) (l : list A) (k : nat) :
  map f l !! k = f <$> (l !! k).
Proof.
  revert k. induction l as [|x l IH]; intros [|k]; simpl; auto.
Qed.

Lemma length_zip_with3 (flux z sd : list R) n :
  length flux = n → length z = n → length sd = n →
  length (zip_with Rplus flux (zip_with Rmult z sd)) = n.
Proof. intros. rewrite !length_zip_with. lia. Qed.

Lemma perturbed_Raise spec err gp z e :
  perturbed spec err gp z = Raise e → e = IndexError ∧ ¬ gather_ok spec err gp.
Proof.
  unfold perturbed, gather_ok.
  destruct (getitem_fancy spec gp) as [flux|e1] eqn:Hflux; simpl.
  - destruct (getitem_fancy err gp) as [sd|e2] eqn:Hsd; simpl.
    + unfold setitem_fancy.
      destruct (rmapM (np_index (length spec)) gp) as [js|e3] eqn:Hjs; simpl; [done|].
      intros [= ->]. apply rmapM_Raise in Hjs as (i & Hin & Hi).
      apply np_index_Raise in Hi as [-> Hn]. split; [done|].
      intros [HF _]. apply Hn. by eapply Forall_forall in HF.
    + intros [= ->]. apply getitem_fancy_Raise in Hsd as [-> Hn]. split; [done|]. by intros [_ ?].
  - intros [= ->]. apply getitem_fancy_Raise in Hflux as [-> Hn]. split; [done|]. by intros [? _].
Qed.

Lemma perturbed_fails spec err gp z :
  ¬ gather_ok spec err gp → perturbed spec err gp z = Raise IndexError.
Proof.
  intros Hn. destruct (perturbed spec err gp z) as [new|e] eqn:Hp.
  - exfalso. apply Hn. unfold perturbed in Hp.
    destruct (getitem_fancy spec gp) as [flux|e1] eqn:Hflux; simpl in Hp; [|done].
    destruct (getitem_fancy err gp) as [sd|e2] eqn:Hsd; simpl in Hp; [|done].
    split.
    + apply Forall_forall. intros i Hi.
      apply rmapM_Ok in Hflux.
      apply list_elem_of_lookup in Hi as [k Hk].
      eapply Forall2_lookup_l in Hflux as (x & _ & Hx); [|done].
      destruct (np_index (length spec) i) as [j|] eqn:Hj; [|done].
      by apply np_index_Ok in Hj as [_ ?].
    + apply Forall_forall. intros i Hi.
      apply rmapM_Ok in Hsd.
      apply list_elem_of_lookup in Hi as [k Hk].
      eapply Forall2_lookup_l in Hsd as (x & _ & Hx); [|done].
      destruct (np_index (length err) i) as [j|] eqn:Hj; [|done].
      by apply np_index_Ok in Hj as [_ ?].
  - by apply perturbed_Raise in Hp as [-> _].
Qed.

(** What lines 228-231 do to the copy: it keeps its length; a pixel no
    index of the mask denotes keeps its value; a pixel the mask denotes
    becomes its value plus one draw times the error at the same index, the
    draw being the one at the (last) place of the pixel in the mask. *)
Lemma perturbed_spec spec err gp z :
  gather_ok spec err gp → length z = length gp →
  ∃ new, perturbed spec err gp z = Ok new ∧ length new = length spec ∧
    (∀ j, (∀ i, i ∈ gp → norm (length spec) i ≠ j) → new !! j = spec !! j) ∧
    (∀ j, (∃ i, i ∈ gp ∧ norm (length spec) i = j) →
       ∃ k i x d s, gp !! k = Some i ∧ norm (length spec) i = j ∧
         spec !! j = Some x ∧ z !! k = Some d ∧
         err !! norm (length err) i = Some s ∧
         new !! j = Some (x + d * s)%R).
Proof.
  intros [Hs He] Hz. unfold perturbed.
  rewrite (getitem_fancy_Ok spec gp Hs), (getitem_fancy_Ok err gp He). simpl.
  rewrite (setitem_fancy_Ok _ _ _ Hs).
  eexists; split; [done|]. split; [apply foldl_insert_length|]. split.
  - intros j Hj. apply foldl_insert_other. intros [j' v] Hin. simpl.
    apply list_elem_of_lookup in Hin as [k Hk].
    apply lookup_zip_with_Some in Hk as (j'' & v' & [= <- <-] & Hj'' & _).
    rewrite lookup_map in Hj''. destruct (gp !! k) as [i|] eqn:Hi; [|done].
    injection Hj'' as <-. apply Hj. apply list_elem_of_lookup. by exists k.
  - intros j (i & Hin & Hij).
    assert (j < length spec) as Hlt.
    { subst j. apply norm_lt. by eapply Forall_forall in Hs. }
    edestruct (foldl_insert_written spec) as (k & v & Hk & Hv); [exact Hlt| |].
    + apply list_elem_of_lookup in Hin as [k Hk].
      assert (k < length gp) as Hkl by (by eapply lookup_lt_Some).
      destruct (lookup_lt_is_Some_2
        (zip (map (norm (length spec)) gp)
           (zip_with Rplus (map (λ i, default 0%R (spec !! norm (length spec) i)) gp)
              (zip_with Rmult z (map (λ i, default 0%R (err !! norm (length err) i)) gp)))) k)
        as [[j' v] Hjv].
      { rewrite length_zip_with, length_map.
        rewrite (length_zip_with3 _ _ _ (length gp)); rewrite ?length_map; lia. }
      exists (j', v). split; [apply list_elem_of_lookup; by exists k|]. simpl.
      apply lookup_zip_with_Some in Hjv as (j'' & v' & [= <- <-] & Hj'' & _).
      rewrite lookup_map, Hk in Hj''. by injection Hj'' as <-.
    + apply lookup_zip_with_Some in Hk as (j' & v' & [= <- <-] & Hj' & Hv').
      rewrite lookup_map in Hj'. destruct (gp !! k) as [i'|] eqn:Hi'; [|done].
      injection Hj' as Hj'.
      apply lookup_zip_with_Some in Hv' as (x & y & -> & Hx & Hy).
      apply lookup_zip_with_Some in Hy as (d & s & -> & Hd & Hs').
      rewrite lookup_map, Hi' in Hx. injection Hx as <-.
      rewrite lookup_map, Hi' in Hs'. injection Hs' as <-.
      assert (norm (length err) i' < length err) as Hlt'.
      { apply norm_lt. eapply Forall_forall in He; [done|].
        apply list_elem_of_lookup. by exists k. }
      destruct (lookup_lt_is_Some_2 spec j Hlt) as [x Hx].
      destruct (lookup_lt_is_Some_2 err _ Hlt') as [s Hs'].
      exists k, i', x, d, s. rewrite Hj', Hx, Hs' in *. simpl in Hv. done.
Qed.

Lemma getitem_fancy_inv (a : list R) (idx : list Z) (v : list R) :
  getitem_fancy a idx = Ok v → Forall (in_range (length a)) idx.
Proof.
  intros H. apply rmapM_Ok in H. apply Forall_forall. intros i Hi.
  apply list_elem_of_lookup in Hi as [k Hk].
  eapply Forall2_lookup_l in H as (x & _ & Hx); [|done].
  destruct (np_index (length a) i) as [j|] eqn:Hj; [|done].
  by apply np_index_Ok in Hj as [_ ?].
Qed.

(** ** The batch of trials *)

Lemma read_prefix (w0 w : world) (l : loc) :
  heap w0 `prefix_of` heap w → l < length (heap w0) → read w l = read w0 l.
Proof.
  intros [extra Hx] Hl. unfold read. by rewrite Hx, lookup_app_l.
Qed.

Lemma arg_valid_prefix (w0 w : world) (a : star_arg) :
  heap w0 `prefix_of` heap w → arg_valid w0 a → arg_valid w a.
Proof.
  intros Hp (?&?&?&?). apply prefix_length in Hp. unfold arg_valid. lia.
Qed.

Section Batch.

Variable E : externals.

Lemma bootstrap_run_Raise (a : star_arg) (w : world) :
  arg_valid w a →
  ¬ gather_ok (read w (sa_log_spec_f a)) (read w (sa_log_spec_err a))
              (sa_goodpixels a) →
  ∃ nz, starred E a w =
          (Raise IndexError,
           World (heap w ++ [read w (sa_log_spec_f a)]) nz (uniforms w) (trace w)).
Proof.
  intros (Ht & Hs & He & Hn) Hg.
  unfold starred, _ppxf_bootstrap.
  destruct a as [tpl spec err vs deg gp g m vsyst nz V].
  destruct w as [h tn tu tr]. simpl in *.
  unfold bind, ndarray_copy, load, alloc, lift, np_random_normal, read in *; simpl in *.
  rewrite !lookup_snoc_new; simpl.
  destruct (getitem_fancy (default [] (h !! spec)) gp) as [flux|e] eqn:Hflux; simpl.
  - rewrite !lookup_snoc_old by done.
    destruct (getitem_fancy (default [] (h !! err)) gp) as [sd|e] eqn:Hsd; simpl.
    + exfalso. apply Hg. split; by eapply getitem_fancy_inv.
    + apply getitem_fancy_Raise in Hsd as [-> _]. by eexists.
  - apply getitem_fancy_Raise in Hflux as [-> _]. by eexists.
Qed.

Lemma emit_then {A} (ev : event) (m : M A) (w : world) :
  (emit ev ;;; m) w =
  m (World (heap w) (normals w) (uniforms w) (trace w ++ [ev])).
Proof. by destruct w. Qed.

(** A chunk of trials on arrays the mask fits: the trials reach the fitter
    one after the other; the chunk ends with the first answer that is an
    exception. *)
Lemma starmapstar_ok (a : star_arg) (w0 : world) :
  arg_valid w0 a →
  gather_ok (read w0 (sa_log_spec_f a)) (read w0 (sa_log_spec_err a))
            (sa_goodpixels a) →
  ∀ n k w, heap w0 `prefix_of` heap w →
    ∃ cs w',
      starmapstar (starred E) k (replicate n a) w =
        (rmapM (trial_answer E (sa_moments a)) cs, w') ∧
      length cs ≤ n ∧ (0 < n → cs ≠ []) ∧ Forall (is_trial_call w0 a) cs ∧
      trace w' = trace w ++ batch_log k cs.
Proof.
  intros Hv Hg n. induction n as [|n IH]; intros k w Hp.
  - exists [], w. simpl. rewrite app_nil_r. repeat split; [lia|lia|constructor].
  - cbn [replicate starmapstar]. rewrite emit_then.
    set (wk := World (heap w) (normals w) (uniforms w) (trace w ++ [Task k])).
    assert (Hvk : arg_valid wk a) by (by apply (arg_valid_prefix w0)).
    destruct Hv as (Ht & Hs & He & Hn).
    destruct (perturbed_spec _ _ _ (map (normals wk) (seq 0 (length (sa_goodpixels a)))) Hg)
      as (new & Hnew & _); [by rewrite length_map, length_seq|].
    unfold bind at 1.
    rewrite (bootstrap_run_Ok E a wk new Hvk)
      by (by rewrite !(read_prefix w0 wk)).
    assert (Hc : is_trial_call w0 a (trial_call wk a new)).
    { exists (map (normals wk) (seq 0 (length (sa_goodpixels a)))), (uniforms wk 0).
      simpl. split; [by rewrite length_map, length_seq|].
      unfold trial_call. by rewrite !(read_prefix w0 wk) by done. }
    fold (trial_answer E (sa_moments a) (trial_call wk a new)).
    destruct (trial_answer E (sa_moments a) (trial_call wk a new)) as [row|e] eqn:Hrow.
    + match goal with |- context [bind _ _ ?w1] => set (w1' := w1) end.
      destruct (IH (S k) w1') as (cs & w' & Hrun & Hlen & _ & Hcs & Htr).
      { subst w1' wk. simpl. by apply prefix_app_r. }
      unfold bind. rewrite Hrun.
      exists (trial_call wk a new :: cs).
      cbn [rmapM]. rewrite Hrow. cbn [rbind].
      destruct (rmapM _ cs) as [rows|e]; cbn [rbind ret]; eexists;
        (split; [reflexivity|]); (split; [simpl; lia|]); (split; [done|]);
        (split; [by constructor|]);
        rewrite Htr; subst w1' wk; simpl; by rewrite <- !app_assoc.
    + eexists [trial_call wk a new], _. cbn [rmapM]. rewrite Hrow. cbn [rbind].
      split; [reflexivity|]. split; [simpl; lia|]. split; [done|].
      split; [by repeat constructor|].
      subst wk. simpl. by rewrite <- !app_assoc.
Qed.

(** A chunk of trials on arrays the mask does not fit: the first trial
    fails at its indexing, and that was the chunk. *)
Lemma starmapstar_fail (a : star_arg) (w0 : world) :
  arg_valid w0 a →
  ¬ gather_ok (read w0 (sa_log_spec_f a)) (read w0 (sa_log_spec_err a))
              (sa_goodpixels a) →
  ∀ n k w, heap w0 `prefix_of` heap w →
    ∃ w',
      starmapstar (starred E) k (replicate (S n) a) w = (Raise IndexError, w') ∧
      trace w' = trace w ++ [Task k].
Proof.
  intros Hv Hg n k w Hp.
  cbn [replicate starmapstar]. rewrite emit_then.
  set (wk := World (heap w) (normals w) (uniforms w) (trace w ++ [Task k])).
  assert (Hvk : arg_valid wk a) by (by apply (arg_valid_prefix w0)).
  destruct Hv as (Ht & Hs & He & Hn).
  destruct (bootstrap_run_Raise a wk Hvk) as [nz Hrun].
  { by rewrite !(read_prefix w0 wk). }
  unfold bind at 1. rewrite Hrun. by eexists.
Qed.

End Batch.

(** ** Chunks *)

Lemma chunksize_pos (n : nat) (processes : Z) :
  0 < n → (1 ≤ processes)%Z → 0 < chunksize n processes.
Proof.
  intros Hn Hp. unfold chunksize.
  set (d := 4 * Z.to_nat processes).
  destruct (n mod d =? 0) eqn:Hm; [|lia].
  apply Nat.eqb_eq in Hm. pose proof (Nat.div_mod_eq n d) as Hd.
  rewrite Hm in Hd. destruct (n / d); [|lia].
  rewrite Nat.mul_0_r in Hd. lia.
Qed.

(** The chunks of [n] times the same tuple hold that tuple, each at least
    once. *)
Lemma slices_replicate {A} (a : A) (fuel size n : nat) :
  Forall (λ c, ∃ m, c = replicate (S m) a) (slices fuel size (replicate n a)).
Proof.
  revert n. induction fuel as [|fuel IH]; intros n; simpl; [constructor|].
  rewrite take_replicate, drop_replicate.
  destruct (size `min` n) as [|m]; simpl; [constructor|].
  constructor; [by exists m|]. apply IH.
Qed.

Lemma slices_nonempty {A} (a : A) (fuel size n : nat) :
  0 < size → 0 < n → slices (S fuel) size (replicate n a) ≠ [].
Proof.
  intros Hs Hn. simpl. rewrite take_replicate.
  destruct (size `min` n) as [|m] eqn:Hm; [lia|done].
Qed.

Lemma get_tasks_trials {A} (a : A) (nrand ncpu : Z) :
  let args := replicate (Z.to_nat nrand) a in
  let chunks := get_tasks (chunksize (length args) ncpu) args in
  Forall (λ c, ∃ m, c = replicate (S m) a) chunks ∧
  ((1 ≤ nrand)%Z → (1 ≤ ncpu)%Z → chunks ≠ []) ∧
  ((nrand ≤ 0)%Z → chunks = []).
Proof.
  intros args chunks. subst args chunks. unfold get_tasks.
  rewrite length_replicate. split; [apply slices_replicate|]. split.
  - intros Hn Hc. destruct (Z.to_nat nrand) as [|n] eqn:Hk; [lia|].
    apply slices_nonempty; [|lia]. apply chunksize_pos; [lia|done].
  - intros Hn. by replace (Z.to_nat nrand) with 0 by lia.
Qed.

(** ** What a map returns *)

Lemma failures_elem {B} (rs : list (result B)) (i j : nat) (e : exn) :
  (j, e) ∈ failures i rs → Raise e ∈ rs.
Proof.
  revert i. induction rs as [|[b|e'] rs IH]; intros i Hin; simpl in Hin.
  - by apply elem_of_nil in Hin.
  - right. by eapply IH.
  - apply elem_of_cons in Hin as [[= _ ->]|Hin]; [by left|]. right. by eapply IH.
Qed.

Lemma map_result_Raise {B} (E : externals) (processes : Z)
    (rs : list (result (list B))) (e : exn) :
  map_result E processes rs = Raise e → Raise e ∈ rs.
Proof.
  unfold map_result. destruct (rmapM _ rs) as [ls|e0] eqn:Hrs; [done|].
  intros [= <-].
  match goal with |- context [failures 0 rs !! ?j] =>
    destruct (failures 0 rs !! j) as [[i e1]|] eqn:Hj end; simpl.
  - eapply failures_elem, list_elem_of_lookup_2, Hj.
  - apply rmapM_Raise in Hrs as (r & Hin & ->). done.
Qed.

Lemma map_result_fails {B} (E : externals) (processes : Z)
    (rs : list (result (list B))) (e : exn) :
  Raise e ∈ rs → ∃ e', map_result E processes rs = Raise e'.
Proof.
  intros Hin. unfold map_result.
  destruct (rmapM _ rs) as [ls|e0] eqn:Hrs; [|by eexists].
  apply rmapM_Ok in Hrs. apply list_elem_of_lookup in Hin as [k Hk].
  eapply Forall2_lookup_l in Hrs as (l & _ & Hl); [|done]. done.
Qed.

Lemma map_result_all {B} (E : externals) (processes : Z)
    (rs : list (result (list B))) (e : exn) :
  rs ≠ [] → Forall (λ r, r = Raise e) rs → map_result E processes rs = Raise e.
Proof.
  intros Hne Hall.
  destruct rs as [|r rs]; [done|].
  destruct (map_result_fails E processes (r :: rs) e) as [e' He'].
  { inversion Hall; subst. by left. }
  rewrite He'. apply map_result_Raise in He'.
  eapply Forall_forall in Hall; [|exact He']. by injection Hall as ->.
Qed.

(** ** The log *)

Lemma elem_of_batch_log (c : ppxf_call) (k : nat) (cs : list ppxf_call) :
  PpxfCall c ∈ batch_log k cs ↔ c ∈ cs.
Proof.
  revert k. induction cs as [|c' cs IH]; intros k; simpl.
  - split; intros H; by apply elem_of_nil in H.
  - rewrite !elem_of_cons, IH. split.
    + intros [?|[[= ->]|?]]; [done|by left|by right].
    + intros [->|?]; [right; by left|right; by right].
Qed.

Lemma log_since_app (w w' : world) (evs : list event) :
  trace w' = trace w ++ evs → log_since w w' = evs.
Proof. intros H. unfold log_since. by rewrite H, drop_app_length. Qed.

Section Chunks.

Variable E : externals.

(** The chunks of a map of trials on arrays the mask fits. *)
Lemma run_chunks_ok (a : star_arg) (w0 : world) :
  arg_valid w0 a →
  gather_ok (read w0 (sa_log_spec_f a)) (read w0 (sa_log_spec_err a))
            (sa_goodpixels a) →
  ∀ chunks i k tr,
    Forall (λ c, ∃ m, c = replicate (S m) a) chunks →
    ∃ css evs,
      run_chunks E (starred E) w0 i k chunks tr =
        (map (rmapM (trial_answer E (sa_moments a))) css, tr ++ evs) ∧
      Forall (Forall (is_trial_call w0 a)) css ∧
      (∀ c, PpxfCall c ∈ evs ↔ ∃ cs, cs ∈ css ∧ c ∈ cs) ∧
      (∀ p, Plt p ∉ evs) ∧
      (chunks ≠ [] → Task k ∈ evs ∧ ∃ c, PpxfCall c ∈ evs).
Proof.
  intros Hv Hg chunks. induction chunks as [|ch chunks IH]; intros i k tr Hall.
  - exists [], []. simpl. rewrite app_nil_r. split; [done|]. split; [constructor|].
    split; [|split; [|done]].
    + intros c. split; [intros H; by apply elem_of_nil in H|].
      intros (cs & H & _). by apply elem_of_nil in H.
    + intros p H. by apply elem_of_nil in H.
  - apply Forall_cons in Hall as [[m ->] Hall'].
    cbn [run_chunks].
    destruct (starmapstar_ok E a w0 Hv Hg (S m) k (worker E w0 i tr))
      as (cs & w' & Hrun & _ & Hne & Hcs & Htr); [done|].
    rewrite Hrun.
    destruct (IH (S i) (k + length (replicate (S m) a)) (trace w') Hall')
      as (css & evs & Hrest & Hcss & Hin & Hplt & _).
    rewrite Hrest. exists (cs :: css), (batch_log k cs ++ evs).
    split; [by rewrite Htr, <- app_assoc|]. split; [by constructor|].
    split; [|split].
    + intros c. rewrite elem_of_app, elem_of_batch_log, Hin. split.
      * intros [Hc|(cs' & Hcs' & Hc)]; [exists cs; split; [by left|done]|].
        exists cs'. split; [by right|done].
      * intros (cs' & Hcs' & Hc). apply elem_of_cons in Hcs' as [->|Hcs'];
          [by left|right; by exists cs'].
    + intros p Hp. apply elem_of_app in Hp as [Hp|Hp]; [|by apply Hplt in Hp].
      clear -Hp. revert k Hp. induction cs as [|c cs IHcs]; intros k Hp; simpl in Hp.
      * by apply elem_of_nil in Hp.
      * apply elem_of_cons in Hp as [?|Hp]; [done|].
        apply elem_of_cons in Hp as [?|Hp]; [done|]. by eapply IHcs.
    + intros _. destruct cs as [|c cs]; [by destruct Hne; [lia|]|].
      simpl. split; [by left|]. exists c. right. by left.
Qed.

(** The chunks of a map of trials on arrays the mask does not fit. *)
Lemma run_chunks_fail (a : star_arg) (w0 : world) :
  arg_valid w0 a →
  ¬ gather_ok (read w0 (sa_log_spec_f a)) (read w0 (sa_log_spec_err a))
              (sa_goodpixels a) →
  ∀ chunks i k tr,
    Forall (λ c, ∃ m, c = replicate (S m) a) chunks →
    ∃ ks,
      run_chunks E (starred E) w0 i k chunks tr =
        (replicate (length chunks) (Raise IndexError), tr ++ map Task ks) ∧
      (chunks ≠ [] → Task k ∈ map Task ks).
Proof.
  intros Hv Hg chunks. induction chunks as [|ch chunks IH]; intros i k tr Hall.
  - exists []. simpl. by rewrite app_nil_r.
  - apply Forall_cons in Hall as [[m ->] Hall'].
    cbn [run_chunks].
    destruct (starmapstar_fail E a w0 Hv Hg m k (worker E w0 i tr))
      as (w' & Hrun & Htr); [done|].
    rewrite Hrun.
    destruct (IH (S i) (k + length (replicate (S m) a)) (trace w') Hall')
      as (ks & Hrest & _).
    rewrite Hrest. exists (k :: ks). simpl.
    split; [by rewrite Htr, <- app_assoc|]. intros _. by left.
Qed.

End Chunks.

(** ** From the trial results to the returned pair *)

Section Summary.

Variable E : externals.

Lemma summarize_with_quiet P rows nrand sigma spec_id w :
  py_not spec_id = true →
  summarize_with E P rows nrand sigma spec_id w = (summary E rows sigma, w).
Proof.
  intros Hn. unfold summarize_with, summary, bin_centers. rewrite Hn.
  unfold bind, lift, ret.
  destruct (column0 rows) as [rv|]; simpl; [|done].
  destruct (sigma_clip E rv _) as [m|]; simpl; [|done].
  destruct (getitem_bool _ _) as [clipped|]; simpl; [|done].
  destruct (np_histogram E clipped 20 true) as [r|]; simpl; [|done].
  destruct (rmapM _ _) as [bins|]; simpl; [|done].
  destruct (lmfit_fit E _ _ _ _ _ _) as [res|]; simpl; done.
Qed.

Lemma summarize_with_plotting P rows nrand sigma spec_id w :
  py_not (Some spec_id) = false →
  summarize_with E P rows nrand sigma (Some spec_id) w =
    ((plotted E P rows nrand sigma spec_id).1,
     World (heap w) (normals w) (uniforms w)
           (trace w ++ map Plt (plotted E P rows nrand sigma spec_id).2)).
Proof.
  intros Hn.
  unfold summarize_with, plotted, clipped_of, bin_centers, pyplot_hist, pyplot_call,
    curve_and_markers.
  rewrite Hn. unfold bind, lift, ret, emit. destruct w as [h nz un tr]. simpl.
  destruct (column0 rows) as [rv|]; simpl; [|by rewrite app_nil_r].
  destruct (sigma_clip E rv _) as [m|]; simpl; [|by rewrite app_nil_r].
  destruct (getitem_bool _ _) as [clipped|]; simpl; [|by rewrite app_nil_r].
  destruct (returns P (plt_figure spec_id)) as [[]|]; simpl; [|done].
  destruct (hist_values P clipped 20 true) as [r|]; simpl; [|by rewrite <- app_assoc].
  destruct (returns P (plt_hist _ _ _ _)) as [[]|]; simpl; [|by rewrite <- app_assoc].
  destruct (rmapM _ _) as [bins|]; simpl; [|by rewrite <- app_assoc].
  destruct (lmfit_fit E _ _ _ _ _ _) as [res|]; simpl; [|by rewrite <- app_assoc].
  repeat (match goal with |- context [returns P ?c] =>
            destruct (returns P c) as [[]|]; simpl; [|by rewrite <- !app_assoc] end).
  by rewrite <- !app_assoc.
Qed.

Lemma draws_all (P : pyplot) (cs : list plt_call) :
  (∀ p, p ∈ (draws P cs).2 → returns P p = Ok tt) → draws P cs = (Ok tt, cs).
Proof.
  induction cs as [|c cs IH]; simpl; [done|].
  destruct (returns P c) as [[]|e] eqn:Hc; simpl.
  - destruct (draws P cs) as [d l]. simpl in *. intros Hall.
    assert ((d, l) = (Ok tt, cs)) as [= -> ->]; [|done].
    apply IH. intros p Hp. apply Hall. by right.
  - intros Hall. specialize (Hall c). rewrite Hc in Hall.
    discriminate Hall. by left.
Qed.

Lemma draws_cases (P : pyplot) (cs : list plt_call) :
  draws P cs = (Ok tt, cs) ∨
  ∃ p e, p ∈ (draws P cs).2 ∧ returns P p = Raise e ∧ (draws P cs).1 = Raise e.
Proof.
  induction cs as [|c cs IH]; simpl; [by left|].
  destruct (returns P c) as [[]|e] eqn:Hc; simpl.
  - destruct (draws P cs) as [d l]. simpl in *.
    destruct IH as [[= -> ->]|(p & e & Hp & He & ->)]; [by left|].
    right. exists p, e. split; [by right|done].
  - right. exists c, e. split; [by left|done].
Qed.

(** The plotting branch for a pyplot whose [plt.hist] bins as
    [np.histogram] does: the pair of the branch without plotting, or the
    exception of a pyplot call. *)
Lemma plotted_spec (P : pyplot) rows nrand sigma spec_id :
  (∀ x bins density, hist_values P x bins density = np_histogram E x bins density) →
  let r := (plotted E P rows nrand sigma spec_id).1 in
  let ps := (plotted E P rows nrand sigma spec_id).2 in
  (r = summary E rows sigma ∨
   ∃ p e, p ∈ ps ∧ returns P p = Raise e ∧ r = Raise e) ∧
  ((∀ p, p ∈ ps → returns P p = Ok tt) →
   r = summary E rows sigma ∧
   files_written ps = match summary E rows sigma with
                      | Ok _ => [String.append spec_id "_v_dist.png"]
                      | Raise _ => []
                      end).
Proof.
  intros Hhist. unfold plotted, summary, clipped_of. cbv zeta.
  destruct (column0 rows) as [rv|]; cbn [rbind fst snd]; [|by split; [left|]].
  destruct (sigma_clip E rv _) as [m|]; cbn [rbind fst snd]; [|by split; [left|]].
  destruct (getitem_bool _ _) as [clipped|]; cbn [rbind fst snd]; [|by split; [left|]].
  destruct (returns P (plt_figure spec_id)) as [[]|e] eqn:Hfig; cbn [rbind fst snd].
  2:{ split.
      - right. exists (plt_figure spec_id), e. split; [by left|done].
      - intros Hall. specialize (Hall (plt_figure spec_id)).
        rewrite Hfig in Hall. discriminate Hall. by left. }
  rewrite Hhist.
  destruct (np_histogram E clipped 20 true) as [h|]; cbn [rbind fst snd];
    [|by split; [left|]].
  destruct (returns P (plt_hist _ _ _ _)) as [[]|e] eqn:Hh; cbn [rbind fst snd].
  2:{ split.
      - right. eexists _, e. split; [right; by left|done].
      - intros Hall. specialize (Hall (plt_hist clipped 20 true (label_realizations nrand))).
        rewrite Hh in Hall. discriminate Hall. right. by left. }
  destruct (bin_centers h.1 h.2) as [bins|]; cbn [rbind fst snd]; [|by split; [left|]].
  destruct (lmfit_fit E _ _ _ _ _ _) as [res|]; cbn [rbind fst snd]; [|by split; [left|]].
  set (cs := curve_and_markers spec_id (length bins) (bv_a res) (bv_b res) (bv_c res)).
  split.
  - destruct (draws_cases P cs) as [->|(p & e & Hp & He & Hr)]; [by left|].
    destruct (draws P cs) as [d l]. simpl in *. subst d.
    right. exists p, e. split; [right; by right|done].
  - intros Hall.
    assert (draws P cs = (Ok tt, cs)) as ->; [|split; reflexivity].
    apply draws_all. intros p Hp. apply Hall.
    destruct (draws P cs) as [d l]. simpl in *. right. by right.
Qed.

Lemma plotted_documented rows nrand sigma spec_id :
  (plotted E (documented E) rows nrand sigma spec_id).1 = summary E rows sigma.
Proof.
  destruct (plotted_spec (documented E) rows nrand sigma spec_id) as [_ H]; [done|].
  by apply H.
Qed.

Lemma summarize_quiet rows nrand sigma spec_id w :
  py_not spec_id = true →
  summarize E rows nrand sigma spec_id w = (summary E rows sigma, w).
Proof. apply summarize_with_quiet. Qed.

Lemma summarize_plotting rows nrand sigma spec_id w :
  py_not (Some spec_id) = false →
  summarize E rows nrand sigma (Some spec_id) w =
    (summary E rows sigma,
     World (heap w) (normals w) (uniforms w)
           (trace w ++ map Plt (plots_of E rows nrand sigma spec_id))).
Proof.
  intros Hn. unfold summarize, plots_of.
  by rewrite summarize_with_plotting, plotted_documented.
Qed.

Lemma files_written_plots rows nrand sigma spec_id :
  files_written (plots_of E rows nrand sigma spec_id) =
    match summary E rows sigma with
    | Ok _ => [String.append spec_id "_v_dist.png"]
    | Raise _ => []
    end.
Proof.
  destruct (plotted_spec (documented E) rows nrand sigma spec_id) as [_ H]; [done|].
  by apply H.
Qed.

Lemma ppxf_MC_with_run P tpl spec err vs g nrand deg gp m vsyst sigma sid V ncpu w :
  ppxf_MC_with E P tpl spec err vs g nrand deg (Some gp) m vsyst sigma sid V ncpu w =
    let w1 := World (heap w ++ [replicate (length (read w spec)) 1%R])
                    (normals w) (uniforms w) (trace w) in
    let a := StarArg tpl spec err vs deg gp g m vsyst (length (heap w)) V in
    if (ncpu <? 1)%Z then (Raise ValueError, w1)
    else
      let args := replicate (Z.to_nat nrand) a in
      let '(rs, tr) :=
        run_chunks E (starred E) w1 0 0
                   (get_tasks (chunksize (length args) ncpu) args) (trace w) in
      let w2 := World (heap w1) (normals w) (uniforms w) tr in
      match map_result E ncpu rs with
      | Ok rows => summarize_with E P rows nrand sigma sid w2
      | Raise e => (Raise e, w2)
      end.
Proof.
  destruct w as [h tn tu tr].
  unfold ppxf_MC_with, bind, np_ones_like, load, alloc, eq_None, ret, Pool_starmap, raise.
  simpl. destruct (ncpu <? 1)%Z; [done|].
  destruct (run_chunks _ _ _ _ _ _ _) as [rs tr']. by destruct (map_result E ncpu rs).
Qed.


Lemma ppxf_MC_run tpl spec err vs g nrand deg gp m vsyst sigma sid V ncpu w :
  ppxf_MC E tpl spec err vs g nrand deg (Some gp) m vsyst sigma sid V ncpu w =
    let w1 := World (heap w ++ [replicate (length (read w spec)) 1%R])
                    (normals w) (uniforms w) (trace w) in
    let a := StarArg tpl spec err vs deg gp g m vsyst (length (heap w)) V in
    if (ncpu <? 1)%Z then (Raise ValueError, w1)
    else
      let args := replicate (Z.to_nat nrand) a in
      let '(rs, tr) :=
        run_chunks E (starred E) w1 0 0
                   (get_tasks (chunksize (length args) ncpu) args) (trace w) in
      let w2 := World (heap w1) (normals w) (uniforms w) tr in
      match map_result E ncpu rs with
      | Ok rows => summarize E rows nrand sigma sid w2
      | Raise e => (Raise e, w2)
      end.
Proof. apply ppxf_MC_with_run. Qed.

Lemma ppxf_MC_no_mask tpl spec err vs g nrand deg m vsyst sigma sid V ncpu w :
  ppxf_MC E tpl spec err vs g nrand deg None m vsyst sigma sid V ncpu w =
    (Raise AttributeError,
     World (heap w ++ [replicate (length (read w spec)) 1%R])
           (normals w) (uniforms w) (trace w)).
Proof. by destruct w. Qed.

End Summary.

(** ** The whole call *)

Section Whole.

Variable E : externals.

Lemma summarize_trace rows nrand sigma sid w :
  ∃ ps, summarize E rows nrand sigma sid w =
          (summary E rows sigma,
           World (heap w) (normals w) (uniforms w) (trace w ++ map Plt ps)) ∧
        (py_not sid = true → ps = []) ∧
        (∀ s, sid = Some s → py_not sid = false → ps = plots_of E rows nrand sigma s).
Proof.
  destruct (py_not sid) eqn:Hn.
  - exists []. rewrite summarize_quiet by done. simpl. rewrite app_nil_r.
    split; [by destruct w|]. split; [done|]. intros; done.
  - destruct sid as [s|]; [|done].
    exists (plots_of E rows nrand sigma s). rewrite summarize_plotting by done.
    split; [done|]. split; [done|]. by intros s' [= <-] _.
Qed.

(** Without trial results there is no column to read, with or without a
    spectrum identifier. *)
Lemma summarize_with_nil P nrand sigma sid w :
  summarize_with E P [] nrand sigma sid w = (Raise IndexError, w).
Proof. done. Qed.

Lemma ppxf_MC_with_batch_ok P tpl spec err vs g nrand deg gp m vsyst sigma sid V ncpu w :
  tpl < length (heap w) → spec < length (heap w) → err < length (heap w) →
  (1 ≤ ncpu)%Z →
  gather_ok (read w spec) (read w err) gp →
  let a := StarArg tpl spec err vs deg gp g m vsyst (length (heap w)) V in
  let w1 := World (heap w ++ [replicate (length (read w spec)) 1%R])
                  (normals w) (uniforms w) (trace w) in
  ∃ css evs,
    Forall (Forall (is_trial_call w1 a)) css ∧
    (∀ c, PpxfCall c ∈ evs ↔ ∃ cs, cs ∈ css ∧ c ∈ cs) ∧
    (∀ p, Plt p ∉ evs) ∧
    ((1 ≤ nrand)%Z → Task 0 ∈ evs ∧ ∃ c, PpxfCall c ∈ evs) ∧
    ppxf_MC_with E P tpl spec err vs g nrand deg (Some gp) m vsyst sigma sid V ncpu w =
      let w2 := World (heap w1) (normals w) (uniforms w) (trace w ++ evs) in
      match map_result E ncpu (map (rmapM (trial_answer E m)) css) with
      | Ok rows => summarize_with E P rows nrand sigma sid w2
      | Raise e => (Raise e, w2)
      end.
Proof.
  intros Ht Hs He Hn Hg a w1. rewrite ppxf_MC_with_run. fold a w1. cbv zeta.
  destruct (ncpu <? 1)%Z eqn:Hc; [lia|].
  assert (Hv : arg_valid w1 a).
  { unfold arg_valid, a, w1. simpl. rewrite length_app. simpl. lia. }
  assert (Hr : ∀ l, l < length (heap w) → read w1 l = read w l).
  { intros l Hl. unfold read, w1. simpl. by rewrite lookup_app_l. }
  destruct (get_tasks_trials a nrand ncpu) as (Hall & Hne & _).
  destruct (run_chunks_ok E a w1 Hv) with
      (chunks := get_tasks (chunksize (length (replicate (Z.to_nat nrand) a)) ncpu)
                           (replicate (Z.to_nat nrand) a))
      (i := 0) (k := 0) (tr := trace w)
    as (css & evs & Hrun & Hcss & Hin & Hplt & Hfirst).
  { unfold a. simpl. by rewrite !Hr. }
  { exact Hall. }
  rewrite Hrun. exists css, evs.
  split; [done|]. split; [done|]. split; [done|]. split; [|done].
  intros Hk. apply Hfirst. by apply Hne.
Qed.

Lemma ppxf_MC_with_batch_fail P tpl spec err vs g nrand deg gp m vsyst sigma sid V ncpu w :
  tpl < length (heap w) → spec < length (heap w) → err < length (heap w) →
  (1 ≤ ncpu)%Z →
  ¬ gather_ok (read w spec) (read w err) gp →
  ∃ ks,
    ((1 ≤ nrand)%Z → Task 0 ∈ map Task ks) ∧
    ppxf_MC_with E P tpl spec err vs g nrand deg (Some gp) m vsyst sigma sid V ncpu w =
      (Raise IndexError,
       World (heap w ++ [replicate (length (read w spec)) 1%R])
             (normals w) (uniforms w) (trace w ++ map Task ks)).
Proof.
  intros Ht Hs He Hn Hg. rewrite ppxf_MC_with_run. cbv zeta.
  set (a := StarArg tpl spec err vs deg gp g m vsyst (length (heap w)) V).
  set (w1 := World (heap w ++ [replicate (length (read w spec)) 1%R])
                   (normals w) (uniforms w) (trace w)).
  destruct (ncpu <? 1)%Z eqn:Hc; [lia|].
  assert (Hv : arg_valid w1 a).
  { unfold arg_valid, a, w1. simpl. rewrite length_app. simpl. lia. }
  assert (Hr : ∀ l, l < length (heap w) → read w1 l = read w l).
  { intros l Hl. unfold read, w1. simpl. by rewrite lookup_app_l. }
  destruct (get_tasks_trials a nrand ncpu) as (Hall & Hne & Hnil).
  destruct (run_chunks_fail E a w1 Hv) with
      (chunks := get_tasks (chunksize (length (replicate (Z.to_nat nrand) a)) ncpu)
                           (replicate (Z.to_nat nrand) a))
      (i := 0) (k := 0) (tr := trace w)
    as (ks & Hrun & Hfirst).
  { unfold a. simpl. by rewrite !Hr. }
  { exact Hall. }
  rewrite Hrun. exists ks. split; [intros Hk; apply Hfirst; by apply Hne|].
  destruct (get_tasks _ _) as [|ch chunks] eqn:Hch.
  - simpl. by rewrite summarize_with_nil.
  - rewrite (map_result_all E ncpu _ IndexError); [done|done|].
    apply Forall_replicate. done.
Qed.

(** The shape of a run of [ppxf_MC] on arrays of the store: the pool is
    not made; or the mask does not fit and every chunk ends with the
    IndexError of its first trial; or the mask fits, and the log holds the
    calls [css] of the chunks, then the pyplot calls. *)
Lemma ppxf_MC_cases tpl spec err vs g nrand deg gpo m vsyst sigma sid V ncpu w :
  tpl < length (heap w) → spec < length (heap w) → err < length (heap w) →
  let r := ppxf_MC E tpl spec err vs g nrand deg gpo m vsyst sigma sid V ncpu w in
  let ones := replicate (length (read w spec)) 1%R in
  (log_since w r.2 = [] ∧ (gpo = None ∨ (ncpu < 1)%Z) ∧ ∃ e, r.1 = Raise e) ∨
  (∃ gp ks, gpo = Some gp ∧ (1 ≤ ncpu)%Z ∧
     ¬ gather_ok (read w spec) (read w err) gp ∧
     log_since w r.2 = map Task ks ∧ ((1 ≤ nrand)%Z → Task 0 ∈ map Task ks) ∧
     r.1 = Raise IndexError) ∨
  (∃ gp css evs ps, gpo = Some gp ∧ (1 ≤ ncpu)%Z ∧
     gather_ok (read w spec) (read w err) gp ∧
     Forall (Forall (λ c, ∃ z u, length z = length gp ∧
                  perturbed (read w spec) (read w err) gp z = Ok (pp_galaxy c) ∧
                  c = PpxfArgs (read w tpl) (pp_galaxy c) ones vs
                        (var_guesses_of g (u * V)) gp false deg m vsyst 1 0 1
                        [0%Z; 1%Z])) css ∧
     log_since w r.2 = evs ++ map Plt ps ∧
     (∀ c, PpxfCall c ∈ evs ↔ ∃ cs, cs ∈ css ∧ c ∈ cs) ∧
     (∀ p, Plt p ∉ evs) ∧
     ((1 ≤ nrand)%Z → Task 0 ∈ evs ∧ ∃ c, PpxfCall c ∈ evs) ∧
     r.1 = rbind (map_result E ncpu (map (rmapM (trial_answer E m)) css))
                 (λ rows, summary E rows sigma)).
Proof.
  intros Ht Hs He r ones.
  destruct gpo as [gp|].
  2:{ left. subst r. rewrite ppxf_MC_no_mask. simpl.
      split; [by apply log_since_app; rewrite app_nil_r|]. split; [by left|by eexists]. }
  destruct (decide (ncpu < 1)%Z) as [Hc|Hc].
  { left. subst r. rewrite ppxf_MC_run. simpl.
    destruct (ncpu <? 1)%Z eqn:Hc'; [|lia]. simpl.
    split; [by apply log_since_app; rewrite app_nil_r|]. split; [by right|by eexists]. }
  right. destruct (gather_ok_cases (read w spec) (read w err) gp) as [Hg|Hg].
  - right.
    destruct (ppxf_MC_with_batch_ok (documented E) tpl spec err vs g nrand deg gp m vsyst
                sigma sid V ncpu w)
      as (css & evs & Hcss & Hin & Hplt & Hfirst & Hrun); [done|done|done|lia|done|].
    fold (ppxf_MC E) in Hrun. fold (summarize E) in Hrun. fold r in Hrun.
    assert (Hshape : Forall (Forall (λ c, ∃ z u, length z = length gp ∧
                  perturbed (read w spec) (read w err) gp z = Ok (pp_galaxy c) ∧
                  c = PpxfArgs (read w tpl) (pp_galaxy c) ones vs
                        (var_guesses_of g (u * V)) gp false deg m vsyst 1 0 1
                        [0%Z; 1%Z])) css).
    { eapply Forall_impl; [exact Hcss|]. intros cs Hcs.
      eapply Forall_impl; [exact Hcs|]. intros c (z & u & Hz & Hp & Hc').
      exists z, u. simpl in *. unfold read in Hp, Hc'. simpl in Hp, Hc'.
      rewrite !lookup_app_l in Hp by done. rewrite lookup_app_l in Hc' by done.
      rewrite lookup_snoc_new in Hc'. unfold call_with in Hc'. simpl in Hc'.
      split; [done|]. split; [exact Hp|]. exact Hc'. }
    cbv zeta in Hrun.
    destruct (map_result E ncpu _) as [rows|e] eqn:Hrows.
    + match type of Hrun with _ = summarize E _ _ _ _ ?w2 =>
        destruct (summarize_trace rows nrand sigma sid w2) as (ps & Hsum & _) end.
      exists gp, css, evs, ps. rewrite Hrun, Hsum, Hrows. simpl.
      split; [done|]. split; [lia|]. split; [done|]. split; [done|].
      split; [|done]. apply log_since_app. by rewrite app_assoc.
    + exists gp, css, evs, []. rewrite Hrun, Hrows. simpl.
      split; [done|]. split; [lia|]. split; [done|]. split; [done|].
      split; [|done]. apply log_since_app. by rewrite app_nil_r.
  - left.
    destruct (ppxf_MC_with_batch_fail (documented E) tpl spec err vs g nrand deg gp m vsyst
                sigma sid V ncpu w)
      as (ks & Hfirst & Hrun); [done|done|done|lia|done|].
    fold (ppxf_MC E) in Hrun. fold r in Hrun. exists gp, ks. rewrite Hrun. simpl.
    split; [done|]. split; [lia|]. split; [done|]. split; [|done].
    by apply log_since_app.
Qed.

End Whole.

(** * The claims *)

Section Claims.

Variable E : externals.

(** C6 (the code departs from it).  With [goodpixels] left at [None], the
    documented default, [ppxf_MC] does not fall back to the full index
    range: the test [goodpixels.any() == None] calls a method of [None],
    so the call ends in an AttributeError before any trial is started. *)
Theorem unset_goodpixels_raises
    tpl spec err vs g nrand deg m vsyst sigma sid V ncpu w :
  let r := ppxf_MC E tpl spec err vs g nrand deg None m vsyst sigma sid V ncpu w in
  r.1 = Raise AttributeError ∧ log_since w r.2 = [].
Proof.
  rewrite ppxf_MC_no_mask. simpl. split; [done|].
  unfold log_since. simpl. by rewrite drop_all.
Qed.

(** With a mask that is given, the mask is used as it is: the branch that
    would build the full index range is never taken. *)
Lemma given_goodpixels_kept (gp : list Z) : eq_None (np_any gp) = false.
Proof. done. Qed.

(** C2.  A bootstrap trial works on a copy of the spectrum: the arrays of
    the caller are as they were and the perturbed array is a new one.  In
    the copy, every pixel the mask denotes holds its flux plus one normal
    draw times the error of that pixel (the draw at the pixel's place in
    the mask), and every other pixel holds its flux.  The copy is what the
    fitter receives. *)
Theorem bootstrap_perturbs_private_copy (a : star_arg) (w : world) :
  let spec := read w (sa_log_spec_f a) in
  let err := read w (sa_log_spec_err a) in
  let gp := sa_goodpixels a in
  let w' := (starred E a w).2 in
  arg_valid w a →
  length err = length spec →
  Forall (in_range (length spec)) gp →
  ∃ galaxy,
    heap w' = heap w ++ [galaxy] ∧
    (∀ l, l < length (heap w) → read w' l = read w l) ∧
    log_since w w' = [PpxfCall (trial_call w a galaxy)] ∧
    length galaxy = length spec ∧
    (∀ j, (∃ i, i ∈ gp ∧ norm (length spec) i = j) →
       ∃ k i x s, gp !! k = Some i ∧ norm (length spec) i = j ∧
         spec !! j = Some x ∧ err !! j = Some s ∧
         galaxy !! j = Some (x + normals w k * s)%R) ∧
    (∀ j, (∀ i, i ∈ gp → norm (length spec) i ≠ j) → galaxy !! j = spec !! j).
Proof.
  intros spec err gp w' Hv Hlen Hgp.
  assert (Hg : gather_ok spec err gp) by (split; [done|by rewrite Hlen]).
  destruct (perturbed_spec spec err gp (map (normals w) (seq 0 (length gp))) Hg)
    as (galaxy & Hp & Hl & Hother & Hmask); [by rewrite length_map, length_seq|].
  exists galaxy. subst w'. rewrite (bootstrap_run_Ok E a w galaxy Hv Hp). simpl.
  split; [done|]. split; [|split; [|split; [done|split; [|done]]]].
  - intros l Hl'. unfold read. simpl. by rewrite lookup_app_l.
  - unfold log_since. simpl. by rewrite drop_app_length.
  - intros j Hj. destruct (Hmask j Hj) as (k & i & x & d & s & Hk & Hn & Hx & Hd & Hs & Hnew).
    exists k, i, x, s. rewrite Hlen, Hn in Hs.
    rewrite lookup_map in Hd.
    assert (k < length gp) as Hkl by (by eapply lookup_lt_Some).
    rewrite lookup_seq_lt in Hd by done. simpl in Hd. injection Hd as <-.
    done.
Qed.

(** C3 (amended).  One draw [u] of the uniform generator, scaled by
    [RV_guess_var], is added to the velocity component of the guess and to
    no other.  The fitter receives the first two components of the guess
    only: velocity plus jitter, and the dispersion as it is.  With
    [RV_guess_var >= 0] and [-1 <= u < 1] the jitter lies between
    [-RV_guess_var] and [RV_guess_var], so it is 0 when [RV_guess_var] is. *)
Theorem guess_jitter_on_velocity (a : star_arg) (w : world) :
  let V := sa_RV_guess_var a in
  let rv := (uniforms w 0 * V)%R in
  arg_valid w a →
  gather_ok (read w (sa_log_spec_f a)) (read w (sa_log_spec_err a))
            (sa_goodpixels a) →
  (0 <= V)%R →
  (-1 <= uniforms w 0 < 1)%R →
  ∃ c, log_since w (starred E a w).2 = [PpxfCall c] ∧
       pp_start c = match sa_guesses a with
                    | [] => []
                    | [g0] => [(g0 + rv)%R]
                    | g0 :: g1 :: _ => [(g0 + rv)%R; g1]
                    end ∧
       (- V <= rv <= V)%R.
Proof.
  intros V rv Hv Hg HV Hu.
  destruct (perturbed_spec _ _ _
              (map (normals w) (seq 0 (length (sa_goodpixels a)))) Hg)
    as (galaxy & Hp & _); [by rewrite length_map, length_seq|].
  exists (trial_call w a galaxy).
  rewrite (bootstrap_run_Ok E a w galaxy Hv Hp). simpl.
  split; [by apply log_since_app|]. split.
  - unfold var_guesses_of, py_sum. fold V rv.
    destruct (sa_guesses a) as [|g0 [|g1 rest]]; simpl; [done| |].
    + f_equal. lra.
    + f_equal; [lra|]. f_equal; [lra|]. by destruct rest.
  - subst rv. split; nra.
Qed.




Lemma not_fit_in_tasks (c : ppxf_call) (l : list nat) : PpxfCall c ∉ map Task l.
Proof. induction l as [|k l IH]; simpl; [apply not_elem_of_nil|]. by apply not_elem_of_cons. Qed.

Lemma not_fit_in_plots (c : ppxf_call) (ps : list plt_call) : PpxfCall c ∉ map Plt ps.
Proof. induction ps as [|k l IH]; simpl; [apply not_elem_of_nil|]. by apply not_elem_of_cons. Qed.

(** With an error array of zeros the perturbed copy is the spectrum. *)
Lemma perturbed_zero_error (spec err : list R) (gp : list Z) (z new : list R) :
  Forall (λ e, e = 0%R) err → length z = length gp →
  perturbed spec err gp z = Ok new → new = spec.
Proof.
  intros Hzero Hz Hp.
  destruct (gather_ok_cases spec err gp) as [Hg|Hg];
    [|by rewrite perturbed_fails in Hp].
  destruct (perturbed_spec spec err gp z Hg Hz) as (new' & Hp' & Hlen & Hother & Hmask).
  assert (new' = new) as -> by congruence.
  apply list_eq. intros j.
  destruct (decide (Exists (λ i, norm (length spec) i = j) gp)) as [He|He].
  - apply Exists_exists in He as (i & Hi & Hij).
    destruct (Hmask j) as (k & i' & x & d & s & _ & _ & Hx & _ & Hs & ->);
      [by exists i|].
    rewrite Hx. f_equal.
    assert (s = 0%R) as ->.
    { eapply Forall_forall in Hzero; [exact Hzero|].
      apply list_elem_of_lookup. eauto. }
    lra.
  - apply Hother. intros i Hi Hij. apply He. apply Exists_exists. by exists i.
Qed.

(** The part of C5 that is about the program: with an error array of zeros
    and [RV_guess_var = 0], every call of the fitter has the same
    arguments, the spectrum itself among them, whatever the random draws. *)
Lemma noise_free_calls_identical
    tpl spec err vs g nrand deg gp m vsyst sigma sid ncpu w c :
  tpl < length (heap w) → spec < length (heap w) → err < length (heap w) →
  Forall (λ e, e = 0%R) (read w err) →
  PpxfCall c ∈
    log_since w
      (ppxf_MC E tpl spec err vs g nrand deg (Some gp) m vsyst sigma sid 0%R ncpu w).2 →
  c = PpxfArgs (read w tpl) (read w spec) (replicate (length (read w spec)) 1%R)
        vs (var_guesses_of g 0%R) gp false deg m vsyst 1 0 1 [0%Z; 1%Z].
Proof.
  intros Ht Hs He Hzero Hin.
  destruct (ppxf_MC_cases E tpl spec err vs g nrand deg (Some gp) m vsyst sigma sid 0%R
              ncpu w Ht Hs He)
    as [(Hlog & _)|[(gp' & ks & _ & _ & _ & Hlog & _)|
        (gp' & css & evs & ps & [= <-] & _ & _ & Hcss & Hlog & Hevs & _)]];
    rewrite Hlog in Hin.
  - by apply elem_of_nil in Hin.
  - by apply not_fit_in_tasks in Hin.
  - apply elem_of_app in Hin as [Hin|Hin]; [|by apply not_fit_in_plots in Hin].
    destruct (proj1 (Hevs c) Hin) as (cs & Hcs & Hcall).
    eapply Forall_forall in Hcss; [|exact Hcs].
    eapply Forall_forall in Hcss as (z & u & Hz & Hp & Hc); [|exact Hcall].
    apply perturbed_zero_error in Hp; [|done|done].
    rewrite Hc, Hp. by rewrite Rmult_0_r.
Qed.

(** C10.  Every call of the fitter that [ppxf_MC] makes is quiet
    ([quiet=1], [plot=False]), has [bias=0], and receives as noise an array
    of ones of the length of the spectrum.  The error array of the caller
    is no argument of the fitter: the call is made of the template, the
    perturbed spectrum, the ones, the jittered guess and the scalars, and
    the error array enters the perturbed spectrum only. *)
Theorem fitter_sees_unit_noise
    tpl spec err vs g nrand deg gpo m vsyst sigma sid V ncpu w c :
  tpl < length (heap w) → spec < length (heap w) → err < length (heap w) →
  PpxfCall c ∈
    log_since w (ppxf_MC E tpl spec err vs g nrand deg gpo m vsyst sigma sid V ncpu w).2 →
  pp_noise c = replicate (length (read w spec)) 1%R ∧
  pp_quiet c = 1%Z ∧ pp_bias c = 0%Z ∧ pp_plot c = false ∧
  ∃ gp z u,
    gpo = Some gp ∧ length z = length gp ∧
    perturbed (read w spec) (read w err) gp z = Ok (pp_galaxy c) ∧
    c = PpxfArgs (read w tpl) (pp_galaxy c) (replicate (length (read w spec)) 1%R)
          vs (var_guesses_of g (u * V)) gp false deg m vsyst 1 0 1 [0%Z; 1%Z].
Proof.
  intros Ht Hs He Hin.
  destruct (ppxf_MC_cases E tpl spec err vs g nrand deg gpo m vsyst sigma sid V ncpu w
              Ht Hs He)
    as [(Hlog & _)|[(gp & ks & _ & _ & _ & Hlog & _)|
        (gp & css & evs & ps & -> & _ & _ & Hcss & Hlog & Hevs & _)]];
    rewrite Hlog in Hin.
  - by apply elem_of_nil in Hin.
  - by apply not_fit_in_tasks in Hin.
  - apply elem_of_app in Hin as [Hin|Hin]; [|by apply not_fit_in_plots in Hin].
    destruct (proj1 (Hevs c) Hin) as (cs & Hcs & Hcall).
    eapply Forall_forall in Hcss; [|exact Hcs].
    eapply Forall_forall in Hcss as (z & u & Hz & Hp & Hc); [|exact Hcall].
    assert (pp_noise c = replicate (length (read w spec)) 1%R ∧
            pp_quiet c = 1%Z ∧ pp_bias c = 0%Z ∧ pp_plot c = false) as (?&?&?&?)
      by (rewrite Hc; done).
    repeat (split; [done|]). by exists gp, z, u.
Qed.


(** C7 (amended).  No check of shapes precedes the dispatch.  With a mask
    that is given, a pool of at least one process and at least one trial,
    the first trial is started whatever the lengths of the arrays and of
    the mask.  If the mask holds an index outside the spectrum or the
    error array, the call ends in the IndexError of a trial and the fitter
    is not called; otherwise (also for an empty mask, and whatever the
    lengths) a trial calls the fitter. *)
Theorem trials_start_without_shape_check
    tpl spec err vs g nrand deg gp m vsyst sigma sid V ncpu w :
  let r := ppxf_MC E tpl spec err vs g nrand deg (Some gp) m vsyst sigma sid V ncpu w in
  tpl < length (heap w) → spec < length (heap w) → err < length (heap w) →
  (1 ≤ ncpu)%Z → (1 ≤ nrand)%Z →
  Task 0 ∈ log_since w r.2 ∧
  (¬ gather_ok (read w spec) (read w err) gp →
     r.1 = Raise IndexError ∧ ∀ c, PpxfCall c ∉ log_since w r.2) ∧
  (gather_ok (read w spec) (read w err) gp → ∃ c, PpxfCall c ∈ log_since w r.2).
Proof.
  intros r Ht Hs He Hc Hn.
  destruct (ppxf_MC_cases E tpl spec err vs g nrand deg (Some gp) m vsyst sigma sid V
              ncpu w Ht Hs He)
    as [(_ & [?|?] & _)|[(gp' & ks & [= <-] & _ & Hg & Hlog & Hfirst & Hr)|
        (gp' & css & evs & ps & [= <-] & _ & Hg & _ & Hlog & _ & _ & Hfirst & _)]];
    [done|lia| |]; fold r in Hlog; rewrite Hlog.
  - split; [by apply Hfirst|]. split; [|done].
    intros _. split; [done|]. intros c. apply not_fit_in_tasks.
  - destruct (Hfirst Hn) as [H0 [c Hcall]].
    split; [apply elem_of_app; by left|]. split; [done|].
    intros _. exists c. apply elem_of_app. by left.
Qed.


Lemma compress_retained (data : list R) (mask : list bool) :
  length mask = length data →
  getitem_bool data (map negb mask) = Ok (retained (MaskedArray data mask)).
Proof.
  intros Hlen. unfold getitem_bool, retained. simpl.
  rewrite length_map, Hlen, Nat.eqb_refl. f_equal.
  revert mask Hlen. induction data as [|x data IH]; intros [|b mask] Hlen;
    simpl in *; try done.
  destruct b; simpl; rewrite IH by lia; done.
Qed.

Lemma bin_centers_spec (hist edges : list R) :
  length edges = S (length hist) →
  bin_centers hist edges = Ok (bin_centres edges).
Proof.
  intros Hlen. unfold bin_centers, bin_centres.
  transitivity (Ok (map (λ i : nat,
      Rplus (default 0%R (edges !! i))
        (Rdiv (Rminus (default 0%R (edges !! (i + 1))) (default 0%R (edges !! i))) 2%R))
      (seq 0 (length hist))) : result (list R)).
  - rewrite <- rmapM_total. apply rmapM_ext_in. intros i Hi.
    apply elem_of_seq in Hi.
    destruct (lookup_lt_is_Some_2 edges i) as [lo Hlo]; [lia|].
    destruct (lookup_lt_is_Some_2 edges (i + 1)) as [hi Hhi]; [lia|].
    unfold getitem. rewrite Hlo, Hhi. simpl. f_equal. lra.
  - f_equal. apply list_eq. intros i.
    rewrite lookup_map, lookup_zip_with, lookup_tail.
    destruct (decide (i < length hist)) as [Hi|Hi].
    + rewrite lookup_seq_lt by done. simpl.
      destruct (lookup_lt_is_Some_2 edges i) as [lo Hlo]; [lia|].
      destruct (lookup_lt_is_Some_2 edges (S i)) as [hi Hhi]; [lia|].
      replace (i + 1) with (S i) by lia. rewrite Hlo, Hhi. done.
    + rewrite lookup_seq_ge by lia. simpl.
      destruct (edges !! i) as [lo|] eqn:Hlo; simpl; [|done].
      rewrite lookup_ge_None_2; [done|lia].
Qed.

Lemma _gaussian_fit_gaussian : _gaussian_fit = gaussian.
Proof.
  extensionality x. extensionality a. extensionality b. extensionality c.
  unfold _gaussian_fit, gaussian. f_equal. f_equal. unfold Rdiv. ring.
Qed.

(** C1.  From the list of trial results to the returned pair, [ppxf_MC]
    does what the Distribution Summarizer is said to do: column 0 is
    sigma-clipped at the threshold [sigma] with the median absolute
    deviation as spread and the median as centre, the clipped values are
    dropped, the others are binned into 20 bins of a density histogram, the
    bin centres are the left edges plus half the bin widths, the Gaussian
    is fitted from a = max(density), b = mean(retained), c = std(retained),
    and the fitted (b, c) is returned.  The mask returned by the clipping
    has the length of its data, and the histogram has one edge more than
    bins. *)
Theorem summarize_is_the_summarizer
    (ensemble : list (list R)) (nrand : Z) (sigma : R) (sid : option string)
    (w : world) :
  ensemble ≠ [] →
  (∀ rv m, sigma_clip E rv (sigma_clip_call sigma MAD) = Ok m →
           length (ma_mask m) = length (ma_data m)) →
  (∀ kept h, np_histogram E kept 20 true = Ok h →
             length h.2 = S (length h.1)) →
  (summarize E ensemble nrand sigma sid w).1 = Summarizer E ensemble sigma.
Proof.
  intros Hne Hclip Hhist.
  destruct (summarize_trace E ensemble nrand sigma sid w) as (ps & -> & _). simpl.
  unfold summary, Summarizer, sigma_clip_call.
  replace (column0 ensemble) with (rmapM (λ row : list R, getitem row 0) ensemble)
    by (by destruct ensemble).
  destruct (rmapM _ ensemble) as [rv|]; simpl; [|done].
  destruct (sigma_clip E rv _) as [m|] eqn:Hm; simpl; [|done].
  apply Hclip in Hm. destruct m as [data mask]. simpl in Hm.
  rewrite compress_retained by done. simpl.
  destruct (np_histogram E _ 20 true) as [h|] eqn:Hh; simpl; [|done].
  apply Hhist in Hh. rewrite bin_centers_spec by done. simpl.
  by rewrite _gaussian_fit_gaussian.
Qed.

(** C8 (amended).  When the clipping masks every trial result,
    [ppxf_MC] makes no check: the empty array of retained values goes to
    the histogram and to the fit, and the call returns the fitted (b, c)
    when these return, and raises what they raise when they raise. *)
Theorem empty_ensemble_not_checked
    (rows : list (list R)) (nrand : Z) (sigma : R) (sid : option string)
    (w : world) (rv : list R) (m : masked_array) :
  column0 rows = Ok rv →
  sigma_clip E rv (sigma_clip_call sigma MAD) = Ok m →
  length (ma_mask m) = length (ma_data m) →
  Forall (λ b, b = true) (ma_mask m) →
  (summarize E rows nrand sigma sid w).1 =
    rbind (np_histogram E [] 20 true) (λ h,
    rbind (bin_centers h.1 h.2) (λ bins,
    rbind (lmfit_fit E _gaussian_fit h.1 bins
             (np_max E h.1) (np_mean E []) (np_std E [])) (λ fit,
    Ok (bv_b fit, bv_c fit)))).
Proof.
  intros Hrv Hm Hlen Hall.
  destruct (summarize_trace E rows nrand sigma sid w) as (ps & -> & _). simpl.
  unfold summary. rewrite Hrv. simpl. rewrite Hm. simpl.
  destruct m as [data mask]. simpl in *.
  rewrite compress_retained by done. simpl.
  replace (retained (MaskedArray data mask)) with (@nil R); [done|].
  unfold retained. simpl. clear Hm Hrv.
  revert mask Hlen Hall. induction data as [|x data IH]; intros [|b mask] Hlen Hall;
    simpl in *; try done.
  inversion Hall as [|? ? -> Hall']; subst. simpl. apply IH; [lia|done].
Qed.

End Claims.

(** ** The claims on given arrays *)

Example call_log :
  log_since Scenario.w0
    (Scenario.call Scenario.routines (Some [0; -1]%Z) None Scenario.w0).2 !! 1
  = Some (PpxfCall Scenario.call0).
Proof. run_py. reflexivity. Qed.

(** The pool in chunks: of eight trials on one process, two to a chunk,
    the first of each chunk is started and fails at its indexing, and the
    second is not started. *)
Example chunk_ends_at_first_failure :
  log_since Scenario.w_short
    (ppxf_MC Scenario.routines 0 1 2 1%R [5; 50]%R 8 4 (Some [0; 2]%Z) 2 0%R 5%R
       None 2%R 1 Scenario.w_short).2
  = [Task 0; Task 2; Task 4; Task 6].
Proof. run_py. reflexivity. Qed.

(** C6 on given arrays. *)
Example unset_goodpixels_on_arrays :
  (Scenario.call Scenario.routines None None Scenario.w0).1 = Raise AttributeError.
Proof. reflexivity. Qed.

(** C1 on two trial results. *)
Lemma summarize_is_the_summarizer_witness :
  (summarize Scenario.routines [[1; 2]; [3; 4]]%R 2 5%R None Scenario.w0).1
  = Ok (1%R, 0%R).
Proof.
  rewrite (summarize_is_the_summarizer Scenario.routines).
  - run_py. reflexivity.
  - discriminate.
  - intros rv m [= <-]. simpl. by rewrite length_map.
  - intros kept h [= <-]. simpl. reflexivity.
Defined.

(** C2 on the mask [0, -1]. *)
Lemma bootstrap_perturbs_private_copy_witness :
  ∃ galaxy,
    heap (starred Scenario.routines Scenario.trial2 Scenario.w1).2
      = heap Scenario.w1 ++ [galaxy] ∧
    length galaxy = 3 ∧ galaxy !! 1 = Some 20%R.
Proof.
  destruct (bootstrap_perturbs_private_copy Scenario.routines Scenario.trial2
              Scenario.w1) as (galaxy & Hh & _ & _ & Hl & _ & Hother).
  - unfold arg_valid. simpl. lia.
  - reflexivity.
  - repeat constructor; unfold in_range; simpl; lia.
  - exists galaxy. split; [exact Hh|]. split; [exact Hl|].
    rewrite (Hother 1); [reflexivity|].
    intros i Hi. apply elem_of_cons in Hi as [->|Hi]; [discriminate|].
    apply list_elem_of_singleton in Hi as ->. discriminate.
Defined.

(** C3 as stated fails: of a guess of four components (four moments) the
    third is not passed to the fitter. *)
Lemma guess_tail_not_passed :
  sa_moments Scenario.trial4 = 4%Z ∧
  sa_guesses Scenario.trial4 !! 2 = Some 7%R ∧
  ∃ c, log_since Scenario.w1
         (starred Scenario.routines Scenario.trial4 Scenario.w1).2 = [PpxfCall c] ∧
       pp_start c !! 2 = None.
Proof.
  split; [reflexivity|]. split; [reflexivity|].
  eexists. split; [run_py; reflexivity|]. reflexivity.
Qed.

(** C3 (amended) on a guess of two components. *)
Lemma guess_jitter_on_velocity_witness :
  ∃ c, log_since Scenario.w1
         (starred Scenario.routines Scenario.trial2 Scenario.w1).2 = [PpxfCall c] ∧
       pp_start c = [(5 + 0.5 * 2)%R; 50%R].
Proof.
  destruct (guess_jitter_on_velocity Scenario.routines Scenario.trial2 Scenario.w1)
    as (c & Hlog & Hstart & _).
  - unfold arg_valid. simpl. lia.
  - split; repeat constructor; unfold in_range; simpl; lia.
  - simpl. lra.
  - simpl. lra.
  - exists c. split; [exact Hlog | exact Hstart].
Defined.



(** C7 as stated fails: the error array is shorter than the spectrum and
    no shape error is raised.  With the mask [0, 1] the trials run and the
    call returns a pair; with the mask [0, 2] the trials are started and
    the IndexError comes from inside them; with an empty mask the trials
    run and the call returns a pair. *)
Lemma mismatched_lengths_are_dispatched :
  length (read Scenario.w_short 1) = 3 ∧ length (read Scenario.w_short 2) = 2 ∧
  (Scenario.call Scenario.routines (Some [0; 1]%Z) None Scenario.w_short).1
    = Ok ((10 + (0 + 1) * 1)%R, 0%R) ∧
  (Scenario.call Scenario.routines (Some [0; 2]%Z) None Scenario.w_short).1
    = Raise IndexError ∧
  log_since Scenario.w_short
    (Scenario.call Scenario.routines (Some [0; 2]%Z) None Scenario.w_short).2
    = [Task 0; Task 1] ∧
  (Scenario.call Scenario.routines (Some []) None Scenario.w_short).1
    = Ok (10%R, 0%R).
Proof.
  split; [reflexivity|]. split; [reflexivity|].
  split; [run_py; reflexivity|]. split; [run_py; reflexivity|].
  split; run_py; reflexivity.
Qed.

(** C7 (amended) on the shorter error array and the mask [0, 2]. *)
Lemma trials_start_without_shape_check_witness :
  Task 0 ∈ log_since Scenario.w_short
    (Scenario.call Scenario.routines (Some [0; 2]%Z) None Scenario.w_short).2 ∧
  (Scenario.call Scenario.routines (Some [0; 2]%Z) None Scenario.w_short).1
    = Raise IndexError.
Proof.
  destruct (trials_start_without_shape_check Scenario.routines 0 1 2 1%R [5; 50]%R
              2 4 [0; 2]%Z 2 0%R 5%R None 2%R 1 Scenario.w_short)
    as (H0 & Hfail & _).
  - simpl. lia.
  - simpl. lia.
  - simpl. lia.
  - lia.
  - lia.
  - split; [exact H0|]. apply Hfail. intros [_ H].
    apply Forall_cons in H as [_ H]. apply Forall_cons in H as [H _].
    unfold in_range in H. simpl in H. lia.
Defined.

(** C8 as stated fails: with every trial result clipped, [ppxf_MC] returns
    the pair of the fit when histogram and fit return; when the fit
    refuses the data, [ppxf_MC] ends in the exception of the fit, a
    ValueError as for a pool without processes. *)
Lemma empty_ensemble_goes_to_the_fit :
  (Scenario.call Scenario.clip_all (Some [0; -1]%Z) None Scenario.w0).1
    = Ok (0%R, 0%R) ∧
  (Scenario.call Scenario.clip_all_strict (Some [0; -1]%Z) None Scenario.w0).1
    = Raise ValueError ∧
  (ppxf_MC Scenario.routines 0 1 2 1%R [5; 50]%R 2 4 (Some [0; -1]%Z) 2 0%R 5%R
     None 2%R (-1) Scenario.w0).1
    = Raise ValueError.
Proof.
  split; [run_py; reflexivity|]. split; [run_py; reflexivity|].
  run_py; reflexivity.
Qed.

(** C8 (amended) on two trial results that are both clipped. *)
Lemma empty_ensemble_not_checked_witness :
  (summarize Scenario.clip_all [[1; 2]; [3; 4]]%R 2 5%R None Scenario.w0).1
  = Ok (0%R, 0%R).
Proof.
  rewrite (empty_ensemble_not_checked Scenario.clip_all [[1; 2]; [3; 4]]%R 2 5%R
             None Scenario.w0 [1; 3]%R (MaskedArray [1; 3]%R [true; true])).
  - run_py. reflexivity.
  - reflexivity.
  - reflexivity.
  - reflexivity.
  - repeat constructor.
Defined.



(** C10 on the first call of the fitter. *)
Lemma fitter_sees_unit_noise_witness :
  pp_noise Scenario.call0 = [1; 1; 1]%R ∧
  pp_quiet Scenario.call0 = 1%Z ∧ pp_bias Scenario.call0 = 0%Z.
Proof.
  destruct (fitter_sees_unit_noise Scenario.routines 0 1 2 1%R [5; 50]%R 2 4
              (Some [0; -1]%Z) 2 0%R 5%R None 2%R 1 Scenario.w0 Scenario.call0)
    as (Hn & Hq & Hb & _).
  - simpl. lia.
  - simpl. lia.
  - simpl. lia.
  - apply list_elem_of_lookup. exists 1. run_py. reflexivity.
  - split; [exact Hn|]. split; [exact Hq | exact Hb].
Defined.

(** * More of [ppxf_MC.py] *)

Section MoreTrial.

Variable E : externals.

Lemma starred_split (a : star_arg) (w : world) :
  starred E a w =
    (let* c := trial_prefix a in
     lift (rbind (ppxf E c) (moments_of (sa_moments a)))) w.
Proof.
  unfold starred, _ppxf_bootstrap, trial_prefix, call_with, var_guesses_of.
  destruct a as [tpl spec err vs deg gp g m vsyst nz V].
  destruct w as [h tn tu tr]. simpl.
  unfold bind, ndarray_copy, load, alloc, lift, np_random_normal, store, emit,
    np_random_uniform, read, ret; simpl.
  destruct (getitem_fancy _ gp) as [flux|]; simpl; [|done].
  destruct (getitem_fancy _ gp) as [sd|]; simpl; [|done].
  destruct (setitem_fancy _ gp _) as [new|]; simpl; [|done].
  destruct (ppxf E _) as [sol|]; simpl; [|done].
  unfold moments_of. destruct (m <=? 2)%Z;
    repeat (match goal with |- context [getitem sol ?k] =>
              destruct (getitem sol k); simpl; try done end).
Qed.

Lemma trial_prefix_world (a : star_arg) (w : world) :
  ∃ x, heap (trial_prefix a w).2 = heap w ++ [x] ∧
       trace (trial_prefix a w).2 =
         trace w ++ match (trial_prefix a w).1 with
                    | Ok c => [PpxfCall c]
                    | Raise _ => []
                    end ∧
       ∀ c, (trial_prefix a w).1 = Ok c → pp_moments c = sa_moments a.
Proof.
  unfold trial_prefix, call_with.
  destruct a as [tpl spec err vs deg gp g m vsyst nz V].
  destruct w as [h tn tu tr]. simpl.
  unfold bind, ndarray_copy, load, alloc, lift, np_random_normal, store, emit,
    np_random_uniform, read, ret; simpl.
  rewrite lookup_snoc_new. simpl.
  destruct (getitem_fancy _ gp) as [flux|]; simpl;
    [|eexists; by rewrite app_nil_r].
  destruct (getitem_fancy _ gp) as [sd|]; simpl;
    [|eexists; by rewrite app_nil_r].
  destruct (setitem_fancy _ gp _) as [new|]; simpl;
    [|eexists; by rewrite app_nil_r].
  rewrite insert_snoc. eexists. split; [done|]. split; [done|].
  by intros c [= <-].
Qed.

Lemma starred_world (a : star_arg) (w : world) :
  (starred E a w).2 = (trial_prefix a w).2.
Proof.
  rewrite starred_split. unfold bind, lift.
  by destruct (trial_prefix a w) as [[c|e] w'].
Qed.

(** X1.  A pool needs a process: with [n_CPU < 1], so also with the
    default [n_CPU=-1], [ppxf_MC] raises ValueError when it makes the pool.
    No trial is started and the fitter is not called; the array of ones is
    all that was made. *)
Theorem pool_needs_a_process
    tpl spec err vs g nrand deg gp m vsyst sigma sid V ncpu w :
  let r := ppxf_MC E tpl spec err vs g nrand deg (Some gp) m vsyst sigma sid V ncpu w in
  (ncpu < 1)%Z →
  r.1 = Raise ValueError ∧ log_since w r.2 = [] ∧
  heap r.2 = heap w ++ [replicate (length (read w spec)) 1%R].
Proof.
  intros r Hc. subst r. rewrite ppxf_MC_run. simpl.
  destruct (ncpu <? 1)%Z eqn:Hc'; [|lia]. simpl.
  split; [done|]. split; [|done]. apply log_since_app. by rewrite app_nil_r.
Qed.

(** X2.  Without trials there is no column to read: for [nrand <= 0] (and
    a pool that can be made) [ppxf_MC] ends in the IndexError of
    [np.array([])[:, 0]]; nothing is logged, neither a task nor a call of
    the fitter nor one of pyplot. *)
Theorem no_trials_is_an_index_error
    tpl spec err vs g nrand deg gp m vsyst sigma sid V ncpu w :
  let r := ppxf_MC E tpl spec err vs g nrand deg (Some gp) m vsyst sigma sid V ncpu w in
  (nrand ≤ 0)%Z → (1 ≤ ncpu)%Z →
  r.1 = Raise IndexError ∧ log_since w r.2 = [].
Proof.
  intros r Hn Hc. subst r. rewrite ppxf_MC_run. cbv zeta.
  destruct (ncpu <? 1)%Z eqn:Hc'; [lia|].
  replace (Z.to_nat nrand) with 0 by lia. simpl.
  split; [done|]. apply log_since_app. by rewrite app_nil_r.
Qed.

(** X3.  [ppxf_MC] never writes to an array it was given: whatever the
    arguments and the outcome, every array of the store is after the call
    what it was before. *)
Theorem ppxf_MC_keeps_the_store
    tpl spec err vs g nrand deg gpo m vsyst sigma sid V ncpu w :
  let r := ppxf_MC E tpl spec err vs g nrand deg gpo m vsyst sigma sid V ncpu w in
  heap w `prefix_of` heap r.2 ∧
  (∀ l, l < length (heap w) → read r.2 l = read w l).
Proof.
  intros r.
  assert (heap w `prefix_of` heap r.2) as Hp.
  { subst r. destruct gpo as [gp|].
    2:{ rewrite ppxf_MC_no_mask. simpl. by apply prefix_app_r. }
    rewrite ppxf_MC_run. cbv zeta.
    destruct (ncpu <? 1)%Z eqn:Hc; simpl; [by apply prefix_app_r|].
    destruct (run_chunks _ _ _ _ _ _ _) as [rs tr].
    destruct (map_result E ncpu rs) as [rows|e]; simpl; [|by apply prefix_app_r].
    match goal with |- context [summarize E rows nrand sigma sid ?w2] =>
      destruct (summarize_trace E rows nrand sigma sid w2) as (ps & -> & _) end.
    simpl. by apply prefix_app_r. }
  split; [done|].
  intros l Hl'. destruct Hp as [extra Hx]. unfold read. by rewrite Hx, lookup_app_l.
Qed.

End MoreTrial.

Section MoreBatch.

Variable E : externals.
Variable fit' : ppxf_call → result (list R).
Hypothesis Hsame : ∀ c, same_velocity (pp_moments c) (ppxf E c) (fit' c).

Lemma moments_of_same (m : Z) (r r' : result (list R)) :
  same_velocity m r r' → same_head (rbind r (moments_of m)) (rbind r' (moments_of m)).
Proof.
  unfold same_velocity, moments_of.
  destruct r as [sol|e], r' as [sol'|e']; simpl; try done.
  intros (Hl & Hl' & H0).
  destruct (m <=? 2)%Z;
    destruct sol as [|s0 [|s1 [|s2 [|s3 rest]]]];
    destruct sol' as [|t0 [|t1 [|t2 [|t3 rest']]]];
    simpl in *; try lia; by injection H0 as ->.
Qed.

Lemma starred_same (a : star_arg) (w : world) :
  (starred (with_ppxf E fit') a w).2 = (starred E a w).2 ∧
  same_head (starred E a w).1 (starred (with_ppxf E fit') a w).1.
Proof using Hsame.
  rewrite !starred_world. split; [done|].
  rewrite !starred_split. unfold bind, lift.
  destruct (trial_prefix_world a w) as (_ & _ & _ & Hm).
  destruct (trial_prefix a w) as [[c|e] w']; simpl in *; [|done].
  apply moments_of_same. rewrite <- (Hm c eq_refl). apply Hsame.
Qed.

Lemma starmapstar_same (chunk : list star_arg) (k : nat) (w : world) :
  (starmapstar (starred (with_ppxf E fit')) k chunk w).2
    = (starmapstar (starred E) k chunk w).2 ∧
  same_rows (starmapstar (starred E) k chunk w).1
            (starmapstar (starred (with_ppxf E fit')) k chunk w).1.
Proof using Hsame.
  revert k w. induction chunk as [|a chunk IH]; intros k w; simpl.
  { split; [done|]. constructor. }
  rewrite !emit_then.
  set (wk := World (heap w) (normals w) (uniforms w) (trace w ++ [Task k])).
  unfold bind at 1 3 5 7.
  destruct (starred_same a wk) as [Hw Hr].
  destruct (starred E a wk) as [r w1], (starred (with_ppxf E fit') a wk) as [r' w1'].
  simpl in Hw, Hr. subst w1'.
  destruct r as [row|e], r' as [row'|e']; simpl in Hr; try done.
  unfold bind.
  destruct (IH (S k) w1) as [Hw2 Hrs].
  destruct (starmapstar (starred E) (S k) chunk w1) as [rs w2],
           (starmapstar (starred (with_ppxf E fit')) (S k) chunk w1) as [rs' w2'].
  simpl in *. subst w2'.
  destruct rs as [rows|e], rs' as [rows'|e']; simpl in *; try done.
  split; [done|]. by constructor.
Qed.

Lemma run_chunks_same (w : world) (chunks : list (list star_arg)) (i k : nat)
    (tr : list event) :
  (run_chunks (with_ppxf E fit') (starred (with_ppxf E fit')) w i k chunks tr).2
    = (run_chunks E (starred E) w i k chunks tr).2 ∧
  Forall2 same_rows (run_chunks E (starred E) w i k chunks tr).1
    (run_chunks (with_ppxf E fit') (starred (with_ppxf E fit')) w i k chunks tr).1.
Proof using Hsame.
  revert i k tr. induction chunks as [|ch chunks IH]; intros i k tr; simpl; [done|].
  change (worker (with_ppxf E fit') w i tr) with (worker E w i tr).
  destruct (starmapstar_same ch k (worker E w i tr)) as [Hw Hr].
  destruct (starmapstar (starred E) k ch (worker E w i tr)) as [r w1],
           (starmapstar (starred (with_ppxf E fit')) k ch (worker E w i tr)) as [r' w1'].
  simpl in Hw, Hr. subst w1'.
  destruct (IH (S i) (k + length ch) (trace w1)) as [Htr Hrs].
  destruct (run_chunks E (starred E) w (S i) (k + length ch) chunks (trace w1))
    as [rs tr1],
    (run_chunks (with_ppxf E fit') (starred (with_ppxf E fit')) w (S i) (k + length ch)
                chunks (trace w1)) as [rs' tr1'].
  simpl in *. split; [done|]. by constructor.
Qed.

Lemma column0_same (rows rows' : list (list R)) :
  Forall2 (λ row row', getitem row 0 = getitem row' 0) rows rows' →
  column0 rows = column0 rows'.
Proof.
  intros H.
  assert (rmapM (λ r : list R, getitem r 0) rows
          = rmapM (λ r : list R, getitem r 0) rows') as Hm.
  { induction H as [|row row' rows rows' Hr _ IH]; simpl; [done|]. by rewrite Hr, IH. }
  destruct H; simpl in *; done.
Qed.

Lemma failures_same (rs rs' : list (result (list (list R)))) (i : nat) :
  Forall2 same_rows rs rs' → failures i rs = failures i rs'.
Proof.
  intros H. revert i. induction H as [|r r' rs rs' Hr _ IH]; intros i; simpl; [done|].
  destruct r as [rows|e], r' as [rows'|e']; simpl in Hr; try done.
  subst. by rewrite IH.
Qed.

Lemma map_result_same (processes : Z) (rs rs' : list (result (list (list R)))) :
  Forall2 same_rows rs rs' →
  match map_result E processes rs, map_result (with_ppxf E fit') processes rs' with
  | Ok rows, Ok rows' => column0 rows = column0 rows'
  | Raise e, Raise e' => e = e'
  | _, _ => False
  end.
Proof.
  intros H. unfold map_result. rewrite <- (failures_same rs rs' 0 H).
  change (first_failed (with_ppxf E fit')) with (first_failed E).
  assert (match rmapM (λ r, r) rs, rmapM (λ r, r) rs' with
          | Ok ls, Ok ls' =>
              Forall2 (λ row row', getitem row 0 = getitem row' 0) (concat ls) (concat ls')
          | Raise e, Raise e' => e = e'
          | _, _ => False
          end) as Haux.
  { clear -H. induction H as [|r r' rs rs' Hr _ IH]; simpl; [constructor|].
    destruct r as [rows|e], r' as [rows'|e']; simpl in *; try done.
    destruct (rmapM _ rs) as [ls|], (rmapM _ rs') as [ls'|]; simpl; try done.
    by apply Forall2_app. }
  destruct (rmapM _ rs) as [ls|e], (rmapM _ rs') as [ls'|e']; try done.
  - by apply column0_same.
  - by subst.
Qed.

(** X4.  Of what the fitter answers, [ppxf_MC] uses the first entry, the
    velocity, and nothing else: with another fitter that fails where the
    first fails and returns the same velocity where it returns (both
    returning the entries a trial reads), the call returns the same pair
    and leaves the same store, random tapes and log. *)
Theorem only_the_velocity_is_used
    tpl spec err vs g nrand deg gpo m vsyst sigma sid V ncpu w :
  ppxf_MC (with_ppxf E fit') tpl spec err vs g nrand deg gpo m vsyst sigma sid V ncpu w
  = ppxf_MC E tpl spec err vs g nrand deg gpo m vsyst sigma sid V ncpu w.
Proof using Hsame.
  destruct gpo as [gp|]; [|by rewrite !ppxf_MC_no_mask].
  rewrite !ppxf_MC_run. cbv zeta.
  destruct (ncpu <? 1)%Z; [done|].
  match goal with |- context [run_chunks E (starred E) ?w1 0 0 ?chunks ?tr] =>
    destruct (run_chunks_same w1 chunks 0 0 tr) as [Hw Hrs];
    destruct (run_chunks E (starred E) w1 0 0 chunks tr) as [rs tr1];
    destruct (run_chunks (with_ppxf E fit') (starred (with_ppxf E fit')) w1 0 0 chunks tr)
      as [rs' tr1'] end.
  simpl in Hw, Hrs. subst tr1'. apply (map_result_same ncpu) in Hrs.
  destruct (map_result E ncpu rs) as [rows|e],
           (map_result (with_ppxf E fit') ncpu rs') as [rows'|e']; try done.
  - unfold summarize, summarize_with. by rewrite Hrs.
  - by subst.
Qed.

End MoreBatch.

Section MoreSummary.

Variable E : externals.

(** X5.  A trial that reaches the fitter returns the first two entries of
    the solution for [moments <= 2] and the first four otherwise, whatever
    the number of moments fitted; a solution with fewer entries makes the
    trial end in IndexError. *)
Theorem trial_keeps_two_or_four
    (a : star_arg) (w : world) (c : ppxf_call) (sol : list R) :
  (trial_prefix a w).1 = Ok c →
  ppxf E c = Ok sol →
  (starred E a w).1 =
    if entries_read (sa_moments a) <=? length sol
    then Ok (take (entries_read (sa_moments a)) sol)
    else Raise IndexError.
Proof.
  intros Hc Hsol. rewrite starred_split. unfold bind, lift.
  destruct (trial_prefix a w) as [[c'|e] w']; simpl in *; [|done].
  injection Hc as ->. rewrite Hsol. simpl.
  unfold moments_of, entries_read.
  destruct (sa_moments a <=? 2)%Z;
    destruct sol as [|s0 [|s1 [|s2 [|s3 rest]]]]; done.
Qed.

Lemma plt_calls_map_Plt (ps : list plt_call) : plt_calls (map Plt ps) = ps.
Proof. induction ps as [|p ps IH]; simpl; [done|]. by rewrite IH. Qed.

(** X6.  With a spectrum identifier the figure is made before the
    histogram and the fit.  When the clipping returns and the histogram or
    the fit then raises, the first pyplot call is [plt.figure(spec_id)],
    and the figure is neither saved nor closed. *)
Theorem failed_fit_leaves_the_figure_open
    (rows : list (list R)) (nrand : Z) (sigma : R) (id : string) (w : world)
    (rv : list R) (m : masked_array) (e : exn) :
  let w' := (summarize E rows nrand sigma (Some id) w).2 in
  id ≠ EmptyString →
  column0 rows = Ok rv →
  sigma_clip E rv (sigma_clip_call sigma MAD) = Ok m →
  length (ma_mask m) = length (ma_data m) →
  (summarize E rows nrand sigma (Some id) w).1 = Raise e →
  head (plt_calls (log_since w w')) = Some (plt_figure id) ∧
  (plt_close ∉ plt_calls (log_since w w')) ∧
  files_written (plt_calls (log_since w w')) = [].
Proof.
  intros w' Hid Hrv Hm Hlen Hr. subst w'.
  assert (py_not (Some id) = false) as Hn.
  { simpl. destruct (String.eqb_spec id EmptyString); [done|done]. }
  rewrite summarize_plotting in Hr |- * by done. simpl in Hr |- *.
  rewrite (log_since_app w _ (map Plt (plots_of E rows nrand sigma id))) by done.
  rewrite plt_calls_map_Plt.
  unfold summary in Hr. unfold plots_of, plotted, clipped_of.
  rewrite Hrv in Hr |- *. cbn [rbind] in Hr |- *.
  rewrite Hm in Hr |- *. cbn [rbind] in Hr |- *.
  unfold getitem_bool in Hr |- *. rewrite length_map, Hlen, Nat.eqb_refl in Hr |- *.
  cbn [rbind documented returns hist_values] in Hr |- *.
  assert (∀ x bins density label,
            plt_close ∉ [plt_figure id; plt_hist x bins density label]) as Hopen.
  { intros x bins density label Hin. apply elem_of_cons in Hin as [?|Hin]; [done|].
    apply list_elem_of_singleton in Hin. done. }
  destruct (np_histogram E _ 20 true) as [h|]; cbn [rbind] in Hr |- *;
    [|simpl; split; [done|]; split; [apply Hopen|done]].
  destruct (bin_centers h.1 h.2) as [bins|]; cbn [rbind] in Hr |- *;
    [|simpl; split; [done|]; split; [apply Hopen|done]].
  destruct (lmfit_fit E _ _ _ _ _ _) as [res|]; cbn [rbind] in Hr |- *; [done|].
  simpl. split; [done|]. split; [apply Hopen|done].
Qed.

(** X7.  An empty string as spectrum identifier counts as none: the call
    does in every respect what it does without an identifier, and no
    pyplot call is made. *)
Theorem empty_spec_id_is_no_spec_id
    tpl spec err vs g nrand deg gpo m vsyst sigma V ncpu w :
  ppxf_MC E tpl spec err vs g nrand deg gpo m vsyst sigma (Some EmptyString) V ncpu w
  = ppxf_MC E tpl spec err vs g nrand deg gpo m vsyst sigma None V ncpu w.
Proof.
  destruct gpo as [gp|]; [|by rewrite !ppxf_MC_no_mask].
  rewrite !ppxf_MC_run. cbv zeta.
  destruct (ncpu <? 1)%Z; [done|].
  destruct (run_chunks _ _ _ _ _ _ _) as [rs tr].
  destruct (map_result E ncpu rs) as [rows|]; [|done].
  by rewrite !summarize_quiet.
Qed.

End MoreSummary.

(** ** The model function and the grid of the curve *)





(** ** The added properties on given arrays *)

Lemma pool_needs_a_process_witness :
  (ppxf_MC Scenario.routines 0 1 2 1%R [5; 50]%R 2 4 (Some [0; -1]%Z) 2 0%R 5%R
     None 2%R (-1) Scenario.w0).1 = Raise ValueError.
Proof.
  destruct (pool_needs_a_process Scenario.routines 0 1 2 1%R [5; 50]%R 2 4
              [0; -1]%Z 2 0%R 5%R None 2%R (-1) Scenario.w0) as (H & _).
  - lia.
  - exact H.
Defined.

Lemma no_trials_is_an_index_error_witness :
  (ppxf_MC Scenario.routines 0 1 2 1%R [5; 50]%R 0 4 (Some [0; -1]%Z) 2 0%R 5%R
     None 2%R 1 Scenario.w0).1 = Raise IndexError.
Proof.
  destruct (no_trials_is_an_index_error Scenario.routines 0 1 2 1%R [5; 50]%R 0 4
              [0; -1]%Z 2 0%R 5%R None 2%R 1 Scenario.w0) as (H & _).
  - lia.
  - lia.
  - exact H.
Defined.

Lemma ppxf_MC_keeps_the_store_witness :
  read (Scenario.call Scenario.routines (Some [0; -1]%Z) None Scenario.w0).2 1
  = [10; 20; 30]%R.
Proof.
  destruct (ppxf_MC_keeps_the_store Scenario.routines 0 1 2 1%R [5; 50]%R 2 4
              (Some [0; -1]%Z) 2 0%R 5%R None 2%R 1 Scenario.w0) as (_ & Hr).
  unfold Scenario.call. rewrite Hr; [reflexivity | simpl; lia].
Defined.

Lemma only_the_velocity_is_used_witness :
  Scenario.call (with_ppxf Scenario.routines other_fitter) (Some [0; -1]%Z) None
                Scenario.w0
  = Scenario.call Scenario.routines (Some [0; -1]%Z) None Scenario.w0.
Proof.
  unfold Scenario.call. apply only_the_velocity_is_used.
  intros c. unfold same_velocity, other_fitter. simpl.
  destruct (pp_moments c <=? 2)%Z; repeat split; lia.
Defined.

Lemma trial_keeps_two_or_four_witness :
  (starred Scenario.routines Scenario.trial4 Scenario.w1).1
  = Ok [10 + (0 + 1) * 1; 1; 0; 0]%R.
Proof.
  eapply eq_trans.
  - eapply (trial_keeps_two_or_four Scenario.routines Scenario.trial4 Scenario.w1).
    + run_py. reflexivity.
    + reflexivity.
  - run_py. reflexivity.
Defined.

Lemma failed_fit_leaves_the_figure_open_witness :
  head (plt_calls (log_since Scenario.w0
          (summarize Scenario.clip_all_strict [[1; 2]; [3; 4]]%R 2 5%R
                     (Some "s7"%string) Scenario.w0).2))
  = Some (plt_figure "s7").
Proof.
  destruct (failed_fit_leaves_the_figure_open Scenario.clip_all_strict
              [[1; 2]; [3; 4]]%R 2 5%R "s7"%string Scenario.w0 [1; 3]%R
              (MaskedArray [1; 3]%R [true; true]) ValueError) as (H & _).
  - discriminate.
  - reflexivity.
  - reflexivity.
  - reflexivity.
  - run_py. reflexivity.
  - exact H.
Defined.




(** * [cubes.py]: the catalogue for PampelMuse *)

(** ** Index arrays and masks *)

Lemma getitem_where_from {A} (pre a : list A) (mask : list bool) :
  length mask ≤ length a →
  getitem_where (pre ++ a) (where_from (length pre) mask) = Ok (select a mask).
Proof.
  revert pre a. induction mask as [|b mask IH]; intros pre a Hl.
  - by destruct a.
  - destruct a as [|x a]; simpl in Hl; [lia|].
    assert (getitem_where (pre ++ x :: a) (where_from (S (length pre)) mask)
            = Ok (select a mask)) as Hrest.
    { replace (pre ++ x :: a) with ((pre ++ [x]) ++ a) by by rewrite <- app_assoc.
      replace (S (length pre)) with (length (pre ++ [x]))
        by (rewrite length_app; simpl; lia).
      apply IH. lia. }
    simpl. destruct b; [|done].
    unfold getitem_where in *. simpl. rewrite Hrest.
    unfold getitem. rewrite lookup_app_r by lia.
    by replace (length pre - length pre) with 0 by lia.
Qed.

Lemma getitem_where_select {A} (a : list A) (mask : list bool) :
  length mask ≤ length a →
  getitem_where a (np_where mask) = Ok (select a mask).
Proof. intros Hl. by apply (getitem_where_from [] a mask). Qed.

Lemma getitem_where_length {A} (a a' : list A) (pos : list nat) :
  getitem_where a pos = Ok a' → length a' = length pos.
Proof.
  unfold getitem_where. intros H. apply rmapM_Ok in H.
  symmetry. by eapply Forall2_length.
Qed.

Lemma select_map {A B} (f : A → B) (l : list A) (mask : list bool) :
  select (map f l) mask = map f (select l mask).
Proof.
  revert mask. induction l as [|x l IH]; intros [|b mask]; simpl; try done.
  destruct b; simpl; by rewrite IH.
Qed.

Lemma select_filter {A} (g : A → bool) (l : list A) :
  select l (map g l) = filter (λ x, g x = true) l.
Proof.
  induction l as [|x l IH]; simpl; [done|].
  rewrite filter_cons. destruct (g x) eqn:Hg.
  - rewrite decide_True by done. by rewrite IH.
  - rewrite decide_False by done. done.
Qed.

Lemma setitem_where_from (g : R → bool) (v : R) (pre a : list R) :
  foldl (λ acc j, <[j := v]> acc) (pre ++ a) (where_from (length pre) (map g a))
  = pre ++ map (λ m, if g m then v else m) a.
Proof.
  revert pre. induction a as [|x a IH]; intros pre; simpl; [done|].
  assert (∀ y, foldl (λ acc j, <[j := v]> acc) (pre ++ y :: a)
                 (where_from (S (length pre)) (map g a))
               = pre ++ y :: map (λ m, if g m then v else m) a) as Hrest.
  { intros y.
    replace (pre ++ y :: a) with ((pre ++ [y]) ++ a) by by rewrite <- app_assoc.
    replace (S (length pre)) with (length (pre ++ [y]))
      by (rewrite length_app; simpl; lia).
    rewrite IH. by rewrite <- app_assoc. }
  destruct (g x); simpl; [|apply Hrest].
  rewrite insert_app_r_alt by lia.
  replace (length pre - length pre) with 0 by lia. simpl. apply Hrest.
Qed.

Lemma setitem_where_map (g : R → bool) (v : R) (a : list R) :
  setitem_where a (np_where (map g a)) v = map (λ m, if g m then v else m) a.
Proof. apply (setitem_where_from g v [] a). Qed.

Lemma filter_all {A} (l : list A) : filter (λ _ : A, true = true) l = l.
Proof.
  induction l as [|x l IH]; [done|].
  rewrite filter_cons, decide_True by done. by rewrite IH.
Qed.

Lemma zip_map4 {A B1 B2 B3 B4} (f1 : A → B1) (f2 : A → B2) (f3 : A → B3)
    (f4 : A → B4) (l : list A) :
  zip (zip (zip (map f1 l) (map f2 l)) (map f3 l)) (map f4 l)
  = map (λ x, (f1 x, f2 x, f3 x, f4 x)) l.
Proof. induction l as [|x l IH]; simpl; [done|]. by rewrite IH. Qed.

(** ** The stars and their columns *)

Lemma zip_columns {A B} (a : list A) (b : list B) :
  length b = length a → map fst (zip a b) = a ∧ map snd (zip a b) = b.
Proof.
  revert b. induction a as [|x a IH]; intros [|y b] Hl; simpl in *; try done.
  destruct (IH b) as [-> ->]; [lia|done].
Qed.

Lemma length_zip_same {A B} (a : list A) (b : list B) :
  length b = length a → length (zip a b) = length a.
Proof.
  revert b. induction a as [|x a IH]; intros [|y b] Hl; simpl in *; try done.
  rewrite IH; [done|lia].
Qed.

Lemma stars_columns (ra dec mag : list R) :
  length dec = length ra → length mag = length ra →
  map star_id (stars ra dec mag) = map (λ i, (i + 1)%Z) (np_arange (length ra)) ∧
  map star_ra (stars ra dec mag) = ra ∧
  map star_dec (stars ra dec mag) = dec ∧
  map star_mag (stars ra dec mag) = mag.
Proof.
  intros Hd Hm. unfold stars, star_id, star_ra, star_dec, star_mag.
  set (ids := map (λ k, (Z.of_nat k + 1)%Z) (seq 0 (length ra))).
  assert (length ids = length ra) as Hi
    by (subst ids; by rewrite length_map, length_seq).
  assert (length (zip ids ra) = length ra) as H1
    by (rewrite length_zip_same; [done|lia]).
  assert (length (zip (zip ids ra) dec) = length ra) as H2
    by (rewrite length_zip_same; [lia|lia]).
  destruct (zip_columns (zip (zip ids ra) dec) mag) as [E1 E2]; [lia|].
  destruct (zip_columns (zip ids ra) dec) as [E3 E4]; [lia|].
  destruct (zip_columns ids ra) as [E5 E6]; [lia|].
  repeat split.
  - transitivity (map fst (map fst (map fst (zip (zip (zip ids ra) dec) mag))));
      [by rewrite !map_map|].
    rewrite E1, E3, E5. subst ids. unfold np_arange. by rewrite map_map.
  - transitivity (map snd (map fst (map fst (zip (zip (zip ids ra) dec) mag))));
      [by rewrite !map_map|].
    by rewrite E1, E3, E6.
  - transitivity (map snd (map fst (zip (zip (zip ids ra) dec) mag)));
      [by rewrite !map_map|].
    by rewrite E1, E4.
  - exact E2.
Qed.

Lemma stars_cut (ra dec mag : list R) (mag_limit : option R) :
  length dec = length ra → length mag = length ra →
  let kept := filter (λ s, within mag_limit s = true) (stars ra dec mag) in
  ∀ lim, mag_limit = Some lim →
    let pos := np_where (map (λ m, Rle_b m lim) mag) in
    getitem_where (map (λ i, (i + 1)%Z) (np_arange (length ra))) pos
      = Ok (map star_id kept) ∧
    getitem_where ra pos = Ok (map star_ra kept) ∧
    getitem_where dec pos = Ok (map star_dec kept) ∧
    getitem_where mag pos = Ok (map star_mag kept).
Proof.
  intros Hd Hm kept lim ->. simpl in kept.
  destruct (stars_columns ra dec mag Hd Hm) as (Ei & Er & Ed & Em).
  assert (length (stars ra dec mag) = length ra) as Hl
    by (rewrite <- Er at 2; by rewrite length_map).
  assert (map (λ m, Rle_b m lim) mag
          = map (λ s, Rle_b s.2 lim) (stars ra dec mag)) as Hmask.
  { rewrite <- Em at 1. by rewrite map_map. }
  intros pos. subst pos. rewrite Hmask.
  assert (∀ B (f : Z * R * R * R → B),
            getitem_where (map f (stars ra dec mag))
              (np_where (map (λ s, Rle_b s.2 lim) (stars ra dec mag)))
            = Ok (map f kept)) as Hsel.
  { intros B f. rewrite getitem_where_select by (by rewrite !length_map).
    by rewrite select_map, select_filter. }
  rewrite <- (Hsel _ star_id), <- (Hsel _ star_ra), <- (Hsel _ star_dec),
    <- (Hsel _ star_mag).
  by rewrite Ei, Er, Ed, Em.
Qed.

Lemma str_lower_empty (s : string) :
  String.eqb (str_lower s) EmptyString = String.eqb s EmptyString.
Proof. by destruct s. Qed.

(** What [pampelmuse_cat] does on arrays of one length, without [idx]. *)
Lemma pampelmuse_cat_run (ra dec mag : list R) (fn path : string) (sat : R)
    (mag_sat ifs_sat mag_limit : option R) (d : env) :
  length dec = length ra → length mag = length ra →
  let kept := filter (λ s, within mag_limit s = true) (stars ra dec mag) in
  let d1 := match ifs_sat with
            | Some f =>
                Env ((path +:+ "/ifs_sat_id.list",
                      id_list (map star_id
                                 (filter (λ s, ifs_saturated sat f s = true) kept)))
                     :: files d) (dirs d) (stdout d)
            | None => d
            end in
  pampelmuse_cat ra dec mag fn None path sat mag_sat ifs_sat mag_limit d =
    if existsb (String.eqb (str_lower fn)) ["id"; "ra"; "dec"]%string
    then (Raise ValueError, d1)
    else if String.eqb fn EmptyString
    then (Raise (match mag_sat with Some _ => KeyError | None => OSError end), d1)
    else (Ok tt,
          Env ((path +:+ "/" +:+ str_upper fn,
                AsciiTable (MkTable ["id"; "ra"; "dec"; str_lower fn]%string
                              (map as_i4 (map star_id kept)) (map star_ra kept)
                              (map star_dec kept)
                              (map star_mag (map (desaturated sat mag_sat) kept))))
               :: files d1) (dirs d1) (stdout d1)).
Proof.
  intros Hd Hm kept d1.
  destruct (stars_columns ra dec mag Hd Hm) as (Ei & Er & Ed & Em).
  unfold pampelmuse_cat. unfold io_bind at 1. unfold io_ret at 1.
  assert ((match mag_limit with
           | Some lim =>
               let mag_lim_id := np_where (map (λ m, Rle_b m lim) mag) in
               let+ ids := io_lift (getitem_where
                              (map (λ i, (i + 1)%Z) (np_arange (length ra))) mag_lim_id) in
               let+ ra := io_lift (getitem_where ra mag_lim_id) in
               let+ dec := io_lift (getitem_where dec mag_lim_id) in
               let+ mag := io_lift (getitem_where mag mag_lim_id) in
               io_ret (ids, ra, dec, mag)
           | None => io_ret (map (λ i, (i + 1)%Z) (np_arange (length ra)), ra, dec, mag)
           end) d
          = (Ok (map star_id kept, map star_ra kept, map star_dec kept,
                 map star_mag kept), d)) as Hcut.
  { destruct mag_limit as [lim|].
    - destruct (stars_cut ra dec mag (Some lim) Hd Hm lim eq_refl)
        as (H1 & H2 & H3 & H4).
      cbv zeta. unfold io_bind, io_lift, io_ret. by rewrite H1, H2, H3, H4.
    - unfold io_ret. subst kept. simpl. rewrite filter_all.
      by rewrite Ei, Er, Ed, Em. }
  cbv zeta in Hcut. unfold io_bind at 1. rewrite Hcut. cbv beta iota zeta.
  assert (∀ f, getitem_where (map star_id kept)
                 (np_where (map (λ m, Rlt_b m f && negb (Req_b m sat))
                              (map star_mag kept)))
               = Ok (map star_id (filter (λ s, ifs_saturated sat f s = true) kept)))
    as Hifs.
  { intros f. rewrite map_map.
    rewrite getitem_where_select by (by rewrite !length_map).
    by rewrite select_map, select_filter. }
  assert (Table (map star_id kept) (map star_ra kept) (map star_dec kept)
            (map star_mag kept) (str_lower fn)
          = if existsb (String.eqb (str_lower fn)) ["id"; "ra"; "dec"]%string
            then Raise ValueError
            else Ok (MkTable ["id"; "ra"; "dec";
                              if String.eqb (str_lower fn) EmptyString
                              then "col3" else str_lower fn]%string
                       (map as_i4 (map star_id kept)) (map star_ra kept)
                       (map star_dec kept) (map star_mag kept))) as HT.
  { unfold Table. by rewrite !length_map, Nat.eqb_refl. }
  assert (setitem_where (map star_mag kept)
            (np_where (map (λ m, Req_b m sat) (map star_mag kept)))
          = λ v, map star_mag (map (desaturated sat (Some v)) kept)) as Hsat.
  { apply functional_extensionality. intros v.
    rewrite setitem_where_map, !map_map. apply map_ext. intros s.
    unfold desaturated, star_mag. simpl. by destruct (Req_b s.2 sat). }
  assert (map star_mag (map (desaturated sat None) kept) = map star_mag kept)
    as Hnone by (by rewrite map_map).
  unfold io_bind at 1.
  assert (match ifs_sat with
          | Some f =>
              let+ ifs_sat_id :=
                io_lift (getitem_where (map star_id kept)
                           (np_where (map (λ m, Rlt_b m f && negb (Req_b m sat))
                                        (map star_mag kept)))) in
              write_file (path +:+ "/ifs_sat_id.list")
                (Text ("[" +:+ strcat (map (λ i, str_int i +:+ ",") ifs_sat_id)
                       +:+ "]"))
          | None => io_ret tt
          end d = (Ok tt, d1)) as Hlist.
  { subst d1. destruct ifs_sat as [f|]; [|done].
    unfold io_bind, io_lift. rewrite Hifs. by destruct d. }
  cbv zeta in Hlist. rewrite Hlist.
  unfold io_bind at 1. unfold io_lift at 1. rewrite HT, str_lower_empty.
  destruct (existsb _ _); [done|].
  destruct (String.eqb fn EmptyString) eqn:Hfn.
  - destruct mag_sat; done.
  - unfold io_bind. destruct mag_sat as [v|].
    + unfold io_ret, write_file. cbn [tb_names tb_id tb_ra tb_dec tb_mag].
      rewrite Hsat. by destruct d1.
    + unfold io_ret, write_file. cbn [tb_names tb_id tb_ra tb_dec tb_mag].
      rewrite Hnone. by destruct d1.
Qed.


Lemma stars_ids (ra dec mag : list R) (s : Z * R * R * R) :
  length dec = length ra → length mag = length ra →
  s ∈ stars ra dec mag → (1 ≤ star_id s ≤ Z.of_nat (length ra))%Z.
Proof.
  intros Hd Hm Hs.
  destruct (stars_columns ra dec mag Hd Hm) as (Ei & _).
  assert (star_id s ∈ map star_id (stars ra dec mag)) as Hin.
  { apply list_elem_of_In, in_map, list_elem_of_In, Hs. }
  rewrite Ei in Hin. apply list_elem_of_In, in_map_iff in Hin as (i & <- & Hi).
  unfold np_arange in Hi. apply in_map_iff in Hi as (k & <- & Hk).
  apply in_seq in Hk. lia.
Qed.

Lemma as_i4_small (i : Z) :
  (-2147483648 ≤ i < 2147483648)%Z → as_i4 i = i.
Proof. intros Hi. unfold as_i4. rewrite Z.mod_small by lia. lia. Qed.

Lemma append_inj (p a b : string) : p +:+ a = p +:+ b → a = b.
Proof. induction p as [|c p IH]; simpl; [done|]. intros [= H]. by apply IH. Qed.

Lemma upper_ascii_not_i (c : Ascii.ascii) :
  upper_ascii c ≠ Ascii.Ascii true false false true false true true false.
Proof.
  destruct c as [[] [] [] [] [] [] [] []]; vm_compute; discriminate.
Qed.

Lemma catalogue_is_not_the_list (path fn : string) :
  String.eqb (path +:+ "/" +:+ str_upper fn) (path +:+ "/ifs_sat_id.list") = false.
Proof.
  apply String.eqb_neq. intros H. apply append_inj in H.
  destruct fn as [|c fn]; simpl in H; [done|].
  injection H as H _. by apply upper_ascii_not_i in H.
Qed.

Lemma not_in_existsb (name : string) (l : list string) :
  name ∉ l → existsb (String.eqb name) l = false.
Proof.
  intros Hn. destruct (existsb _ l) eqn:He; [|done].
  apply existsb_exists in He as (x & Hx & He). apply String.eqb_eq in He as <-.
  by apply list_elem_of_In in Hx.
Qed.

Lemma in_existsb (name : string) (l : list string) :
  name ∈ l → existsb (String.eqb name) l = true.
Proof.
  intros Hn. apply existsb_exists. exists name. split; [by apply list_elem_of_In|].
  apply String.eqb_refl.
Qed.

(** X11.  The catalogue holds the stars: for arrays of one length (fewer
    than 2^31 stars) and a filter name that is not one of the other column
    names, [pampelmuse_cat] without [idx] returns, and the file
    [path/FILTER] holds the table whose rows are, in the order given, the
    stars not fainter than [mag_limit]: each with its number in the arrays
    as given (counted from 1, not renumbered after the cut), its own
    [ra] and [dec], and its magnitude, replaced by [mag_sat] where it
    equals [sat]. *)
Theorem catalogue_holds_the_stars (ra dec mag : list R) (fn path : string)
    (sat : R) (mag_sat ifs_sat mag_limit : option R) (d : env) :
  let r := pampelmuse_cat ra dec mag fn None path sat mag_sat ifs_sat mag_limit d in
  let cat := map (desaturated sat mag_sat)
               (filter (λ s, within mag_limit s = true) (stars ra dec mag)) in
  length dec = length ra → length mag = length ra →
  (Z.of_nat (length ra) < 2147483648)%Z →
  fn ≠ EmptyString → str_lower fn ∉ ["id"; "ra"; "dec"]%string →
  r.1 = Ok tt ∧
  lookup_file (path +:+ "/" +:+ str_upper fn) (files r.2)
  = Some (AsciiTable (MkTable ["id"; "ra"; "dec"; str_lower fn]%string
                        (map star_id cat) (map star_ra cat)
                        (map star_dec cat) (map star_mag cat))).
Proof.
  intros r cat Hd Hm Hn Hfn Hname. subst r.
  rewrite pampelmuse_cat_run by done. cbv zeta.
  rewrite not_in_existsb by done.
  destruct (String.eqb_spec fn EmptyString) as [|_]; [done|].
  simpl. split; [done|]. rewrite String.eqb_refl. do 3 f_equal.
  - subst cat. rewrite !map_map. apply map_ext_in. intros s Hs.
    assert (star_id (desaturated sat mag_sat s) = star_id s) as ->.
    { unfold desaturated, star_id. destruct mag_sat; [|done].
      by destruct (Req_b s.2 sat). }
    apply as_i4_small.
    apply list_elem_of_In, list_elem_of_filter in Hs as [_ Hs].
    apply stars_ids in Hs; [lia|done|done].
  - subst cat. rewrite !map_map. apply map_ext. intros s.
    unfold desaturated, star_ra. destruct mag_sat; [|done].
    by destruct (Req_b s.2 sat).
  - subst cat. rewrite !map_map. apply map_ext. intros s.
    unfold desaturated, star_dec. destruct mag_sat; [|done].
    by destruct (Req_b s.2 sat).
Qed.

(** X12.  The list of saturated stars: with [ifs_sat] given (arrays of one
    length, no [idx]) the file [path/ifs_sat_id.list] holds, between
    brackets and each followed by a comma, the numbers of the stars not
    fainter than [mag_limit] that are brighter than [ifs_sat] and do not
    carry the value [sat]; it does so whether or not the catalogue itself
    could be written. *)
Theorem saturated_list_is_written (ra dec mag : list R) (fn path : string)
    (sat f : R) (mag_sat mag_limit : option R) (d : env) :
  let r := pampelmuse_cat ra dec mag fn None path sat mag_sat (Some f) mag_limit d in
  length dec = length ra → length mag = length ra →
  lookup_file (path +:+ "/ifs_sat_id.list") (files r.2)
  = Some (id_list (map star_id
            (filter (λ s, ifs_saturated sat f s = true)
               (filter (λ s, within mag_limit s = true) (stars ra dec mag))))).
Proof.
  intros r Hd Hm. subst r.
  rewrite pampelmuse_cat_run by done. cbv zeta.
  destruct (existsb _ _);
    [cbn [files lookup_file snd]; by rewrite String.eqb_refl|].
  destruct (String.eqb fn EmptyString);
    [cbn [files lookup_file snd]; by rewrite String.eqb_refl|].
  cbn [files lookup_file snd].
  by rewrite catalogue_is_not_the_list, String.eqb_refl.
Qed.

(** X13.  A filter called as one of the other columns ([id], [ra] or
    [dec], in any case of letters) stops [pampelmuse_cat] with the
    ValueError of the table, after the list of saturated stars has been
    written: that file is the only change. *)
Theorem list_without_catalogue (ra dec mag : list R) (fn path : string)
    (sat f : R) (mag_sat mag_limit : option R) (d : env) :
  let r := pampelmuse_cat ra dec mag fn None path sat mag_sat (Some f) mag_limit d in
  length dec = length ra → length mag = length ra →
  str_lower fn ∈ ["id"; "ra"; "dec"]%string →
  r.1 = Raise ValueError ∧
  r.2 = Env ((path +:+ "/ifs_sat_id.list",
              id_list (map star_id
                (filter (λ s, ifs_saturated sat f s = true)
                   (filter (λ s, within mag_limit s = true) (stars ra dec mag)))))
             :: files d) (dirs d) (stdout d).
Proof.
  intros r Hd Hm Hname. subst r.
  rewrite pampelmuse_cat_run by done. cbv zeta.
  by rewrite in_existsb by done.
Qed.

(** X14.  An array of two or more identifiers cannot be given: the test
    [idx == None] compares the array entry by entry, the truth value of the
    outcome is a ValueError, and nothing is written. *)
Theorem index_array_is_refused (ra dec mag : list R) (fn path : string)
    (a : list Z) (sat : R) (mag_sat ifs_sat mag_limit : option R) (d : env) :
  2 ≤ length a →
  pampelmuse_cat ra dec mag fn (Some a) path sat mag_sat ifs_sat mag_limit d
  = (Raise ValueError, d).
Proof.
  intros Ha. unfold pampelmuse_cat. unfold io_bind at 1.
  destruct (2 <=? length a) eqn:Hl; [done|]. apply Nat.leb_gt in Hl. lia.
Qed.

Lemma select_take {A} (a : list A) (mask : list bool) :
  select (take (length mask) a) mask = select a mask.
Proof.
  revert a. induction mask as [|b mask IH]; intros [|x a]; simpl; try done.
  by rewrite IH.
Qed.

Lemma getitem_where_take {A} (a : list A) (mask : list bool) :
  length mask ≤ length a →
  getitem_where a (np_where mask)
  = getitem_where (take (length mask) a) (np_where mask).
Proof.
  intros Hl. rewrite !getitem_where_select; [by rewrite select_take|..].
  - rewrite length_take. lia.
  - done.
Qed.

(** X15.  The lengths of the arrays are checked by the table only: without
    a limit, arrays of different lengths end in its ValueError, nothing
    being written; with [mag_limit] the same call goes through when [mag]
    is the shortest array, the entries of [ra] and [dec] beyond the length
    of [mag] being dropped without a word. *)
Theorem limit_hides_longer_arrays (ra dec mag : list R) (fn path : string)
    (sat lim : R) (mag_sat ifs_sat : option R) (d : env) :
  length mag ≤ length ra → length mag ≤ length dec →
  length dec ≠ length ra ∨ length mag ≠ length ra →
  pampelmuse_cat ra dec mag fn None path sat mag_sat None None d
    = (Raise ValueError, d) ∧
  pampelmuse_cat ra dec mag fn None path sat mag_sat ifs_sat (Some lim) d
    = pampelmuse_cat (take (length mag) ra) (take (length mag) dec) mag fn None
        path sat mag_sat ifs_sat (Some lim) d.
Proof.
  intros Hr Hd Hne. split.
  - unfold pampelmuse_cat, io_bind, io_ret, io_lift, Table. cbv beta iota zeta.
    rewrite length_map. unfold np_arange. rewrite length_map, length_seq.
    rewrite Nat.eqb_refl. simpl andb.
    destruct (Nat.eqb_spec (length dec) (length ra)); simpl andb.
    + destruct (Nat.eqb_spec (length mag) (length ra)); [|done].
      destruct Hne; done.
    + done.
  - unfold pampelmuse_cat. unfold io_bind at 1 3. unfold io_ret at 1 3.
    unfold io_bind at 1 5. cbv zeta.
    set (mask := map (λ m, Rle_b m lim) mag).
    assert (length mask = length mag) as Hmask by (subst mask; by rewrite length_map).
    assert (length (take (length mag) ra) = length mag) as Hlr
      by (rewrite length_take; lia).
    rewrite Hlr.
    assert (getitem_where (map (λ i, (i + 1)%Z) (np_arange (length ra))) (np_where mask)
            = getitem_where (map (λ i, (i + 1)%Z) (np_arange (length mag)))
                (np_where mask)) as ->.
    { rewrite getitem_where_take
        by (rewrite length_map; unfold np_arange; rewrite length_map, length_seq; lia).
      rewrite Hmask. unfold np_arange. rewrite !firstn_map, take_seq.
      by replace (length mag `min` length ra) with (length mag) by lia. }
    rewrite (getitem_where_take ra mask) by lia.
    rewrite (getitem_where_take dec mask) by lia.
    by rewrite Hmask.
Qed.

(** ** The catalogue of three stars *)

Ltac not_a_column :=
  vm_compute; intros H;
  repeat (apply elem_of_cons in H as [H|H]; [discriminate H|]);
  by apply elem_of_nil in H.

Lemma catalogue_holds_the_stars_witness :
  (pampelmuse_cat Field.ra Field.dec Field.mag "F814W" None "/cat"
     0 (Some 9%R) (Some 6%R) (Some 6%R) Field.nothing).1 = Ok tt.
Proof.
  apply (catalogue_holds_the_stars Field.ra Field.dec Field.mag "F814W" "/cat"
           0 (Some 9%R) (Some 6%R) (Some 6%R) Field.nothing).
  - reflexivity.
  - reflexivity.
  - simpl. lia.
  - discriminate.
  - not_a_column.
Defined.

Lemma saturated_list_is_written_witness :
  lookup_file "/cat/ifs_sat_id.list"
    (files (pampelmuse_cat Field.ra Field.dec Field.mag "F814W" None "/cat"
              0 (Some 9%R) (Some 6%R) (Some 6%R) Field.nothing).2)
  = Some (id_list (map star_id
            (filter (λ s, ifs_saturated 0 6 s = true)
               (filter (λ s, within (Some 6%R) s = true)
                  (stars Field.ra Field.dec Field.mag))))).
Proof.
  apply (saturated_list_is_written Field.ra Field.dec Field.mag "F814W" "/cat"
           0 6 (Some 9%R) (Some 6%R) Field.nothing).
  - reflexivity.
  - reflexivity.
Defined.

Lemma list_without_catalogue_witness :
  (pampelmuse_cat Field.ra Field.dec Field.mag "Dec" None "/cat"
     0 (Some 9%R) (Some 6%R) None Field.nothing).1 = Raise ValueError.
Proof.
  apply (list_without_catalogue Field.ra Field.dec Field.mag "Dec" "/cat"
           0 6 (Some 9%R) None Field.nothing).
  - reflexivity.
  - reflexivity.
  - vm_compute. apply elem_of_cons. right. apply elem_of_cons. right.
    apply elem_of_cons. by left.
Defined.

Lemma index_array_is_refused_witness :
  pampelmuse_cat Field.ra Field.dec Field.mag "F814W" (Some [7; 8; 9]%Z) "/cat"
    0 None None None Field.nothing
  = (Raise ValueError, Field.nothing).
Proof.
  apply (index_array_is_refused Field.ra Field.dec Field.mag "F814W" "/cat"
           [7; 8; 9]%Z 0 None None None Field.nothing).
  simpl. lia.
Defined.

Lemma limit_hides_longer_arrays_witness :
  pampelmuse_cat [10; 20; 30; 40]%R Field.dec Field.mag "F814W" None "/cat"
    0 None None None Field.nothing
  = (Raise ValueError, Field.nothing) ∧
  pampelmuse_cat [10; 20; 30; 40]%R Field.dec Field.mag "F814W" None "/cat"
    0 None None (Some 6%R) Field.nothing
  = pampelmuse_cat Field.ra Field.dec Field.mag "F814W" None "/cat"
      0 None None (Some 6%R) Field.nothing.
Proof.
  apply (limit_hides_longer_arrays [10; 20; 30; 40]%R Field.dec Field.mag "F814W"
           "/cat" 0 6 None None Field.nothing).
  - simpl. lia.
  - simpl. lia.
  - left. simpl. lia.
Defined.

(** * [cubes.py]: line maps and mosaics *)

(** ** Paths, files and directories *)

Lemma prefix_append (p a b : string) :
  String.prefix (p +:+ a) (p +:+ b) = String.prefix a b.
Proof.
  induction p as [|c p IH]; simpl; [done|].
  destruct (Ascii.ascii_dec c c); [done|done].
Qed.

Lemma append_assoc (a b c : string) : (a +:+ b) +:+ c = a +:+ (b +:+ c).
Proof. induction a as [|x a IH]; simpl; [done|]. by rewrite IH. Qed.

Lemma length_append (a b : string) :
  String.length (a +:+ b) = String.length a + String.length b.
Proof. induction a as [|x a IH]; simpl; [done|]. by rewrite IH. Qed.

Lemma append_inj_r (a b s : string) : a +:+ s = b +:+ s → a = b.
Proof.
  revert b. induction a as [|x a IH]; intros [|y b] H; simpl in *.
  - done.
  - apply (f_equal String.length) in H. simpl in H. rewrite length_append in H. lia.
  - apply (f_equal String.length) in H. simpl in H. rewrite length_append in H. lia.
  - injection H as -> H. f_equal. by apply IH.
Qed.

Lemma lookup_file_app (p : string) (l1 l2 : list (string * file)) :
  lookup_file p (l1 ++ l2) =
    match lookup_file p l1 with
    | Some c => Some c
    | None => lookup_file p l2
    end.
Proof.
  induction l1 as [|[q c] l1 IH]; simpl; [done|].
  by destruct (String.eqb q p).
Qed.

Lemma lookup_file_None (p : string) (l : list (string * file)) :
  p ∉ map fst l → lookup_file p l = None.
Proof.
  induction l as [|[q c] l IH]; simpl; [done|]. intros Hn.
  destruct (String.eqb_spec q p) as [->|Hqp].
  - destruct Hn. by left.
  - apply IH. intros Hin. destruct Hn. by right.
Qed.

Lemma lookup_file_NoDup (p : string) (c : file) (l : list (string * file)) :
  NoDup (map fst l) → (p, c) ∈ l → lookup_file p l = Some c.
Proof.
  induction l as [|[q c'] l IH]; simpl; intros Hnd Hin.
  - by apply elem_of_nil in Hin.
  - apply NoDup_cons in Hnd as [Hq Hnd].
    apply elem_of_cons in Hin as [[= <- <-]|Hin].
    + by rewrite String.eqb_refl.
    + destruct (String.eqb_spec q p) as [->|_]; [|by apply IH].
      destruct Hq. apply list_elem_of_In, in_map_iff. exists (p, c).
      split; [done|]. by apply list_elem_of_In.
Qed.

Lemma lookup_file_rev (p : string) (c : file) (l fs : list (string * file)) :
  NoDup (map fst l) → (p, c) ∈ l → lookup_file p (rev l ++ fs) = Some c.
Proof.
  intros Hnd Hin. rewrite lookup_file_app.
  rewrite (lookup_file_NoDup p c); [done| |].
  - rewrite map_rev. by apply NoDup_ListNoDup, List.NoDup_rev, NoDup_ListNoDup.
  - by apply list_elem_of_In, in_rev, list_elem_of_In in Hin.
Qed.

Lemma lookup_file_outside (P p : string) (fs : list (string * file)) :
  lookup_file p (filter (λ f, outside P f.1 = true) fs)
  = if String.prefix P p then None else lookup_file p fs.
Proof.
  induction fs as [|[q c] fs IH]; simpl.
  - by destruct (String.prefix P p).
  - rewrite filter_cons. simpl. case_decide as Ho; unfold outside in Ho.
    + apply negb_true_iff in Ho. simpl. rewrite IH.
      destruct (String.eqb_spec q p) as [->|_]; [by rewrite Ho|done].
    + apply not_true_is_false, negb_false_iff in Ho. rewrite IH.
      destruct (String.eqb_spec q p) as [->|_]; [by rewrite Ho|done].
Qed.

Lemma make_dir_run (p : string) (d : env) :
  make_dir p d =
    (Ok tt, Env (files d)
              (if existsb (String.eqb p) (dirs d) then dirs d else p :: dirs d)
              (stdout d)).
Proof.
  unfold make_dir, io_bind, os_path_exists, os_mkdir, io_ret. destruct d as [fs ds out].
  simpl. destruct (existsb (String.eqb p) ds) eqn:He; [done|]. by rewrite He.
Qed.

Lemma rmtree_run (p : string) (fs : list (string * file)) (ds : list string)
    (out : list (list pitem)) :
  existsb (String.eqb p) ds = true →
  shutil_rmtree p (Env fs ds out) =
    (Ok tt, Env (filter (λ f, outside p f.1 = true) fs)
              (filter (λ q, outside p q = true) ds) out).
Proof. intros H. unfold shutil_rmtree. by rewrite H. Qed.

Lemma existsb_eqb_elem (p : string) (ds : list string) :
  existsb (String.eqb p) ds = true ↔ p ∈ ds.
Proof.
  rewrite existsb_exists. split.
  - intros (x & Hx & He). apply String.eqb_eq in He as ->. by apply list_elem_of_In.
  - intros H. exists p. split; [by apply list_elem_of_In|apply String.eqb_refl].
Qed.

Lemma prefix_refl (p : string) : String.prefix p p = true.
Proof.
  induction p as [|c p IH]; simpl; [done|].
  by destruct (Ascii.ascii_dec c c).
Qed.

(** ** [linemaps] *)

Section LineMaps.

Variable L : libraries.

(** The loop of lines 306-309. *)
Lemma maps_loop (cube : hdu) (path : string) (pairs : list (R * string)) (d : env) :
  let r := io_for pairs (λ we,
             let+ slab := io_lift (slab_sum L cube (we.1 - 3) (we.1 + 3)) in
             write_file (path +:+ "/" +:+ we.2 +:+ ".fits") (Fits [slab])) d in
  ∃ written,
    r.2 = Env (written ++ files d) (dirs d) (stdout d) ∧
    Forall (λ q, ∃ e, e ∈ map snd pairs ∧ q.1 = path +:+ "/" +:+ e +:+ ".fits") written ∧
    (r.1 = Ok tt →
     ∃ slabs,
       Forall2 (λ we s, slab_sum L cube (we.1 - 3) (we.1 + 3) = Ok s) pairs slabs ∧
       written = rev (zip_with (λ we s, (path +:+ "/" +:+ we.2 +:+ ".fits", Fits [s]))
                        pairs slabs)).
Proof.
  revert d. induction pairs as [|we pairs IH]; intros d; simpl.
  - exists []. destruct d. simpl. split; [done|]. split; [done|].
    intros _. exists []. by split.
  - unfold io_bind at 1. unfold io_bind at 1. unfold io_lift at 1.
    destruct (slab_sum L cube (we.1 - 3) (we.1 + 3)) as [s|e] eqn:Hs.
    + destruct d as [fs ds out]. unfold write_file at 1. cbv beta iota.
      destruct (IH (Env ((path +:+ "/" +:+ we.2 +:+ ".fits", Fits [s]) :: fs) ds out))
        as (written & Hw & Hall & Hok).
      simpl in Hw, Hok |- *.
      exists (written ++ [(path +:+ "/" +:+ we.2 +:+ ".fits", Fits [s])]).
      split; [by rewrite Hw, <- app_assoc|]. split.
      * apply Forall_app. split.
        -- eapply Forall_impl; [exact Hall|]. intros q (e & He & Hq).
           exists e. split; [by right|done].
        -- apply Forall_singleton. exists we.2. split; [by left|done].
      * intros Hr. destruct (Hok Hr) as (slabs & Hf & ->).
        exists (s :: slabs). split; [by constructor|done].
    + exists []. destruct d. simpl. split; [done|]. split; [done|]. done.
Qed.

(** [linemaps] once the lines are known. *)
Lemma linemaps_run (input_fits path : string) (elements : option (list string))
    (wavelengths : option (list R)) (d : env) :
  elements = None ∨ is_Some wavelengths →
  linemaps L input_fits path elements wavelengths d =
    let d1 := (make_dir (path +:+ "temp/") d).2 in
    match lookup_file (path +:+ "/" +:+ input_fits) (files d) with
    | None => (Raise FileNotFoundError, d1)
    | Some f =>
        match SpectralCube_read L f with
        | Raise e => (Raise e, d1)
        | Ok cube =>
            match io_for (line_list elements wavelengths) (λ we,
                    let+ slab := io_lift (slab_sum L cube (we.1 - 3) (we.1 + 3)) in
                    write_file (path +:+ "/" +:+ we.2 +:+ ".fits") (Fits [slab])) d1 with
            | (Ok _, d2) => shutil_rmtree (path +:+ "temp/") d2
            | (Raise e, d2) => (Raise e, d2)
            end
        end
    end.
Proof.
  intros Hgo. unfold linemaps, line_list.
  assert (∃ es ws,
    (match elements with
     | None => (Some default_elements, Some default_wavelengths)
     | Some _ => (elements, wavelengths)
     end) = (Some es, Some ws) ∧
    match elements with
    | None => zip default_wavelengths default_elements
    | Some es => zip (default [] wavelengths) es
    end = zip ws es) as (es & ws & -> & ->).
  { destruct elements as [es|].
    - destruct Hgo as [|[ws ->]]; [done|]. by exists es, ws.
    - by exists default_elements, default_wavelengths. }
  cbv zeta. unfold io_bind at 1. unfold io_ret at 1.
  unfold io_bind at 1. rewrite make_dir_run. cbn [snd].
  unfold io_bind at 1. unfold read_file at 1. cbn [files].
  destruct (lookup_file _ (files d)) as [f|]; [|done].
  unfold io_bind at 1. unfold io_lift at 1.
  destruct (SpectralCube_read L f) as [cube|e]; [|done].
  unfold io_bind at 1. simpl default.
  by destruct (io_for _ _ _) as [[[]|e] d2].
Qed.

Lemma linemaps_exit (input_fits path : string) (elements : list string) (d : env) :
  linemaps L input_fits path (Some elements) None d
  = (Raise SystemExit,
     Env (files d) (dirs d)
         (stdout d ++ [[PStr "Error: element but no wavelength given"]])).
Proof. unfold linemaps. by destruct d. Qed.

(** X16.  Wavelengths are taken with elements only: without [elements]
    the lines are the four of the source, whatever [wavelengths] is given. *)
Theorem wavelengths_need_elements (input_fits path : string)
    (wavelengths : option (list R)) :
  linemaps L input_fits path None wavelengths
  = linemaps L input_fits path (Some default_elements) (Some default_wavelengths).
Proof. reflexivity. Qed.

(** X17.  Elements without wavelengths end the program: one line is
    printed, SystemExit is raised, and no file or directory is touched. *)
Theorem elements_without_wavelengths (input_fits path : string)
    (elements : list string) (d : env) :
  linemaps L input_fits path (Some elements) None d
  = (Raise SystemExit,
     Env (files d) (dirs d)
         (stdout d ++ [[PStr "Error: element but no wavelength given"]])).
Proof. apply linemaps_exit. Qed.

(** X18.  The scratch directory of [linemaps] is [path] followed by
    [temp/], without a slash between them.  When the call returns, that
    directory is gone with every file and directory below it, also those
    that were there before the call; a file elsewhere that is not one of
    the maps is what it was. *)
Theorem linemaps_empties_temp (input_fits path : string)
    (elements : option (list string)) (wavelengths : option (list R)) (d : env) :
  let r := linemaps L input_fits path elements wavelengths d in
  r.1 = Ok tt →
  (∀ p, String.prefix (path +:+ "temp/") p = true →
        lookup_file p (files r.2) = None ∧ p ∉ dirs r.2) ∧
  (∀ p, String.prefix (path +:+ "temp/") p = false →
        (∀ e, e ∈ map snd (line_list elements wavelengths) →
              p ≠ path +:+ "/" +:+ e +:+ ".fits") →
        lookup_file p (files r.2) = lookup_file p (files d)).
Proof.
  intros r Hr. subst r.
  assert (elements = None ∨ is_Some wavelengths) as Hgo.
  { destruct elements as [es|]; [|by left]. destruct wavelengths as [ws|]; [by right|].
    by rewrite linemaps_exit in Hr. }
  rewrite linemaps_run in Hr |- * by done. cbv zeta in Hr |- *.
  rewrite make_dir_run in Hr |- *. cbn [snd] in Hr |- *.
  destruct (lookup_file _ (files d)) as [f|]; [|done].
  destruct (SpectralCube_read L f) as [cube|e]; [|done].
  match goal with |- context [io_for ?ps ?body ?d1] =>
    destruct (maps_loop cube path ps d1) as (written & Hw & Hall & _);
    destruct (io_for ps body d1) as [[[]|e] d2] end; [|done].
  cbn [fst snd files dirs stdout] in Hw, Hr |- *. subst d2.
  assert (existsb (String.eqb (path +:+ "temp/"))
            (if existsb (String.eqb (path +:+ "temp/")) (dirs d)
             then dirs d else (path +:+ "temp/") :: dirs d) = true) as Hthere.
  { destruct (existsb _ (dirs d)) eqn:He; [done|]. simpl.
    by rewrite String.eqb_refl. }
  rewrite rmtree_run by done. cbn [snd files dirs]. split.
  - intros p Hp. split.
    + by rewrite lookup_file_outside, Hp.
    + intros Hin. apply list_elem_of_filter in Hin as [Ho _].
      unfold outside in Ho. by rewrite Hp in Ho.
  - intros p Hp Hmaps. rewrite lookup_file_outside, Hp, lookup_file_app.
    rewrite lookup_file_None; [done|].
    intros Hin. apply list_elem_of_In, in_map_iff in Hin as (q & <- & Hq).
    apply list_elem_of_In in Hq.
    eapply Forall_forall in Hall as (e & He & Hqe); [|exact Hq].
    by apply (Hmaps e).
Qed.

Lemma map_name_outside_temp (path e : string) :
  String.prefix (path +:+ "temp/") (path +:+ "/" +:+ e +:+ ".fits") = false.
Proof. by rewrite prefix_append. Qed.

Lemma map_name_inj (path e e' : string) :
  path +:+ "/" +:+ e +:+ ".fits" = path +:+ "/" +:+ e' +:+ ".fits" → e = e'.
Proof.
  intros H. apply append_inj in H. apply (append_inj "/") in H.
  by apply append_inj_r in H.
Qed.

(** X19.  The maps of [linemaps]: when the call returns, the cube was
    read from [path/input_fits], and for every line (wavelength [w],
    element [e]; the elements being different from one another) the file
    [path/e.fits] holds the sum of the slab from [w - 3] to [w + 3] of that
    cube; removing the scratch directory does not take a map away. *)
Theorem linemaps_writes_the_maps (input_fits path : string)
    (elements : option (list string)) (wavelengths : option (list R)) (d : env) :
  let r := linemaps L input_fits path elements wavelengths d in
  r.1 = Ok tt →
  NoDup (map snd (line_list elements wavelengths)) →
  ∃ f cube,
    lookup_file (path +:+ "/" +:+ input_fits) (files d) = Some f ∧
    SpectralCube_read L f = Ok cube ∧
    ∀ w e, (w, e) ∈ line_list elements wavelengths →
      ∃ slab, slab_sum L cube (w - 3) (w + 3) = Ok slab ∧
              lookup_file (path +:+ "/" +:+ e +:+ ".fits") (files r.2)
              = Some (Fits [slab]).
Proof.
  intros r Hr Hnd. subst r.
  assert (elements = None ∨ is_Some wavelengths) as Hgo.
  { destruct elements as [es|]; [|by left]. destruct wavelengths as [ws|]; [by right|].
    by rewrite linemaps_exit in Hr. }
  rewrite linemaps_run in Hr |- * by done. cbv zeta in Hr |- *.
  rewrite make_dir_run in Hr |- *. cbn [snd] in Hr |- *.
  destruct (lookup_file _ (files d)) as [f|] eqn:Hf; [|done].
  destruct (SpectralCube_read L f) as [cube|e] eqn:Hcube; [|done].
  exists f, cube. split; [done|]. split; [done|].
  match goal with |- context [io_for ?ps ?body ?d1] =>
    destruct (maps_loop cube path ps d1) as (written & Hw & _ & Hok);
    destruct (io_for ps body d1) as [[[]|e] d2] end; [|done].
  cbn [fst snd files dirs stdout] in Hw, Hr, Hok |- *. subst d2.
  destruct (Hok eq_refl) as (slabs & Hslabs & ->). clear Hok.
  assert (existsb (String.eqb (path +:+ "temp/"))
            (if existsb (String.eqb (path +:+ "temp/")) (dirs d)
             then dirs d else (path +:+ "temp/") :: dirs d) = true) as Hthere.
  { destruct (existsb _ (dirs d)) eqn:He; [done|]. simpl.
    by rewrite String.eqb_refl. }
  rewrite rmtree_run by done. cbn [snd files].
  intros w e Hin.
  apply list_elem_of_lookup in Hin as [k Hk].
  destruct (Forall2_lookup_l _ _ _ _ _ Hslabs Hk) as (slab & Hks & Hslab).
  exists slab. split; [done|].
  rewrite lookup_file_outside, map_name_outside_temp.
  set (mk := λ (we : R * string) (s : hdu),
               (path +:+ "/" +:+ we.2 +:+ ".fits", Fits [s])).
  apply lookup_file_rev.
  - assert (map fst (zip_with mk (line_list elements wavelengths) slabs)
            = map (λ e, path +:+ "/" +:+ e +:+ ".fits")
                (map snd (line_list elements wavelengths))) as Hkeys.
    { clear -Hslabs. induction Hslabs as [|we s ps ss _ _ IH]; simpl; [done|].
      by rewrite IH. }
    rewrite Hkeys.
    apply NoDup_fmap_2_strong; [|done].
    intros a b _ _. apply map_name_inj.
  - apply list_elem_of_lookup. exists k.
    rewrite lookup_zip_with, Hk. simpl. by rewrite Hks.
Qed.

Lemma zip_take_min {A B} (a : list A) (b : list B) :
  zip (take (length a `min` length b) a) (take (length a `min` length b) b) = zip a b.
Proof.
  revert b. induction a as [|x a IH]; intros [|y b]; simpl; try done.
  by rewrite IH.
Qed.

(** X20.  Lists of different lengths are cut to the shorter one without a
    word: the elements, or the wavelengths, beyond the length of the
    other list get no map. *)
Theorem surplus_lines_are_dropped (input_fits path : string)
    (elements : list string) (wavelengths : list R) :
  let n := length elements `min` length wavelengths in
  linemaps L input_fits path (Some elements) (Some wavelengths)
  = linemaps L input_fits path (Some (take n elements)) (Some (take n wavelengths)).
Proof.
  intros n. subst n. unfold linemaps. simpl default.
  by rewrite (Nat.min_comm (length elements)), zip_take_min.
Qed.

(** X21.  Nothing is tidied up after a failure: when [linemaps] raises
    after the check of its arguments (no cube at [path/input_fits], a file
    that cannot be read as a cube, a slab that cannot be made), the
    scratch directory is still there. *)
Theorem failed_linemaps_leaves_temp (input_fits path : string)
    (elements : option (list string)) (wavelengths : option (list R)) (d : env) :
  let r := linemaps L input_fits path elements wavelengths d in
  elements = None ∨ is_Some wavelengths →
  r.1 ≠ Ok tt →
  path +:+ "temp/" ∈ dirs r.2.
Proof.
  intros r Hgo Hr. subst r.
  rewrite linemaps_run in Hr |- * by done. cbv zeta in Hr |- *.
  rewrite make_dir_run in Hr |- *. cbn [snd] in Hr |- *.
  assert (existsb (String.eqb (path +:+ "temp/"))
            (if existsb (String.eqb (path +:+ "temp/")) (dirs d)
             then dirs d else (path +:+ "temp/") :: dirs d) = true) as Hthere.
  { destruct (existsb _ (dirs d)) eqn:He; [done|]. simpl.
    by rewrite String.eqb_refl. }
  destruct (lookup_file _ (files d)) as [f|];
    [|by apply existsb_eqb_elem].
  destruct (SpectralCube_read L f) as [cube|e];
    [|by apply existsb_eqb_elem].
  match goal with |- context [io_for ?ps ?body ?d1] =>
    destruct (maps_loop cube path ps d1) as (written & Hw & _ & _);
    destruct (io_for ps body d1) as [[[]|e] d2] end.
  - cbn [fst snd files dirs stdout] in Hw, Hr |- *. subst d2.
    by rewrite rmtree_run in Hr by done.
  - cbn [fst snd files dirs stdout] in Hw, Hr |- *. subst d2.
    by apply existsb_eqb_elem.
Qed.

End LineMaps.

(** ** [mosaics] *)

Lemma str_int_inj (a b : Z) : str_int a = str_int b → a = b.
Proof.
  unfold str_int. intros H.
  assert (∀ z, Z.to_int z ≠ Decimal.Pos Decimal.Nil ∧
               Z.to_int z ≠ Decimal.Neg Decimal.Nil) as Hnil.
  { intros z. split; intros Hz.
    - pose proof (f_equal Z.of_int Hz) as Hz'. rewrite DecimalZ.of_to in Hz'.
      subst z. by vm_compute in Hz.
    - pose proof (f_equal Z.of_int Hz) as Hz'. rewrite DecimalZ.of_to in Hz'.
      subst z. by vm_compute in Hz. }
  apply DecimalZ.to_int_inj.
  destruct (Hnil a) as [Ha1 Ha2], (Hnil b) as [Hb1 Hb2].
  pose proof (DecimalString.NilZero.isi _ Ha1 Ha2) as Ia.
  pose proof (DecimalString.NilZero.isi _ Hb1 Hb2) as Ib.
  rewrite H in Ia. rewrite Ia in Ib. by injection Ib.
Qed.

Lemma staged_inj (path : string) (j k : nat) : staged path j = staged path k → j = k.
Proof.
  unfold staged. intros H. apply append_inj in H. apply (append_inj "/temp/") in H.
  apply append_inj_r, str_int_inj in H. lia.
Qed.

Lemma io_bind_assoc {A B C} (m : IO A) (f : A → IO B) (g : B → IO C) :
  io_bind (io_bind m f) g = io_bind m (λ x, io_bind (f x) g).
Proof.
  apply functional_extensionality. intros d. unfold io_bind.
  by destruct (m d) as [[a|e] d'].
Qed.

Lemma copy_run (src dst : string) (d : env) :
  shutil_copy src dst d =
    if String.eqb src dst then (Raise SameFileError, d)
    else match lookup_file src (files d) with
         | Some c => (Ok tt, Env ((dst, c) :: files d) (dirs d) (stdout d))
         | None => (Raise FileNotFoundError, d)
         end.
Proof.
  unfold shutil_copy. destruct (String.eqb src dst); [done|].
  unfold io_bind, read_file, write_file.
  destruct (lookup_file src (files d)); by destruct d.
Qed.

Lemma stage_step (path f : string) (l : list string) (k : nat) (d : env) :
  io_for (zip (seq k (S (length l))) (f :: l))
    (λ f, shutil_copy f.2 (staged path f.1)) d =
  match shutil_copy f (staged path k) d with
  | (Ok _, d') =>
      io_for (zip (seq (S k) (length l)) l) (λ f, shutil_copy f.2 (staged path f.1)) d'
  | (Raise e, d') => (Raise e, d')
  end.
Proof. reflexivity. Qed.

(** The loop of lines 338-339, from the input number [k] on. *)
Lemma stage_loop (path : string) (l : list string) (k : nat) (d : env) :
  let r := io_for (zip (seq k (length l)) l)
             (λ f, shutil_copy f.2 (staged path f.1)) d in
  ∃ written,
    r.2 = Env (written ++ files d) (dirs d) (stdout d) ∧
    Forall (λ q, ∃ j, k ≤ j < k + length l ∧ q.1 = staged path j) written.
Proof.
  revert k d. induction l as [|f l IH]; intros k d; cbv zeta.
  - exists []. by destruct d.
  - cbn [length]. rewrite stage_step, copy_run.
    destruct (String.eqb f (staged path k));
      [exists []; by destruct d|].
    destruct (lookup_file f (files d)) as [c|];
      [|exists []; by destruct d].
    destruct (IH (S k) (Env ((staged path k, c) :: files d) (dirs d) (stdout d)))
      as (written & Hw & Hall).
    cbv zeta in Hw. cbn [files dirs stdout] in Hw.
    exists (written ++ [(staged path k, c)]).
    split; [by rewrite Hw, <- app_assoc|].
    apply Forall_app. split.
    + eapply Forall_impl; [exact Hall|]. intros q (j & Hj & Hq). exists j.
      split; [lia|done].
    + apply Forall_singleton. exists k. split; [lia|done].
Qed.

Lemma stage_loop_ok (path : string) (l : list string) (k : nat) (d : env) :
  (∀ f, f ∈ l → is_Some (lookup_file f (files d))) →
  (∀ f j, f ∈ l → k ≤ j < k + length l → f ≠ staged path j) →
  let r := io_for (zip (seq k (length l)) l)
             (λ f, shutil_copy f.2 (staged path f.1)) d in
  r.1 = Ok tt ∧
  ∀ i f, l !! i = Some f →
    lookup_file (staged path (k + i)) (files r.2) = lookup_file f (files d).
Proof.
  revert k d. induction l as [|f0 l IH]; intros k d Hex Hne; cbv zeta.
  - split; [done|]. intros i f Hi. done.
  - cbn [length]. rewrite stage_step, copy_run.
    assert (f0 ≠ staged path k) as Hf0.
    { apply Hne; [by left|simpl; lia]. }
    apply String.eqb_neq in Hf0 as Hf0'. rewrite Hf0'.
    destruct (Hex f0) as [c Hc]; [by left|]. rewrite Hc.
    set (d' := Env ((staged path k, c) :: files d) (dirs d) (stdout d)).
    assert (∀ f, f ∈ l → lookup_file f (files d') = lookup_file f (files d)) as Hsame.
    { intros f Hf. simpl.
      destruct (String.eqb_spec (staged path k) f) as [<-|_]; [|done].
      exfalso. apply (Hne (staged path k) k); [by right|simpl; lia|done]. }
    destruct (IH (S k) d') as [Hok Hlook].
    { intros f Hf. rewrite Hsame by done. apply Hex. by right. }
    { intros f j Hf Hj. apply Hne; [by right|simpl; lia]. }
    split; [done|].
    intros [|i] f Hi; simpl in Hi.
    + injection Hi as <-. rewrite Nat.add_0_r.
      destruct (stage_loop path l (S k) d') as (written & Hw & Hall).
      cbv zeta in Hw. rewrite Hw. cbn [files]. rewrite lookup_file_app.
      rewrite lookup_file_None.
      * subst d'. simpl. by rewrite String.eqb_refl.
      * intros Hin. apply list_elem_of_In, in_map_iff in Hin as (q & Hq & Hin).
        apply list_elem_of_In in Hin.
        eapply Forall_forall in Hall as (j & Hj & Hqj); [|exact Hin].
        rewrite Hqj in Hq. apply staged_inj in Hq. lia.
    + replace (k + S i) with (S k + i) by lia. rewrite (Hlook i f Hi).
      apply Hsame. by eapply list_elem_of_lookup_2.
Qed.

Section Mosaics.

Variable L : libraries.

Lemma stage_run (input_list : list string) (path : string) (d : env) :
  ∃ ds, path +:+ "/temp/" ∈ ds ∧ path +:+ "/mosaics/" ∈ ds ∧
    (∀ q, q ∈ dirs d → q ∈ ds) ∧
    mosaics_stage input_list path d =
      io_for (zip (seq 0 (length input_list)) input_list)
        (λ f, shutil_copy f.2 (staged path f.1)) (Env (files d) ds (stdout d)).
Proof.
  unfold mosaics_stage, enumerate.
  set (ds1 := if existsb (String.eqb (path +:+ "/temp/")) (dirs d)
              then dirs d else (path +:+ "/temp/") :: dirs d).
  set (ds2 := if existsb (String.eqb (path +:+ "/mosaics/")) ds1
              then ds1 else (path +:+ "/mosaics/") :: ds1).
  assert (path +:+ "/temp/" ∈ ds1) as H1.
  { subst ds1. destruct (existsb _ (dirs d)) eqn:He; [by apply existsb_eqb_elem|by left]. }
  assert (∀ q, q ∈ ds1 → q ∈ ds2) as H12.
  { intros q Hq. subst ds2. destruct (existsb _ ds1); [done|by right]. }
  exists ds2. split; [by apply H12|]. split.
  { subst ds2. destruct (existsb _ ds1) eqn:He; [by apply existsb_eqb_elem|by left]. }
  split.
  { intros q Hq. apply H12. subst ds1. destruct (existsb _ (dirs d)); [done|by right]. }
  unfold io_bind at 1. rewrite make_dir_run. fold ds1.
  unfold io_bind at 1. rewrite make_dir_run. cbn [files dirs stdout]. by fold ds2.
Qed.

(** X22.  The inputs of a mosaic are staged in the order given: when every
    input is a file and none of them bears one of the staged names, the
    staging of lines 333-339 returns, and the file [path/temp/k.fits] that
    montage finds is the input number [k], counted from 0. *)
Theorem staging_copies_in_order (input_list : list string) (path : string) (d : env) :
  let r := mosaics_stage input_list path d in
  (∀ f, f ∈ input_list → is_Some (lookup_file f (files d))) →
  (∀ f j, f ∈ input_list → j < length input_list → f ≠ staged path j) →
  r.1 = Ok tt ∧
  ∀ k f, input_list !! k = Some f →
    lookup_file (staged path k) (files r.2) = lookup_file f (files d).
Proof.
  intros r Hex Hne. subst r.
  destruct (stage_run input_list path d) as (ds & _ & _ & _ & ->).
  apply (stage_loop_ok path input_list 0 (Env (files d) ds (stdout d))); [done|].
  intros f j Hf Hj. apply Hne; [done|lia].
Qed.

(** X23.  The staging writes the staged names and nothing else, and it
    does not clear the scratch directory first: a file that is not
    [path/temp/k.fits] for an input number [k] is after the staging what
    it was before, also a file left below [path/temp/] by an earlier
    call, which montage then finds among its inputs. *)
Theorem staging_keeps_other_files (input_list : list string) (path p : string)
    (d : env) :
  (∀ j, j < length input_list → p ≠ staged path j) →
  lookup_file p (files (mosaics_stage input_list path d).2) = lookup_file p (files d).
Proof.
  intros Hp.
  destruct (stage_run input_list path d) as (ds & _ & _ & _ & ->).
  destruct (stage_loop path input_list 0 (Env (files d) ds (stdout d)))
    as (written & Hw & Hall).
  cbv zeta in Hw. rewrite Hw. cbn [files]. rewrite lookup_file_app.
  rewrite lookup_file_None; [done|].
  intros Hin. apply list_elem_of_In, in_map_iff in Hin as (q & Hq & Hin).
  apply list_elem_of_In in Hin.
  eapply Forall_forall in Hall as (j & Hj & Hqj); [|exact Hin].
  apply (Hp j); [lia|]. by rewrite <- Hq, Hqj.
Qed.

Lemma mosaics_split (input_list : list string) (name path : string) :
  mosaics L input_list name path =
    (mosaics_stage input_list path ;+
     montage_mosaic L (path +:+ "/temp/") (path +:+ "/mosaic_temp/") ;+
     shutil_copy (path +:+ "/mosaic_temp/mosaic_area.fits")
                 (path +:+ "/mosaics/exp_" +:+ name +:+ ".fits") ;+
     shutil_copy (path +:+ "/mosaic_temp/mosaic.fits")
                 (path +:+ "/mosaics/" +:+ name +:+ ".fits") ;+
     shutil_rmtree (path +:+ "/mosaic_temp/") ;+
     shutil_rmtree (path +:+ "/temp/")).
Proof. unfold mosaics, mosaics_stage. by rewrite !io_bind_assoc. Qed.

(** X24.  Nothing is tidied up when the staging fails (an input that is
    missing, or that bears its own staged name): [mosaics] ends with that
    exception, montage is not called, and the directories [path/temp/]
    and [path/mosaics/] stay, with the copies made so far. *)
Theorem failed_staging_leaves_scratch (input_list : list string)
    (name path : string) (d : env) (e : exn) :
  (mosaics_stage input_list path d).1 = Raise e →
  mosaics L input_list name path d = (Raise e, (mosaics_stage input_list path d).2) ∧
  path +:+ "/temp/" ∈ dirs (mosaics_stage input_list path d).2 ∧
  path +:+ "/mosaics/" ∈ dirs (mosaics_stage input_list path d).2.
Proof.
  intros He. rewrite mosaics_split. unfold io_bind at 1.
  destruct (stage_run input_list path d) as (ds & Ht & Hm & _ & Hrun).
  rewrite Hrun in He |- *.
  destruct (stage_loop path input_list 0 (Env (files d) ds (stdout d)))
    as (written & Hw & _).
  cbv zeta in Hw.
  destruct (io_for _ _ _) as [[[]|e'] d2]; simpl in He; [done|].
  injection He as ->. split; [done|]. simpl in Hw |- *. by subst d2.
Qed.

(** X25.  What [mosaics] delivers: when the staging returns and montage
    then returns with its two files in [path/mosaic_temp/], the call
    returns, [path/mosaics/name.fits] holds the mosaic and
    [path/mosaics/exp_name.fits] its area map, and nothing is left of
    [path/temp/] and [path/mosaic_temp/]. *)
Theorem mosaics_delivers (input_list : list string) (name path : string)
    (d d1 d2 : env) (m a : file) :
  let r := mosaics L input_list name path d in
  mosaics_stage input_list path d = (Ok tt, d1) →
  montage_mosaic L (path +:+ "/temp/") (path +:+ "/mosaic_temp/") d1 = (Ok tt, d2) →
  lookup_file (path +:+ "/mosaic_temp/mosaic.fits") (files d2) = Some m →
  lookup_file (path +:+ "/mosaic_temp/mosaic_area.fits") (files d2) = Some a →
  path +:+ "/mosaic_temp/" ∈ dirs d2 → path +:+ "/temp/" ∈ dirs d2 →
  r.1 = Ok tt ∧
  lookup_file (path +:+ "/mosaics/" +:+ name +:+ ".fits") (files r.2) = Some m ∧
  lookup_file (path +:+ "/mosaics/exp_" +:+ name +:+ ".fits") (files r.2) = Some a ∧
  ∀ p, String.prefix (path +:+ "/temp/") p = true
       ∨ String.prefix (path +:+ "/mosaic_temp/") p = true →
       lookup_file p (files r.2) = None ∧ p ∉ dirs r.2.
Proof.
  intros r Hstage Hmontage Hm Ha Hdm Hdt. subst r.
  assert (mosaics L input_list name path d =
    (Ok tt,
     Env (filter (λ f, outside (path +:+ "/temp/") f.1 = true)
            (filter (λ f, outside (path +:+ "/mosaic_temp/") f.1 = true)
               ((path +:+ "/mosaics/" +:+ name +:+ ".fits", m)
                :: (path +:+ "/mosaics/exp_" +:+ name +:+ ".fits", a) :: files d2)))
         (filter (λ q, outside (path +:+ "/temp/") q = true)
            (filter (λ q, outside (path +:+ "/mosaic_temp/") q = true) (dirs d2)))
         (stdout d2))) as ->.
  { rewrite mosaics_split. unfold io_bind at 1. rewrite Hstage.
    unfold io_bind at 1. rewrite Hmontage.
    unfold io_bind at 1. rewrite copy_run.
    assert (String.eqb (path +:+ "/mosaic_temp/mosaic_area.fits")
              (path +:+ "/mosaics/exp_" +:+ name +:+ ".fits") = false) as ->.
    { apply String.eqb_neq. intros H. apply append_inj in H. simpl in H. discriminate H. }
    rewrite Ha. unfold io_bind at 1. rewrite copy_run.
    assert (String.eqb (path +:+ "/mosaic_temp/mosaic.fits")
              (path +:+ "/mosaics/" +:+ name +:+ ".fits") = false) as ->.
    { apply String.eqb_neq. intros H. apply append_inj in H. simpl in H. discriminate H. }
    cbn [files dirs stdout lookup_file].
    assert (String.eqb (path +:+ "/mosaics/exp_" +:+ name +:+ ".fits")
              (path +:+ "/mosaic_temp/mosaic.fits") = false) as ->.
    { apply String.eqb_neq. intros H. apply append_inj in H. simpl in H. discriminate H. }
    rewrite Hm. unfold io_bind at 1.
    rewrite rmtree_run by (by apply existsb_eqb_elem).
    rewrite rmtree_run; [done|].
    apply existsb_eqb_elem, list_elem_of_filter. split; [|done].
    unfold outside. by rewrite prefix_append. }
  cbn [fst snd files dirs].
  assert (String.eqb (path +:+ "/mosaics/" +:+ name +:+ ".fits")
            (path +:+ "/mosaics/exp_" +:+ name +:+ ".fits") = false) as Hne.
  { apply String.eqb_neq. intros H. apply append_inj in H.
    apply (f_equal String.length) in H. simpl in H.
    rewrite !length_append in H. simpl in H. lia. }
  assert (∀ x, String.prefix (path +:+ "/temp/") (path +:+ "/mosaics/" +:+ x) = false)
    as Ht by (intros x; by rewrite prefix_append).
  assert (∀ x, String.prefix (path +:+ "/mosaic_temp/") (path +:+ "/mosaics/" +:+ x)
               = false)
    as Hmt by (intros x; by rewrite prefix_append).
  split; [done|]. split; [|split].
  - rewrite !lookup_file_outside, Ht, Hmt. cbn [lookup_file].
    by rewrite String.eqb_refl.
  - change (path +:+ "/mosaics/exp_" +:+ name +:+ ".fits")
      with (path +:+ "/mosaics/" +:+ "exp_" +:+ name +:+ ".fits") in Hne |- *.
    rewrite !lookup_file_outside, Ht, Hmt. cbn [lookup_file].
    by rewrite Hne, String.eqb_refl.
  - intros p Hp. split.
    + rewrite !lookup_file_outside.
      destruct (String.prefix (path +:+ "/temp/") p); [done|].
      destruct Hp as [Hp|Hp]; [done|]. by rewrite Hp.
    + intros Hin. apply list_elem_of_filter in Hin as [Ho1 Hin].
      apply list_elem_of_filter in Hin as [Ho2 _].
      unfold outside in Ho1, Ho2.
      destruct Hp as [Hp|Hp]; [by rewrite Hp in Ho1|by rewrite Hp in Ho2].
Qed.

End Mosaics.

(** ** Line maps and mosaics on the desk *)

Lemma linemaps_empties_temp_witness :
  lookup_file "/obstemp/notes"
    (files (linemaps Desk.libs "cube.fits" "/obs" (Some ["Ha"]%string)
              (Some [6562.8]%R) Desk.obs).2) = None.
Proof.
  destruct (linemaps_empties_temp Desk.libs "cube.fits" "/obs" (Some ["Ha"]%string)
              (Some [6562.8]%R) Desk.obs) as [H _].
  - run_py. reflexivity.
  - apply H. reflexivity.
Defined.

Lemma linemaps_writes_the_maps_witness :
  ∃ slab, lookup_file "/obs/Ha.fits"
            (files (linemaps Desk.libs "cube.fits" "/obs" (Some ["Ha"]%string)
                      (Some [6562.8]%R) Desk.obs).2) = Some (Fits [slab]).
Proof.
  destruct (linemaps_writes_the_maps Desk.libs "cube.fits" "/obs" (Some ["Ha"]%string)
              (Some [6562.8]%R) Desk.obs) as (f & cube & _ & _ & H).
  - run_py. reflexivity.
  - apply NoDup_singleton.
  - destruct (H 6562.8%R "Ha"%string) as (slab & _ & Hl); [by left|].
    exists slab. exact Hl.
Defined.

Lemma failed_linemaps_leaves_temp_witness :
  "/obstemp/"%string
  ∈ dirs (linemaps Desk.libs "nocube.fits" "/obs" None None Desk.obs).2.
Proof.
  apply (failed_linemaps_leaves_temp Desk.libs "nocube.fits" "/obs" None None Desk.obs).
  - by left.
  - run_py. discriminate.
Defined.

Lemma staging_copies_in_order_witness :
  lookup_file (staged "/maps" 1)
    (files (mosaics_stage ["/maps/a.fits"; "/maps/b.fits"]%string "/maps" Desk.maps).2)
  = Some (Fits [Desk.ext "B" [2]%R]).
Proof.
  destruct (staging_copies_in_order ["/maps/a.fits"; "/maps/b.fits"]%string "/maps"
              Desk.maps) as [_ H].
  - intros f Hf. apply elem_of_cons in Hf as [->|Hf]; [by eexists|].
    apply list_elem_of_singleton in Hf as ->. by eexists.
  - intros f j Hf _ Hs. unfold staged in Hs.
    apply elem_of_cons in Hf as [->|Hf]; [simpl in Hs; discriminate Hs|].
    apply list_elem_of_singleton in Hf as ->. simpl in Hs. discriminate Hs.
  - rewrite (H 1 "/maps/b.fits"%string eq_refl). reflexivity.
Defined.

Lemma staging_keeps_other_files_witness :
  lookup_file "/maps/temp/9.fits"
    (files (mosaics_stage ["/maps/a.fits"; "/maps/b.fits"]%string "/maps" Desk.maps).2)
  = Some (Fits [Desk.ext "OLD" []]).
Proof.
  rewrite (staging_keeps_other_files ["/maps/a.fits"; "/maps/b.fits"]%string "/maps"
             "/maps/temp/9.fits" Desk.maps).
  - reflexivity.
  - intros j Hj Hs. simpl in Hj.
    destruct j as [|[|j]]; [vm_compute in Hs; discriminate Hs..|lia].
Defined.

Lemma failed_staging_leaves_scratch_witness :
  (mosaics Desk.libs ["/maps/a.fits"; "/maps/zz.fits"]%string "m" "/maps" Desk.maps).1
  = Raise FileNotFoundError ∧
  "/maps/mosaics/"%string
  ∈ dirs (mosaics_stage ["/maps/a.fits"; "/maps/zz.fits"]%string "/maps" Desk.maps).2.
Proof.
  destruct (failed_staging_leaves_scratch Desk.libs
              ["/maps/a.fits"; "/maps/zz.fits"]%string "m" "/maps" Desk.maps
              FileNotFoundError) as (Hr & _ & Hd).
  - run_py. reflexivity.
  - split; [by rewrite Hr|exact Hd].
Defined.

Lemma mosaics_delivers_witness :
  lookup_file "/maps/mosaics/m.fits"
    (files (mosaics Desk.libs ["/maps/a.fits"; "/maps/b.fits"]%string "m" "/maps"
              Desk.maps).2)
  = Some (Fits [Desk.ext "MOSAIC" []]).
Proof.
  set (d1 := (mosaics_stage ["/maps/a.fits"; "/maps/b.fits"]%string "/maps"
                Desk.maps).2).
  set (d2 := (montage_mosaic Desk.libs "/maps/temp/" "/maps/mosaic_temp/" d1).2).
  destruct (mosaics_delivers Desk.libs ["/maps/a.fits"; "/maps/b.fits"]%string "m"
              "/maps" Desk.maps d1 d2 (Fits [Desk.ext "MOSAIC" []])
              (Fits [Desk.ext "AREA" []])) as (_ & H & _).
  - subst d1. run_py. reflexivity.
  - reflexivity.
  - reflexivity.
  - reflexivity.
  - by left.
  - subst d2 d1. apply list_elem_of_In. run_py.
    repeat (first [left; reflexivity | right]).
  - exact H.
Defined.

(** * [cubes.py]: the correction of the coordinates *)

Lemma print_run (line : list pitem) (d : env) :
  print line d = (Ok tt, Env (files d) (dirs d) (stdout d ++ [line])).
Proof. by destruct d. Qed.

Lemma fits_open_run (p : string) (d : env) :
  fits_open p d =
    (match lookup_file p (files d) with
     | Some (Fits hdus) => Ok hdus
     | Some _ => Raise OSError
     | None => Raise FileNotFoundError
     end, d).
Proof.
  unfold fits_open, io_bind, read_file.
  destruct (lookup_file p (files d)) as [[| |hdus]|]; done.
Qed.

Lemma hget_hmem (h : list (string * hval)) (k : string) (v : hval) :
  hget h k = Ok v → hmem h k = true.
Proof.
  unfold hmem. induction h as [|c h IH]; simpl; [done|].
  destruct (same_keyword c.1 k); [done|]. intros H. by apply IH.
Qed.

Lemma set_card_single (h : hdu) (k : string) (v : hval) :
  set_card [h] 0 k v = [HDU (hset (hdu_header h) k v) (hdu_data h)].
Proof. reflexivity. Qed.

Ltac io_norm :=
  cbv beta iota zeta delta [io_bind io_ret io_lift io_raise print fits_open
    read_file write_file files dirs stdout fst snd].

Section Wcs.

Variable L : libraries.

(** X27.  The new reference pixel of a cube of one extension: with the
    six parameters A, B, C, D, x0, y0 of the prm file and the reference
    pixel (px, py) of the header, [wcs_cor] without a change of frame and
    with the correction type [shift] (any type but [full]) returns and
    writes one file, [path/input_fits_cor.fits]: the cube with
    CRPIX1 = x0 + A px + C py + 1 and CRPIX2 = y0 + B px + D py + 1 and
    nothing else changed.  So the matrix enters the reference pixel also
    under [shift], the identity correction moves the pixel by (1, 1), and
    the cube that was read is not written over. *)
Theorem wcs_cor_moves_the_reference_pixel
    (input_fits input_prm path prm_path : string)
    (in_frame : option string) (correct_flux : bool)
    (spec_folder spec_path correctiontype : string) (d : env)
    (h : hdu) (prm : list hdu) (p4 : hdu) (A B C D x0 y0 px py : R) :
  let r := wcs_cor L input_fits input_prm path prm_path None None in_frame
             correct_flux spec_folder spec_path correctiontype d in
  lookup_file (path +:+ "/" +:+ input_fits +:+ ".fits") (files d) = Some (Fits [h]) →
  lookup_file (prm_path +:+ "/" +:+ input_prm +:+ ".prm.fits") (files d)
    = Some (Fits prm) →
  (∃ s, hget (hdu_header h) "RADECSYS" = Ok (HStr s))
  ∨ (hmem (hdu_header h) "RADECSYS" = false ∧ is_Some in_frame) →
  prm !! 4 = Some p4 →
  prm_parameter L (hdu_data p4) 0 = Ok A → prm_parameter L (hdu_data p4) 1 = Ok B →
  prm_parameter L (hdu_data p4) 2 = Ok C → prm_parameter L (hdu_data p4) 3 = Ok D →
  prm_parameter L (hdu_data p4) 4 = Ok x0 → prm_parameter L (hdu_data p4) 5 = Ok y0 →
  hget (hdu_header h) "CRPIX1" = Ok (HNum px) →
  hget (hdu_header h) "CRPIX2" = Ok (HNum py) →
  correctiontype ≠ "full"%string →
  r.1 = Ok tt ∧
  files r.2 =
    (path +:+ "/" +:+ input_fits +:+ "_cor.fits",
     Fits [HDU (hset (hset (hdu_header h)
                  "CRPIX1" (HNum (x0 + A * px + C * py + 1)))
                  "CRPIX2" (HNum (y0 + B * px + D * py + 1)))
               (hdu_data h)]) :: files d ∧
  dirs r.2 = dirs d.
Proof.
  intros r Hcube Hprm Hframe Hp4 HA HB HC HD Hx0 Hy0 Hpx Hpy Hfull. subst r.
  apply String.eqb_neq in Hfull.
  destruct d as [fs ds out]. cbn [files dirs] in Hcube, Hprm |- *.
  assert (getitem prm 4 = Ok p4) as Hg4 by (unfold getitem; by rewrite Hp4).
  assert (∃ out',
    wcs_cor L input_fits input_prm path prm_path None None in_frame
      correct_flux spec_folder spec_path correctiontype (Env fs ds out)
    = (Ok tt,
       Env ((path +:+ "/" +:+ input_fits +:+ "_cor.fits",
             Fits [HDU (hset (hset (hdu_header h)
                          "CRPIX1" (HNum (x0 + A * px + C * py + 1)))
                          "CRPIX2" (HNum (y0 + B * px + D * py + 1)))
                       (hdu_data h)]) :: fs) ds out')) as [out' ->]; [|done].
  unfold wcs_cor. io_norm. rewrite Hcube.
  cbn [length Nat.eqb negb orb andb]. cbv beta iota.
  rewrite Hprm. cbv beta iota. unfold getitem at 1. cbn [lookup list_lookup].
  cbv beta iota.
  destruct Hframe as [[s Hs]|[Hm [f ->]]];
    [rewrite (hget_hmem _ _ _ Hs), Hs; cbn [hval_lower]|rewrite Hm];
    cbv beta iota; destruct correct_flux.
  all: cbv beta iota; rewrite Hg4; cbv beta iota.
  all: rewrite HA, HB, HC, HD, Hx0, Hy0; cbv beta iota.
  all: cbn [sechdr_of getitem lookup list_lookup rbind fst snd]; cbv beta iota.
  all: rewrite Hpx, Hpy; cbn [number]; cbv beta iota.
  all: rewrite Hfull, !set_card_single; cbn [length Nat.eqb andb hdu_header hdu_data].
  all: rewrite ?andb_false_r; cbv beta iota.
  all: replace (x0 * 1 + 0 * 1 + (A * px + C * py) + 1)%R
         with (x0 + A * px + C * py + 1)%R by ring.
  all: replace (0 * 1 + y0 * 1 + (B * px + D * py) + 1)%R
         with (y0 + B * px + D * py + 1)%R by ring.
  all: by eexists.
Qed.

(** X28.  For a cube of one extension the frame named in the header wins:
    when the header has a RADECSYS card, the argument [in_frame] is not
    looked at, and the call is the same with any other [in_frame] or with
    none. *)
Theorem header_frame_overrides_argument
    (input_fits input_prm path prm_path : string)
    (output_file out_frame in_frame in_frame' : option string) (correct_flux : bool)
    (spec_folder spec_path correctiontype : string) (d : env) (h : hdu) :
  lookup_file (path +:+ "/" +:+ input_fits +:+ ".fits") (files d) = Some (Fits [h]) →
  hmem (hdu_header h) "RADECSYS" = true →
  wcs_cor L input_fits input_prm path prm_path output_file out_frame in_frame
    correct_flux spec_folder spec_path correctiontype d
  = wcs_cor L input_fits input_prm path prm_path output_file out_frame in_frame'
      correct_flux spec_folder spec_path correctiontype d.
Proof.
  intros Hcube Hmem. destruct d as [fs ds out]. cbn [files] in Hcube.
  unfold wcs_cor. io_norm. rewrite Hcube.
  cbn [length Nat.eqb negb orb andb getitem lookup list_lookup]. cbv beta iota.
  by rewrite Hmem.
Qed.

(** X26.  A cube with neither one nor three extensions is not refused by
    the check of line 85, which holds for every number; such a cube never
    comes through.  The call raises, no file or directory is changed, and
    when the frame is given and the prm file has its parameters the
    exception is the UnboundLocalError of [sechdr]. *)
Theorem unsupported_cube_never_passes
    (input_fits input_prm path prm_path : string)
    (output_file out_frame in_frame : option string) (correct_flux : bool)
    (spec_folder spec_path correctiontype : string) (d : env) (cube : list hdu) :
  let r := wcs_cor L input_fits input_prm path prm_path output_file out_frame in_frame
             correct_flux spec_folder spec_path correctiontype d in
  lookup_file (path +:+ "/" +:+ input_fits +:+ ".fits") (files d) = Some (Fits cube) →
  length cube ≠ 1 → length cube ≠ 3 →
  r.1 ≠ Ok tt ∧ files r.2 = files d ∧ dirs r.2 = dirs d ∧
  ∀ prm p4,
    lookup_file (prm_path +:+ "/" +:+ input_prm +:+ ".prm.fits") (files d)
      = Some (Fits prm) →
    is_Some in_frame → prm !! 4 = Some p4 →
    (∀ i, i < 6 → ∃ v, prm_parameter L (hdu_data p4) i = Ok v) →
    r.1 = Raise UnboundLocalError.
Proof.
  intros r Hcube H1 H3. subst r.
  apply Nat.eqb_neq in H1, H3.
  destruct d as [fs ds out]. cbn [files dirs] in Hcube |- *.
  assert (∃ e out',
    wcs_cor L input_fits input_prm path prm_path output_file out_frame in_frame
      correct_flux spec_folder spec_path correctiontype (Env fs ds out)
    = (Raise e, Env fs ds out') ∧
    ∀ prm p4,
      lookup_file (prm_path +:+ "/" +:+ input_prm +:+ ".prm.fits") fs = Some (Fits prm) →
      is_Some in_frame → prm !! 4 = Some p4 →
      (∀ i, i < 6 → ∃ v, prm_parameter L (hdu_data p4) i = Ok v) →
      e = UnboundLocalError) as (e & out' & -> & He).
  2:{ cbn [fst snd files dirs]. repeat split; try done.
      intros prm p4 Hp Hf H4 Hall. by rewrite (He prm p4 Hp Hf H4 Hall). }
  unfold wcs_cor. io_norm. rewrite Hcube. rewrite H1, H3.
  cbn [negb orb andb]. cbv beta iota.
  clear Hcube. unfold getitem.
  destruct (lookup_file (prm_path +:+ "/" +:+ input_prm +:+ ".prm.fits") fs)
    as [[| |prm]|] eqn:Hprm; cbv beta iota;
    try (eexists _, _; split; [reflexivity|]; by intros).
  destruct in_frame as [f|]; cbv beta iota;
    [|eexists _, _; split; [reflexivity|]; by intros ? ? ? [? ?]].
  destruct (prm !! 4) as [p4|] eqn:Hp4; cbv beta iota;
    [|eexists _, _; split; [reflexivity|]; intros ? ? [= <-] _ Hp; by rewrite Hp4 in Hp].
  destruct (prm_parameter L (hdu_data p4) 0) as [A|] eqn:HA; cbv beta iota.
  2:{ eexists _, _; split; [reflexivity|]. intros ? ? [= <-] _ Hp Hall. rewrite Hp4 in Hp. injection Hp as <-.
      destruct (Hall 0) as [v Hv]; [lia|]. by rewrite Hv in HA. }
  destruct (prm_parameter L (hdu_data p4) 1) as [B|] eqn:HB; cbv beta iota.
  2:{ eexists _, _; split; [reflexivity|]. intros ? ? [= <-] _ Hp Hall. rewrite Hp4 in Hp. injection Hp as <-.
      destruct (Hall 1) as [v Hv]; [lia|]. by rewrite Hv in HB. }
  destruct (prm_parameter L (hdu_data p4) 2) as [C|] eqn:HC; cbv beta iota.
  2:{ eexists _, _; split; [reflexivity|]. intros ? ? [= <-] _ Hp Hall. rewrite Hp4 in Hp. injection Hp as <-.
      destruct (Hall 2) as [v Hv]; [lia|]. by rewrite Hv in HC. }
  destruct (prm_parameter L (hdu_data p4) 3) as [D|] eqn:HD; cbv beta iota.
  2:{ eexists _, _; split; [reflexivity|]. intros ? ? [= <-] _ Hp Hall. rewrite Hp4 in Hp. injection Hp as <-.
      destruct (Hall 3) as [v Hv]; [lia|]. by rewrite Hv in HD. }
  destruct (prm_parameter L (hdu_data p4) 4) as [x0|] eqn:Hx0; cbv beta iota.
  2:{ eexists _, _; split; [reflexivity|]. intros ? ? [= <-] _ Hp Hall. rewrite Hp4 in Hp. injection Hp as <-.
      destruct (Hall 4) as [v Hv]; [lia|]. by rewrite Hv in Hx0. }
  destruct (prm_parameter L (hdu_data p4) 5) as [y0|] eqn:Hy0; cbv beta iota.
  2:{ eexists _, _; split; [reflexivity|]. intros ? ? [= <-] _ Hp Hall. rewrite Hp4 in Hp. injection Hp as <-.
      destruct (Hall 5) as [v Hv]; [lia|]. by rewrite Hv in Hy0. }
  destruct out_frame as [o|]; cbn [sechdr_of]; cbv beta iota;
    eexists _, _; (split; [reflexivity|done]).
Qed.

(** ** The flux correction *)

Lemma spectrum_without_magnitude (off : R) (acc : list hval * list R) (sp : string)
    (d : env) (hdus : list hdu) (h : hdu) :
  lookup_file sp (files d) = Some (Fits hdus) → hdus !! 0 = Some h →
  existsb (String.eqb "SPECTRUM MAG F814W") (map fst (hdu_header h)) = false →
  spectrum_mags off acc sp d = (Ok acc, d).
Proof.
  intros Hsp H0 Hkey. destruct d as [fs ds out]. cbn [files] in Hsp.
  unfold spectrum_mags. unfold io_bind at 1. rewrite fits_open_run.
  cbn [files]. rewrite Hsp. unfold io_bind, io_lift, io_ret, getitem.
  rewrite H0. cbv beta iota zeta. by rewrite Hkey.
Qed.

Lemma gather_without_magnitudes (off : R) (acc : list hval * list R)
    (speclist : list string) (d : env) :
  (∀ sp, sp ∈ speclist → ∃ hdus h,
     lookup_file sp (files d) = Some (Fits hdus) ∧ hdus !! 0 = Some h ∧
     existsb (String.eqb "SPECTRUM MAG F814W") (map fst (hdu_header h)) = false) →
  gather_mags off acc speclist d = (Ok acc, d).
Proof.
  induction speclist as [|sp l IH]; intros Hall; simpl; [done|].
  destruct (Hall sp) as (hdus & h & Hsp & H0 & Hkey); [by left|].
  unfold io_bind. rewrite (spectrum_without_magnitude off acc sp d hdus h) by done.
  apply IH. intros sp' Hin. apply Hall. by right.
Qed.

(** X29.  The flux correction needs a spectrum with a magnitude: when no
    file of the spectra folder has the card SPECTRUM MAG F814W (so also
    when the folder is empty), the two magnitude lists stay Python lists,
    their difference is a TypeError, and the correction ends there: no
    line is printed, no file is written. *)
Theorem flux_correction_needs_a_magnitude (cube prm : list hdu)
    (input_prm prm_path : string) (output_file : option string)
    (spec_folder spec_path : string) (d : env) (off : R) :
  ABtoVega L "ACS" "F814W" = Ok off →
  (∀ sp, sp ∈ glob L (spec_path +:+ "/" +:+ spec_folder +:+ "/specid*") (files d) →
     ∃ hdus h,
       lookup_file sp (files d) = Some (Fits hdus) ∧ hdus !! 0 = Some h ∧
       existsb (String.eqb "SPECTRUM MAG F814W") (map fst (hdu_header h)) = false) →
  flux_correction L cube prm input_prm prm_path output_file spec_folder spec_path d
  = (Raise TypeError, d).
Proof.
  intros Hoff Hall. unfold flux_correction.
  unfold io_bind at 1. unfold io_lift at 1. rewrite Hoff.
  unfold io_bind at 1. unfold io_bind at 1.
  by rewrite (gather_without_magnitudes off ([], []) _ d Hall).
Qed.

Lemma index_from_headers (k : nat) (l l' : list hdu) (name : string) :
  Forall2 (λ a b, hdu_header a = hdu_header b) l l' →
  index_from k l name = index_from k l' name.
Proof.
  intros H. revert k. induction H as [|a b l l' Hab _ IH]; intros k; simpl; [done|].
  unfold hdu_named. rewrite Hab. destruct (_ || _); [done|apply IH].
Qed.

Lemma same_headers_refl (l : list hdu) :
  Forall2 (λ a b, hdu_header a = hdu_header b) l l.
Proof. induction l; by constructor. Qed.

Lemma insert_same_header (l : list hdu) (i : nat) (h : hdu) (dt : hdata) :
  l !! i = Some h →
  Forall2 (λ a b, hdu_header a = hdu_header b) l (<[i := HDU (hdu_header h) dt]> l).
Proof.
  revert i. induction l as [|a l IH]; intros [|i] Hi; simpl in *; try done.
  - injection Hi as ->. constructor; [done|]. apply same_headers_refl.
  - constructor; [done|]. by apply IH.
Qed.

Lemma index_from_named (k i : nat) (l : list hdu) (name : string) :
  index_from k l name = Ok i →
  ∃ h, l !! (i - k) = Some h ∧ k ≤ i ∧ hdu_named name i h = true.
Proof.
  revert k. induction l as [|a l IH]; intros k; simpl; [done|].
  destruct (hdu_named name k a) eqn:Hn.
  - intros [= <-]. exists a. replace (k - k) with 0 by lia. by repeat split.
  - intros H. destruct (IH (S k) H) as (h & Hl & Hle & Hh). exists h.
    replace (i - k) with (S (i - S k)) by lia. repeat split; [done|lia|done].
Qed.

Lemma data_is_not_stat (i : nat) (h : hdu) :
  hdu_named "DATA" i h = true → hdu_named "STAT" i h = true → False.
Proof.
  unfold hdu_named. simpl. rewrite !orb_false_r.
  destruct (hget (hdu_header h) "EXTNAME") as [[v|s]|]; try done.
  intros H1%String.eqb_eq H2%String.eqb_eq. by rewrite H1 in H2.
Qed.

Lemma spectrum_mags_state (off : R) (acc : list hval * list R) (sp : string) (d : env) :
  (spectrum_mags off acc sp d).2 = d.
Proof.
  unfold spectrum_mags. unfold io_bind at 1. rewrite fits_open_run.
  destruct (lookup_file sp (files d)) as [[| |hdus]|]; try done.
  unfold io_bind, io_lift, io_ret. destruct (getitem hdus 0) as [h|]; [|done].
  cbv beta iota zeta. destruct (existsb _ _); [|done].
  destruct (hget (hdu_header h) "SPECTRUM MAG F814W") as [[x|s]|]; try done.
  by destruct (hget (hdu_header h) "STAR MAG").
Qed.

Lemma gather_mags_state (off : R) (acc : list hval * list R) (l : list string) (d : env) :
  (gather_mags off acc l d).2 = d.
Proof.
  revert acc. induction l as [|sp l IH]; intros acc; simpl; [done|].
  unfold io_bind. pose proof (spectrum_mags_state off acc sp d) as Hs.
  destruct (spectrum_mags off acc sp d) as [[acc'|e] d']; simpl in Hs; subst d'; [|done].
  apply IH.
Qed.

(** X30.  What the flux correction does to the cube: when it returns, the
    pixels of the extension DATA are multiplied by one factor f > 0 and
    those of the extension STAT by f squared, and nothing else of the cube
    is changed; so the ratio of a squared data value to its variance, the
    signal-to-noise ratio, is what it was. *)
Theorem flux_correction_scales_data_and_variance (cube prm cube' : list hdu)
    (input_prm prm_path : string) (output_file : option string)
    (spec_folder spec_path : string) (d : env) (i j : nat)
    (hi hj : list (string * hval)) (data stat : list R) :
  (flux_correction L cube prm input_prm prm_path output_file spec_folder spec_path d).1
    = Ok cube' →
  index_of cube "DATA" = Ok i → index_of cube "STAT" = Ok j →
  cube !! i = Some (HDU hi (Image data)) → cube !! j = Some (HDU hj (Image stat)) →
  ∃ f : R, (0 < f)%R ∧
    cube' = <[j := HDU hj (Image (map (λ v : R, (v * f ^ 2)%R) stat))]>
              (<[i := HDU hi (Image (map (λ v : R, (v * f)%R) data))]> cube) ∧
    ∀ x s : R, s ≠ 0%R → ((x * f) ^ 2 / (s * f ^ 2) = x ^ 2 / s)%R.
Proof.
  intros Hr Hi Hj Hci Hcj.
  assert (i ≠ j) as Hij.
  { intros <-. apply index_from_named in Hi as (h & Hh & _ & Hd).
    apply index_from_named in Hj as (h' & Hh' & _ & Hs).
    rewrite Hh in Hh'. injection Hh' as <-. by apply (data_is_not_stat i h). }
  unfold flux_correction in Hr.
  unfold io_bind at 1 in Hr. unfold io_lift at 1 in Hr.
  destruct (ABtoVega L "ACS" "F814W") as [off|]; [|done].
  unfold io_bind at 1 in Hr. unfold io_bind at 1 in Hr.
  pose proof (gather_mags_state off ([], [])
    (glob L (spec_path +:+ "/" +:+ spec_folder +:+ "/specid*") (files d)) d) as Hg.
  destruct (gather_mags off ([], []) _ d) as [[mags|] d0]; simpl in Hg; subst d0; [|done].
  unfold io_bind at 1 in Hr. unfold io_lift at 1 in Hr.
  destruct (del_mag mags.1 mags.2) as [del|]; [|done].
  unfold io_bind at 1 in Hr. unfold io_lift at 1 in Hr.
  destruct (sigma_clip3 L del) as [clipped|]; [|done].
  cbv zeta in Hr.
  set (f := Rpower 10 (-1 * 0.4 * ma_median L clipped)) in Hr.
  unfold io_bind at 1 in Hr. rewrite print_run in Hr.
  unfold io_bind at 1 in Hr. rewrite print_run in Hr.
  unfold io_bind at 1 in Hr. unfold io_lift at 1 in Hr.
  assert (scale_data cube "DATA" f
          = Ok (<[i := HDU hi (Image (map (λ v : R, (v * f)%R) data))]> cube)) as H1.
  { unfold scale_data. rewrite Hi. simpl. unfold getitem. by rewrite Hci. }
  rewrite H1 in Hr.
  unfold io_bind at 1 in Hr. unfold io_lift at 1 in Hr.
  assert (scale_data (<[i := HDU hi (Image (map (λ v : R, (v * f)%R) data))]> cube) "STAT" (f ^ 2)
          = Ok (<[j := HDU hj (Image (map (λ v : R, (v * f ^ 2)%R) stat))]>
                  (<[i := HDU hi (Image (map (λ v : R, (v * f)%R) data))]> cube))) as H2.
  { unfold scale_data, index_of.
    rewrite <- (index_from_headers 0 cube _ "STAT"
                  (insert_same_header cube i (HDU hi (Image data)) _ Hci)).
    fold (index_of cube "STAT"). rewrite Hj. simpl. unfold getitem.
    rewrite list_lookup_insert_ne by done. by rewrite Hcj. }
  rewrite H2 in Hr.
  exists f. split; [apply exp_pos|]. split.
  - destruct output_file as [o|].
    + unfold io_bind at 1 in Hr. destruct (shutil_copy _ _ _) as [[[]|] d2]; [|done].
      by injection Hr as <-.
    + unfold io_bind at 1 in Hr. unfold io_lift at 1 in Hr.
      destruct (getitem prm 0); [|done].
      unfold io_bind at 1 in Hr. destruct (write_file _ _ _) as [[[]|] d2]; [|done].
      by injection Hr as <-.
  - intros x s Hs. assert (0 < f)%R as Hf by apply exp_pos. field. split; lra.
Qed.

End Wcs.

(** ** The correction on the desk *)

Lemma unsupported_cube_never_passes_witness :
  (wcs_cor Desk.libs "two" "one" "/sky" "/sky" None None (Some "fk5"%string) false
     "stars" "/sky" "shift" Desk.sky).1 = Raise UnboundLocalError.
Proof.
  destruct (unsupported_cube_never_passes Desk.libs "two" "one" "/sky" "/sky" None None
              (Some "fk5"%string) false "stars" "/sky" "shift" Desk.sky
              [Desk.one; Desk.one]) as (_ & _ & _ & H).
  - reflexivity.
  - simpl. lia.
  - simpl. lia.
  - apply (H Desk.prm (Desk.ext "P4" [])).
    + reflexivity.
    + by eexists.
    + reflexivity.
    + intros i _. by eexists.
Defined.

Lemma wcs_cor_moves_the_reference_pixel_witness :
  (wcs_cor Desk.libs "one" "one" "/sky" "/sky" None None None false
     "stars" "/sky" "shift" Desk.sky).1 = Ok tt.
Proof.
  apply (wcs_cor_moves_the_reference_pixel Desk.libs "one" "one" "/sky" "/sky" None
           false "stars" "/sky" "shift" Desk.sky Desk.one Desk.prm (Desk.ext "P4" [])
           (INR 0) (INR 1) (INR 2) (INR 3) (INR 4) (INR 5) 10 20).
  - reflexivity.
  - reflexivity.
  - left. by eexists.
  - reflexivity.
  - reflexivity.
  - reflexivity.
  - reflexivity.
  - reflexivity.
  - reflexivity.
  - reflexivity.
  - reflexivity.
  - reflexivity.
  - discriminate.
Defined.

Lemma header_frame_overrides_argument_witness :
  wcs_cor Desk.libs "one" "one" "/sky" "/sky" None None (Some "galactic"%string) false
    "stars" "/sky" "shift" Desk.sky
  = wcs_cor Desk.libs "one" "one" "/sky" "/sky" None None None false
      "stars" "/sky" "shift" Desk.sky.
Proof.
  apply (header_frame_overrides_argument Desk.libs "one" "one" "/sky" "/sky" None None
           (Some "galactic"%string) None false "stars" "/sky" "shift" Desk.sky Desk.one).
  - reflexivity.
  - reflexivity.
Defined.

Lemma flux_correction_needs_a_magnitude_witness :
  flux_correction Desk.libs Desk.muse Desk.prm "one" "/sky" None "stars" "/sky" Desk.sky
  = (Raise TypeError, Desk.sky).
Proof.
  apply (flux_correction_needs_a_magnitude Desk.libs Desk.muse Desk.prm "one" "/sky"
           None "stars" "/sky" Desk.sky 0).
  - reflexivity.
  - intros sp Hsp. simpl in Hsp.
    apply elem_of_cons in Hsp as [->|Hsp]; [by eexists _, _|].
    apply elem_of_cons in Hsp as [->|Hsp]; [by eexists _, _|].
    apply list_elem_of_singleton in Hsp as ->. by eexists _, _.
Defined.

Lemma flux_correction_scales_data_and_variance_witness :
  ∃ (f : R) (c : list hdu),
    (0 < f)%R ∧
    (flux_correction Desk.libs Desk.muse Desk.prm "one" "/sky" None "stars" "/sky"
       Desk.spectra).1 = Ok c ∧
    c !! 1 = Some (Desk.ext "DATA" [1 * f; 2 * f]%R).
Proof.
  assert (∃ c, (flux_correction Desk.libs Desk.muse Desk.prm "one" "/sky" None "stars"
                  "/sky" Desk.spectra).1 = Ok c) as [c Hc].
  { run_io. by eexists. }
  destruct (flux_correction_scales_data_and_variance Desk.libs Desk.muse Desk.prm c
              "one" "/sky" None "stars" "/sky" Desk.spectra 1 2
              [("EXTNAME", HStr "DATA")]%string [("EXTNAME", HStr "STAT")]%string
              [1; 2]%R [3; 4]%R) as (f & Hf & -> & _).
  - exact Hc.
  - reflexivity.
  - reflexivity.
  - reflexivity.
  - reflexivity.
  - exists f. eexists. split; [exact Hf|]. split; [exact Hc|]. reflexivity.
Defined.
